(** * TOSCAKubed: the TOSCA to Kubernetes translation of [toscakubed.py]

    A shallow embedding of the adaptor's translation code, and the
    properties of the translation proved on it.  The adaptor is Python over
    dynamically typed YAML data, so the embedding comes in layers:

    - [Py]: the fragment of Python the adaptor runs on: values, truthiness,
      insertion-ordered dictionaries, the string and dictionary methods the
      source calls, and the exceptions the interpreter raises when a method
      meets a receiver of the wrong type;
    - [Tosca]: what the adaptor reads from the parsed template (node
      templates, interface operations, repositories);
    - [Kube]: the adaptor itself, function by function, in a state and
      exception monad over the adaptor object and the logger;
    - [Terms] and [Scenario]: the vocabulary of the properties and the
      topologies they are stated on;
    - [Files] and [Notions]: the manifest file with [cleanup], and the
      vocabulary of the further properties.

    Mutation.  The source fills dictionaries in place.  A function that
    mutates an argument returns the argument as the call leaves it, and a
    nested object mutated through a reference is written back into the
    dictionary that holds it ([store]).  This is sound where one name holds
    the object; the one place where two dictionaries hold the same list and
    one of them is extended, the [volumeMounts] of [_create_manifests], is
    modelled as such.

    Limits of the value model: floats are left out; strings are byte
    strings and the case, digit and white-space tests are the ASCII ones;
    two objects of the template are never one and the same object. *)

From Stdlib Require Import String Ascii ZArith List Bool Lia DecimalString.
From Stdlib Require Import Permutation Sorted.
Import ListNotations.

Set Warnings "-register-all".
Local Open Scope list_scope.
Local Open Scope string_scope.

(* ================================================================== *)
(** * The Python fragment *)
(* ================================================================== *)

Module Py.

(** ** Values *)

(** A dictionary is its list of items in insertion order, the order in
    which Python iterates over it and in which the manifests come out; keys
    are the hashable values ([None], booleans, integers, strings). *)
Inductive value : Type :=
| VNone
| VBool (b : bool)
| VInt (n : Z)
| VStr (s : string)
| VList (xs : list value)
| VDict (items : list (value * value)).

Definition dict := list (value * value).

(** Exceptions.  [ValueError] is the one the adaptor raises itself, with
    its message; the others are raised by the interpreter
    ([BuiltinValueError] is the interpreter's own [ValueError], from
    [int()] on a non-numeric string or from unpacking). *)
Inductive exception : Type :=
| ValueError (msg : string)
| BuiltinValueError
| TypeError
| AttributeError
| IndexError.

Definition res (A : Type) : Type := (exception + A)%type.

Definition ok {A} (a : A) : res A := inr a.
Definition throw {A} (e : exception) : res A := inl e.

Definition rbind {A B} (r : res A) (k : A -> res B) : res B :=
  match r with
  | inl e => inl e
  | inr a => k a
  end.

Declare Scope res_scope.
Delimit Scope res_scope with res.
Notation "x <-? r ;; k" := (rbind r (fun x => k))
  (at level 61, r at next level, right associativity) : res_scope.
Notation "' p <-? r ;; k" := (rbind r (fun x => let 'p := x in k))
  (at level 61, p pattern, r at next level, right associativity) : res_scope.
Local Open Scope res_scope.

(** ** Truthiness and equality *)

Definition truthy (v : value) : bool :=
  match v with
  | VNone => false
  | VBool b => b
  | VInt n => negb (n =? 0)%Z
  | VStr s => negb (s =? "")
  | VList xs => match xs with [] => false | _ => true end
  | VDict d => match d with [] => false | _ => true end
  end.

(** [a or b] *)
Definition py_or (a b : value) : value := if truthy a then a else b.

(** [v == "literal"] *)
Definition eq_str (v : value) (s : string) : bool :=
  match v with
  | VStr t => t =? s
  | _ => false
  end.

Definition hashable (v : value) : bool :=
  match v with
  | VList _ | VDict _ => false
  | _ => true
  end.

(** Equality of dictionary keys: [True == 1] and [False == 0]. *)
Definition key_eqb (a b : value) : bool :=
  match a, b with
  | VNone, VNone => true
  | VStr s, VStr t => s =? t
  | VInt m, VInt n => (m =? n)%Z
  | VBool x, VBool y => Bool.eqb x y
  | VBool x, VInt n | VInt n, VBool x => (n =? (if x then 1 else 0))%Z
  | _, _ => false
  end.

(** ** Strings *)

Definition is_upper (c : ascii) : bool :=
  (65 <=? nat_of_ascii c)%nat && (nat_of_ascii c <=? 90)%nat.
Definition is_lower (c : ascii) : bool :=
  (97 <=? nat_of_ascii c)%nat && (nat_of_ascii c <=? 122)%nat.
Definition is_digit (c : ascii) : bool :=
  (48 <=? nat_of_ascii c)%nat && (nat_of_ascii c <=? 57)%nat.
Definition is_space (c : ascii) : bool :=
  let n := nat_of_ascii c in
  ((9 <=? n)%nat && (n <=? 13)%nat) || ((28 <=? n)%nat && (n <=? 32)%nat).

Fixpoint map_string (f : ascii -> ascii) (s : string) : string :=
  match s with
  | EmptyString => EmptyString
  | String c s' => String (f c) (map_string f s')
  end.

Definition lower : string -> string :=
  map_string (fun c => if is_upper c then ascii_of_nat (nat_of_ascii c + 32) else c).
Definition upper : string -> string :=
  map_string (fun c => if is_lower c then ascii_of_nat (nat_of_ascii c - 32) else c).

(** [s.replace(c, "")] for a one-character [c] *)
Fixpoint remove_char (c : ascii) (s : string) : string :=
  match s with
  | EmptyString => EmptyString
  | String a s' => if Ascii.eqb a c then remove_char c s' else String a (remove_char c s')
  end.

(** [sub in s] *)
Fixpoint contains (sub s : string) : bool :=
  String.prefix sub s ||
  match s with
  | EmptyString => false
  | String _ s' => contains sub s'
  end.

(** [s.split()] *)
Fixpoint split_ws_from (cur s : string) : list string :=
  match s with
  | EmptyString => if cur =? "" then [] else [cur]
  | String c s' =>
      if is_space c
      then (if cur =? "" then split_ws_from "" s' else cur :: split_ws_from "" s')
      else split_ws_from (cur ++ String c "") s'
  end.
Definition split_ws : string -> list string := split_ws_from "".

(** [s.split(c)] for a one-character separator *)
Fixpoint split_on_from (sep : ascii) (cur s : string) : list string :=
  match s with
  | EmptyString => [cur]
  | String c s' =>
      if Ascii.eqb c sep
      then cur :: split_on_from sep "" s'
      else split_on_from sep (cur ++ String c "") s'
  end.
Definition split_on (sep : ascii) : string -> list string := split_on_from sep "".

Fixpoint lstrip_char (c : ascii) (s : string) : string :=
  match s with
  | String a s' => if Ascii.eqb a c then lstrip_char c s' else s
  | EmptyString => EmptyString
  end.
Definition rev_string (s : string) : string :=
  string_of_list_ascii (rev (list_ascii_of_string s)).
(** [s.strip(c)] *)
Definition strip_char (c : ascii) (s : string) : string :=
  rev_string (lstrip_char c (rev_string (lstrip_char c s))).

Fixpoint lstrip_ws (s : string) : string :=
  match s with
  | String a s' => if is_space a then lstrip_ws s' else s
  | EmptyString => EmptyString
  end.
Definition strip_ws (s : string) : string :=
  rev_string (lstrip_ws (rev_string (lstrip_ws s))).

Fixpoint all_digits (s : string) : bool :=
  match s with
  | EmptyString => true
  | String c s' => is_digit c && all_digits s'
  end.
(** [s.isdigit()] *)
Definition isdigit (s : string) : bool := negb (s =? "") && all_digits s.

(** The digits of an integer literal: groups of digits, single underscores
    allowed between them.  [sep] says whether a digit must come next. *)
Fixpoint parse_digits (sep : bool) (acc : Z) (s : string) : option Z :=
  match s with
  | EmptyString => if sep then None else Some acc
  | String c s' =>
      if is_digit c
      then parse_digits false (acc * 10 + Z.of_nat (nat_of_ascii c - 48)) s'
      else if Ascii.eqb c "_"
           then (if sep then None else parse_digits true acc s')
           else None
  end.

(** [int(s)] on a string: surrounding white space, an optional sign. *)
Definition int_of_string (s : string) : option Z :=
  match strip_ws s with
  | String "-" s' => option_map Z.opp (parse_digits true 0 s')
  | String "+" s' => parse_digits true 0 s'
  | s' => parse_digits true 0 s'
  end.

Definition string_of_Z (n : Z) : string := NilZero.string_of_int (Z.to_int n).

Fixpoint join (sep : string) (l : list string) : string :=
  match l with
  | [] => ""
  | [s] => s
  | s :: l' => s ++ sep ++ join sep l'
  end.

(** ** [str()] and [repr()] *)

Definition hex_digit (n : nat) : ascii :=
  if (n <? 10)%nat then ascii_of_nat (48 + n) else ascii_of_nat (87 + n).

Definition escape_char (quote c : ascii) : string :=
  let n := nat_of_ascii c in
  if Ascii.eqb c "\" then "\\"
  else if Ascii.eqb c quote then String "\" (String c "")
  else if (n =? 10)%nat then "\n"
  else if (n =? 13)%nat then "\r"
  else if (n =? 9)%nat then "\t"
  else if (n <? 32)%nat || (n =? 127)%nat
       then String "\" (String "x" (String (hex_digit (n / 16)) (String (hex_digit (n mod 16)) "")))
  else String c "".

Fixpoint escape (quote : ascii) (s : string) : string :=
  match s with
  | EmptyString => EmptyString
  | String c s' => escape_char quote c ++ escape quote s'
  end.

Definition double_quote : ascii := ascii_of_nat 34.

(** A string is displayed between single quotes, or between double quotes
    when it has a single quote and no double quote in it. *)
Definition repr_string (s : string) : string :=
  let q : ascii :=
    if contains "'" s && negb (contains (String double_quote "") s)
    then double_quote else "'"%char in
  String q (escape q s ++ String q "").

Fixpoint repr (v : value) : string :=
  match v with
  | VNone => "None"
  | VBool b => if b then "True" else "False"
  | VInt n => string_of_Z n
  | VStr s => repr_string s
  | VList xs => "[" ++ join ", " (map repr xs) ++ "]"
  | VDict d =>
      "{" ++ join ", " (map (fun kv => repr (fst kv) ++ ": " ++ repr (snd kv)) d) ++ "}"
  end.

(** [str(v)], which is what ["{}".format(v)] inserts *)
Definition str (v : value) : string :=
  match v with
  | VStr s => s
  | _ => repr v
  end.

Coercion VStr : string >-> value.

(** An item of a dictionary display, [{"k": v, ...}]. *)
Notation "k =: v" := (@pair value value (VStr k) v) (at level 60, no associativity).

(** ** Dictionaries *)

Fixpoint lookup (k : value) (d : dict) : option value :=
  match d with
  | [] => None
  | (k', v) :: d' => if key_eqb k' k then Some v else lookup k d'
  end.

Fixpoint remove (k : value) (d : dict) : dict :=
  match d with
  | [] => []
  | (k', v) :: d' => if key_eqb k' k then d' else (k', v) :: remove k d'
  end.

(** [d[k] = v]: an existing key keeps its place, a new one goes last. *)
Fixpoint set_item (k v : value) (d : dict) : dict :=
  match d with
  | [] => [(k, v)]
  | (k', v') :: d' => if key_eqb k' k then (k', v) :: d' else (k', v') :: set_item k v d'
  end.

Definition dget (d : dict) (k default : value) : value :=
  match lookup k d with
  | Some v => v
  | None => default
  end.

Definition dpop (d : dict) (k default : value) : value * dict :=
  match lookup k d with
  | Some v => (v, remove k d)
  | None => (default, d)
  end.

Definition dsetdefault (d : dict) (k default : value) : value * dict :=
  match lookup k d with
  | Some v => (v, d)
  | None => (default, (d ++ [(k, default)])%list)
  end.

(** [{k: v for k, v in d.items() if v}] *)
Definition keep_truthy (d : dict) : dict := filter (fun kv => truthy (snd kv)) d.

(** [{**d, **more}] *)
Definition merge (d more : dict) : dict :=
  fold_left (fun acc kv => set_item (fst kv) (snd kv) acc) more d.

(** ** Methods on a receiver of any type

    Each returns its result and, for the mutating ones, the receiver after
    the call.  A receiver without the method raises [AttributeError]. *)

Definition get (recv k default : value) : res value :=
  match recv with
  | VDict d => if hashable k then ok (dget d k default) else throw TypeError
  | _ => throw AttributeError
  end.

(** [recv.pop(k, default)]; [list.pop] takes one argument at most. *)
Definition pop (recv k default : value) : res (value * value) :=
  match recv with
  | VDict d =>
      if hashable k
      then ok (let (v, d') := dpop d k default in (v, VDict d'))
      else throw TypeError
  | VList _ => throw TypeError
  | _ => throw AttributeError
  end.

Definition setdefault (recv k default : value) : res (value * value) :=
  match recv with
  | VDict d =>
      if hashable k
      then ok (let (v, d') := dsetdefault d k default in (v, VDict d'))
      else throw TypeError
  | _ => throw AttributeError
  end.

Definition append (recv x : value) : res value :=
  match recv with
  | VList xs => ok (VList (xs ++ [x])%list)
  | _ => throw AttributeError
  end.

(** [recv += xs] for a list [xs]: in place on a list, an error elsewhere. *)
Definition iadd_list (recv : value) (xs : list value) : res value :=
  match recv with
  | VList ys => ok (VList (ys ++ xs)%list)
  | _ => throw TypeError
  end.

Definition items_truthy (recv : value) : res value :=
  match recv with
  | VDict d => ok (VDict (keep_truthy d))
  | _ => throw AttributeError
  end.

(** [{..., **recv}] *)
Definition splat (recv : value) : res dict :=
  match recv with
  | VDict d => ok d
  | _ => throw TypeError
  end.

Fixpoint chars (s : string) : list value :=
  match s with
  | EmptyString => []
  | String c s' => VStr (String c "") :: chars s'
  end.

(** [for x in v] *)
Definition iter (v : value) : res (list value) :=
  match v with
  | VList xs => ok xs
  | VDict d => ok (map fst d)
  | VStr s => ok (chars s)
  | _ => throw TypeError
  end.

(** [a, b = v] *)
Definition unpack2 (v : value) : res (value * value) :=
  xs <-? iter v ;;
  match xs with
  | [a; b] => ok (a, b)
  | _ => throw BuiltinValueError
  end.

(** [recv.update(other)]: a mapping, or an iterable of pairs. *)
Definition update (recv other : value) : res value :=
  match recv with
  | VDict d =>
      match other with
      | VDict more => ok (VDict (merge d more))
      | _ =>
          xs <-? iter other ;;
          d' <-? fold_left
                   (fun acc x =>
                      d0 <-? acc ;;
                      '(k, v) <-? unpack2 x ;;
                      if hashable k then ok (set_item k v d0) else throw TypeError)
                   xs (ok d) ;;
          ok (VDict d')
      end
  | _ => throw AttributeError
  end.

(** [int(v)] *)
Definition int (v : value) : res Z :=
  match v with
  | VInt n => ok n
  | VBool b => ok (if b then 1 else 0)%Z
  | VStr s =>
      match int_of_string s with
      | Some n => ok n
      | None => throw BuiltinValueError
      end
  | _ => throw TypeError
  end.

(** [s in v] for a string [s] *)
Definition str_in (s : string) (v : value) : res bool :=
  match v with
  | VStr t => ok (contains s t)
  | VList xs => ok (existsb (fun x => eq_str x s) xs)
  | VDict d => ok (existsb (fun kv => eq_str (fst kv) s) d)
  | _ => throw TypeError
  end.

(** A string method on a receiver of any type. *)
Definition as_str (v : value) : res string :=
  match v with
  | VStr s => ok s
  | _ => throw AttributeError
  end.

(** [v[k1][k2]...], [None] where a key is missing. *)
Fixpoint at_path (p : list string) (v : value) : option value :=
  match p with
  | [] => Some v
  | k :: p' =>
      match v with
      | VDict d =>
          match lookup k d with
          | Some v' => at_path p' v'
          | None => None
          end
      | _ => None
      end
  end.

(** [xs[i]] *)
Definition index {A} (xs : list A) (i : nat) : res A :=
  match nth_error xs i with
  | Some x => ok x
  | None => throw IndexError
  end.

End Py.

(* ================================================================== *)
(** * What the adaptor reads from the parsed template *)
(* ================================================================== *)

Module Tosca.
Import Py.

(** An operation of an interface of a node: the interface's type name, the
    operation's name, its inputs ([None] when the template gives none). *)
Record Operation : Type := {
  op_type : string;
  op_name : string;
  op_inputs : value
}.

(** A node template.  [properties] maps a property name to its resolved
    value; [related_nodes] holds the names of the related node templates;
    [requirements] and [entity_tpl] are the raw template data. *)
Record NodeTemplate : Type := {
  name : string;
  type : string;
  interfaces : list Operation;
  properties : dict;
  entity_tpl : value;
  requirements : list value;
  related_nodes : list string
}.

Record Repository : Type := {
  repo_name : string;
  reposit : value
}.

Record ToscaTemplate : Type := {
  nodetemplates : list NodeTemplate;
  repositories : list Repository
}.

Definition get_property_value (node : NodeTemplate) (k : string) : value :=
  dget (properties node) k VNone.

End Tosca.

(* ================================================================== *)
(** * The adaptor *)
(* ================================================================== *)

Module Kube.
Import Py Tosca.
Local Open Scope res_scope.

Definition DOCKER_CONTAINER := "tosca.nodes.MiCADO.Container.Application.Docker".
Definition CONTAINER_VOLUME := "tosca.nodes.MiCADO.Container.Volume".
Definition VOLUME_ATTACHMENT := "tosca.relationships.AttachesTo".
Definition KUBERNETES_INTERFACE := "Kubernetes".

Definition SUPPORTED_WORKLOADS : list string :=
  ["Pod"; "Job"; "Deployment"; "StatefulSet"; "DaemonSet"].

Definition SWARM_PROPERTIES : list string := ["expose"].

Definition POD_SPEC_FIELDS : list string :=
  [ "activeDeadlineSeconds"; "affinity"; "automountServiceAccountToken";
    "dnsConfig"; "dnsPolicy"; "enableServiceLinks"; "hostAliases"; "hostIPC";
    "hostNetwork"; "hostPID"; "hostname"; "imagePullSecrets"; "initContainers";
    "nodeName"; "nodeSelector"; "priority"; "priorityClassName";
    "readinessGates"; "restartPolicy"; "runtimeClassName"; "schedulerName";
    "securityContext"; "serviceAccount"; "serviceAccountName";
    "shareProcessNamespace"; "subdomain"; "terminationGracePeriodSeconds";
    "tolerations"; "volumes" ].

(** ** The adaptor object, the logger, and the monad over them *)

Inductive level : Type := DEBUG | INFO | WARNING | ERROR.

(** The fields of the adaptor that translation touches, the records the
    module's logger has received, and the file handed to the YAML dumper. *)
Record KubernetesAdaptor : Type := {
  short_id : string;
  status : string;
  manifests : list value;
  services : list value;
  volumes : dict;
  records : list (level * string);
  dumped : option (string * list value)
}.

Definition manifest_path (self : KubernetesAdaptor) : string :=
  short_id self ++ ".yaml".

(** A computation runs on the adaptor and ends in a value or an exception;
    what it did to the adaptor before raising stays done. *)
Definition M (A : Type) : Type := KubernetesAdaptor -> res A * KubernetesAdaptor.

Definition ret {A} (a : A) : M A := fun self => (ok a, self).

Definition bind {A B} (m : M A) (k : A -> M B) : M B :=
  fun self =>
    match m self with
    | (inl e, self') => (inl e, self')
    | (inr a, self') => k a self'
    end.

Definition raise {A} (e : exception) : M A := fun self => (throw e, self).

Definition lift {A} (r : res A) : M A := fun self => (r, self).

Definition this : M KubernetesAdaptor := fun self => (ok self, self).

Declare Scope adaptor_scope.
Delimit Scope adaptor_scope with M.
Notation "x <- m ;; k" := (bind m (fun x => k))
  (at level 61, m at next level, right associativity) : adaptor_scope.
Notation "' p <- m ;; k" := (bind m (fun x => let 'p := x in k))
  (at level 61, p pattern, m at next level, right associativity) : adaptor_scope.
Notation "x <~ r ;; k" := (bind (lift r) (fun x => k))
  (at level 61, r at next level, right associativity) : adaptor_scope.
Notation "' p <~ r ;; k" := (bind (lift r) (fun x => let 'p := x in k))
  (at level 61, p pattern, r at next level, right associativity) : adaptor_scope.
Local Open Scope adaptor_scope.

Definition log (lvl : level) (msg : string) : M unit :=
  fun self =>
    (ok tt,
     {| short_id := short_id self; status := status self;
        manifests := manifests self; services := services self;
        volumes := volumes self;
        records := (records self ++ [(lvl, msg)])%list;
        dumped := dumped self |}).

Definition set_status (s : string) : M unit :=
  fun self =>
    (ok tt,
     {| short_id := short_id self; status := s;
        manifests := manifests self; services := services self;
        volumes := volumes self; records := records self;
        dumped := dumped self |}).

(** [self.manifests.append(m)] *)
Definition append_manifest (m : value) : M unit :=
  fun self =>
    (ok tt,
     {| short_id := short_id self; status := status self;
        manifests := (manifests self ++ [m])%list; services := services self;
        volumes := volumes self; records := records self;
        dumped := dumped self |}).

(** [self.services.append(s)] *)
Definition append_service (s : value) : M unit :=
  fun self =>
    (ok tt,
     {| short_id := short_id self; status := status self;
        manifests := manifests self; services := (services self ++ [s])%list;
        volumes := volumes self; records := records self;
        dumped := dumped self |}).

(** [self.volumes.setdefault(k, v)] *)
Definition bind_volume (k : string) (v : value) : M unit :=
  fun self =>
    (ok tt,
     {| short_id := short_id self; status := status self;
        manifests := manifests self; services := services self;
        volumes := snd (dsetdefault (volumes self) k v);
        records := records self; dumped := dumped self |}).

(** [utils.dump_list_yaml(self.manifests, self.manifest_path)] *)
Definition dump_list_yaml : M unit :=
  fun self =>
    (ok tt,
     {| short_id := short_id self; status := status self;
        manifests := manifests self; services := services self;
        volumes := volumes self; records := records self;
        dumped := Some (manifest_path self, manifests self) |}).

(** A [for] loop that carries the variables its body assigns. *)
Fixpoint for_each {A S} (xs : list A) (body : A -> S -> M S) (s : S) : M S :=
  match xs with
  | [] => ret s
  | x :: xs' => s' <- body x s ;; for_each xs' body s'
  end.

(** The write-back of an object mutated through a reference held in
    [recv[k]]: the dictionary sees the change. *)
Definition store (recv k v : value) : value :=
  match recv with
  | VDict d => VDict (set_item k v d)
  | _ => recv
  end.

(** ** Module-level functions *)

Definition api_versions : list (string * string) :=
  [ ("DaemonSet", "apps/v1"); ("Deployment", "apps/v1"); ("Job", "batch/v1");
    ("Pod", "v1"); ("ReplicaSet", "apps/v1"); ("StatefulSet", "apps/v1");
    ("Ingress", "extensions/v1beta1"); ("Service", "v1");
    ("PersistentVolume", "v1"); ("PersistentVolumeClaim", "v1");
    ("Volume", "v1"); ("Namespace", "v1") ].

(** Return the apiVersion according to kind *)
Definition _get_api (kind : value) : M value :=
  k <~ as_str kind ;;
  match find (fun ra => lower k =? lower (fst ra)) api_versions with
  | Some (_, api) => ret (VStr api)
  | None =>
      _ <- log WARNING ("Unknown kind: " ++ k ++ ". Not supported...") ;;
      ret (VStr "unknown")
  end.

(** Return port spec; [None] when the entry is given up. *)
Definition _build_port_spec (port : value) (node_name : string) : M value :=
  (* Check if we have a port *)
  target <~ (d <-? get port "target" VNone ;; get port "targetPort" d) ;;
  publish <~ (d <-? get port "published" target ;;
              p <-? get port "port" d ;;
              int p) ;;
  if negb (truthy (VInt publish)) && negb (truthy target) then
    _ <- log WARNING ("No port in ports of " ++ node_name) ;;
    ret VNone
  else
  target <~ match target with
            | VStr s => if isdigit s then (n <-? int target ;; ok (VInt n)) else ok target
            | _ => ok target
            end ;;
  (* Check for a clusterIP *)
  cluster_ip <~ get port "clusterIP" VNone ;;
  cluster_ip <-
    (if truthy cluster_ip then
       s <~ as_str cluster_ip ;;
       let ip_split := split_on "." s in
       ip0 <~ index ip_split 0 ;;
       (* Check if the ip is within range (kind of) *)
       within <~ (if ip0 =? "10"
                  then (ip1 <-? index ip_split 1 ;;
                        n <-? int (VStr ip1) ;;
                        ok ((96 <=? n) && (n <=? 111))%Z)
                  else ok false) ;;
       if within then ret cluster_ip
       else if ip0 =? "None" then ret (VStr "None")
       else
         _ <- log WARNING
                "ClusterIP out of range 10.96.x.x - 10.111.x.x Kubernetes will assign one" ;;
         ret cluster_ip
     else ret cluster_ip) ;;
  (* Assign protocol, name, type, metadata *)
  protocol <~ (p <-? get port "protocol" "TCP" ;; s <-? as_str p ;; ok (upper s)) ;;
  name <~ get port "name" (VStr (str target ++ "-" ++ lower protocol)) ;;
  port_type <~ (d <-? get port "mode" VNone ;; get port "type" d) ;;
  metadata <~ get port "metadata" VNone ;;
  (* Assign node port if valid *)
  node_port <~ get port "nodePort" VNone ;;
  '(port_type, node_port) <-
    (if truthy node_port then
       let port_type := py_or port_type "NodePort" in
       n <~ int node_port ;;
       if ((30000 >? n) && (n >? 32767))%Z then
         _ <- log WARNING
                "nodePort out of range 30000-32767... Kubernetes will assign one" ;;
         ret (port_type, VNone)
       else ret (port_type, node_port)
     else ret (port_type, node_port)) ;;
  (* Determine type if Swarm-style or empty *)
  let port_type :=
    if eq_str port_type "host" then VStr "NodePort"
    else if eq_str port_type "ingress" || negb (truthy port_type) then VStr "ClusterIP"
    else port_type in
  (* Build a port spec *)
  let port_spec :=
    [ "name" =: name; "targetPort" =: target; "port" =: VInt publish;
      "protocol" =: VStr protocol; "type" =: port_type; "nodePort" =: node_port;
      "metadata" =: metadata; "clusterIP" =: cluster_ip ] in
  ret (VDict (keep_truthy port_spec)).

(** Return the info for creating a service: the port specs, and the
    container after its [ports] were taken out (container ports put back). *)
Definition _get_service_info (container : dict) (node_name : string)
  : M (list value * dict) :=
  let port_list : list value := [] in
  let (ports, container) := dpop container "ports" VNone in
  if truthy ports then
    ports <~ iter ports ;;
    '(container, port_list) <-
      for_each ports
        (fun port '(container, port_list) =>
           container_port <~ get port "containerPort" VNone ;;
           if truthy container_port then
             let (l, container) := dsetdefault container "ports" (VList []) in
             l <~ append l port ;;
             ret (set_item "ports" l container, port_list)
           else
             port_spec <- _build_port_spec port node_name ;;
             if truthy port_spec
             then ret (container, (port_list ++ [port_spec])%list)
             else ret (container, port_list))
        (container, port_list) ;;
    ret (port_list, container)
  else ret (port_list, container).

(** Return the full path to the Docker container image *)
Definition _get_image (node : value) (repositories : list Repository) : M value :=
  details <~ (a <-? get node "artifacts" (VDict []) ;; get a "image" (VDict [])) ;;
  image <~ get details "file" VNone ;;
  repo <~ get details "repository" VNone ;;
  if negb (truthy image) || negb (truthy repo)
     || match repositories with [] => true | _ => false end
  then
    _ <- log WARNING
           "Missing top-level repository or file/repository in artifact - no image!" ;;
    ret (VStr "")
  else
  r <~ as_str repo ;;
  if negb (remove_char "_" (remove_char "-" (remove_char " " (lower r))) =? "dockerhub")
  then
    let path := map reposit (filter (fun x => repo_name x =? r) repositories) in
    match path with
    | p0 :: _ =>
        p <~ as_str p0 ;;
        match image with
        | VStr i => ret (VStr (join "/" [strip_char "/" p; i]))
        | _ => raise TypeError
        end
    | [] => ret image
    end
  else ret image.

(** Separate workload specific data from the container spec: the data,
    and the container without them. *)
Definition _separate_data (key_names : list string) (container : value)
  : res (dict * value) :=
  fold_left
    (fun acc (x : string) =>
       '(data, container) <-? acc ;;
       match container with
       | VDict d =>
           match lookup x d with
           | Some v => ok (set_item x v data, VDict (remove x d))
           | None => ok (data, container)          (* except KeyError: pass *)
           end
       | VList _ => throw TypeError
       | _ => throw AttributeError
       end)
    key_names (ok ([], container)).

(** Return container spec: the container, and the [properties] and
    [inputs] dictionaries as the call leaves them. *)
Definition _get_container (node : NodeTemplate) (properties : dict)
    (repositories : list Repository) (inputs : value)
  : M (dict * dict * value) :=
  (* Get image *)
  image <- _get_image (entity_tpl node) repositories ;;
  if negb (truthy image) then
    raise (ValueError ("No image specified for " ++ Tosca.name node ++ "!"))
  else
  let properties := snd (dsetdefault properties "image" image) in
  (* Remove any known swarm-only keys *)
  properties <-
    for_each SWARM_PROPERTIES
      (fun key properties =>
         let (v, properties) := dpop properties (VStr key) VNone in
         if truthy v then
           _ <- log WARNING ("Removed Swarm-option " ++ key) ;;
           ret properties
         else ret properties)
      properties ;;
  (* Translate common properties *)
  let (v, properties) := dpop properties "container_name" (VStr (Tosca.name node)) in
  let properties := snd (dsetdefault properties "name" v) in
  let (v, properties) := dpop properties "entrypoint" "" in
  command <~ as_str v ;;
  let properties := snd (dsetdefault properties "command" (VList (map VStr (split_ws command)))) in
  let (v, properties) := dpop properties "cmd" "" in
  args <~ as_str v ;;
  let properties := snd (dsetdefault properties "args" (VList (map VStr (split_ws args)))) in
  let (docker_env, properties) := dpop properties "environment" (VDict []) in
  docker_env <~ iter docker_env ;;
  env <-
    for_each docker_env
      (fun item env =>
         '(key, value) <~ unpack2 item ;;
         ret (env ++ [VDict ["name" =: key; "value" =: value]])%list)
      [] ;;
  let properties := snd (dsetdefault properties "env" (VList env)) in
  (* Translate other properties *)
  let (docker_labels, properties) := dpop properties "labels" VNone in
  inputs <~ (if truthy docker_labels then
               '(m, inputs) <-? setdefault inputs "metadata" (VDict []) ;;
               '(l, m) <-? setdefault m "labels" (VDict []) ;;
               l <-? update l docker_labels ;;
               ok (store inputs "metadata" (store m "labels" l))
             else ok inputs) ;;
  let (docker_grace, properties) := dpop properties "stop_grace_period" VNone in
  inputs <~ (if truthy docker_grace then
               '(_, inputs) <-? setdefault inputs "terminationGracePeriodSeconds" docker_grace ;;
               ok inputs
             else ok inputs) ;;
  let (docker_priv, properties) := dpop properties "privileged" VNone in
  properties <~ (if truthy docker_priv then
                   let (sc, properties) := dsetdefault properties "securityContext" (VDict []) in
                   '(_, sc) <-? setdefault sc "privileged" docker_priv ;;
                   ok (set_item "securityContext" sc properties)
                 else ok properties) ;;
  let (docker_pid, properties) := dpop properties "pid" VNone in
  inputs <~ (if eq_str docker_pid "host" then
               '(_, inputs) <-? setdefault inputs "hostPID" (VBool true) ;;
               ok inputs
             else ok inputs) ;;
  let (docker_netmode, properties) := dpop properties "network_mode" VNone in
  inputs <~ (if eq_str docker_netmode "host" then
               '(_, inputs) <-? setdefault inputs "hostNetwork" (VBool true) ;;
               ok inputs
             else ok inputs) ;;
  let (v, properties) := dpop properties "stdin_open" VNone in
  let properties := snd (dsetdefault properties "stdin" v) in
  let (v, properties) := dpop properties "healthcheck" VNone in
  let properties := snd (dsetdefault properties "livenessProbe" v) in
  ret (keep_truthy properties, properties, inputs).

(** Build service and return a manifest (and the service's record for the
    adaptor's outputs), or a pair of [None]s. *)
Definition _build_service (service_name service resource : value)
    (node_name : string) (inputs : value) : M (value * value) :=
  (* Check for ports *)
  ports <~ get service "ports" VNone ;;
  if negb (truthy ports) then
    _ <- log WARNING ("No ports in service " ++ str service_name ++ ". Will not be created") ;;
    ret (VNone, VNone)
  else
  (* Get resource metadata *)
  metadata <~ get resource "metadata" (VDict []) ;;
  resource_namespace <~ get metadata "namespace" VNone ;;
  resource_labels <~ get metadata "labels" VNone ;;
  (* Get container metadata *)
  metadata <~ get inputs "metadata" (VDict []) ;;
  pod_labels <~ get metadata "labels" (VDict ["run" =: VStr node_name]) ;;
  (* Set service metadata *)
  metadata <~ get service "metadata" (VDict []) ;;
  '(_, metadata) <~ setdefault metadata "name" service_name ;;
  '(_, metadata) <~ setdefault metadata "namespace" resource_namespace ;;
  '(_, metadata) <~ setdefault metadata "labels" resource_labels ;;
  (* Set service info for outputs *)
  ns <~ get metadata "namespace" VNone ;;
  let namespace := py_or ns "default" in
  let service_info :=
    VDict ["node" =: VStr node_name; "name" =: service_name; "namespace" =: namespace] in
  (* Cleanup metadata *)
  metadata <~ items_truthy metadata ;;
  (* Set type, clusterIP, ports *)
  port_type <~ get service "type" VNone ;;
  cluster_ip <~ get service "clusterIP" VNone ;;
  spec_ports <~ iter ports ;;
  (* Set spec *)
  let spec := ["ports" =: VList spec_ports; "selector" =: pod_labels] in
  let spec := if negb (eq_str port_type "ClusterIP")
              then snd (dsetdefault spec "type" port_type) else spec in
  let spec := if truthy cluster_ip
              then snd (dsetdefault spec "clusterIP" cluster_ip) else spec in
  let manifest :=
    VDict [ "apiVersion" =: VStr "v1"; "kind" =: VStr "Service";
            "metadata" =: metadata; "spec" =: VDict spec ] in
  ret (manifest, service_info).

(** ** Methods of the adaptor *)

(** Build and return the basic data for the workload: the resource, and
    the [inputs] dictionary after the keys were popped from it. *)
Definition _get_resource (name inputs kind : value) : M (value * value) :=
  (* kind and apiVersion *)
  '(kind, inputs) <~ pop inputs "kind" kind ;;
  api <- _get_api kind ;;
  '(api_version, inputs) <~ pop inputs "apiVersion" api ;;
  (* metadata *)
  '(metadata, inputs) <~ pop inputs "metadata" (VDict []) ;;
  '(n, inputs) <~ pop inputs "name" name ;;
  '(_, metadata) <~ setdefault metadata "name" n ;;
  '(l, inputs) <~ pop inputs "labels" (VDict []) ;;
  '(_, metadata) <~ setdefault metadata "labels" l ;;
  '(labels, metadata) <~ setdefault metadata "labels" (VDict []) ;;
  self <- this ;;
  '(_, labels) <~ setdefault labels "app" (VStr (short_id self)) ;;
  let metadata := store metadata "labels" labels in
  let resource :=
    VDict ["apiVersion" =: api_version; "kind" =: kind; "metadata" =: metadata] in
  ret (resource, inputs).

(** Create a PV; returns its labels. *)
Definition _create_persistent_volume (name inputs size : value) : M value :=
  name <~ (m <-? get inputs "metadata" (VDict []) ;;
           d <-? get inputs "name" VNone ;;
           n <-? get m "name" d ;;
           ok (py_or n (VStr (str name ++ "-pv")))) ;;
  inputs <~ ('(m, inputs) <-? setdefault inputs "metadata" (VDict []) ;;
             '(l, m) <-? setdefault m "labels" (VDict []) ;;
             '(_, l) <-? setdefault l "volume" name ;;
             ok (store inputs "metadata" (store m "labels" l))) ;;
  '(manifest, inputs) <- _get_resource name inputs "PersistentVolume" ;;
  (* the spec of the manifest is the inputs dictionary itself *)
  '(spec, manifest) <~ setdefault manifest "spec" inputs ;;
  labels <~ (m <-? get manifest "metadata" (VDict []) ;; get m "labels" (VDict [])) ;;
  spec <~ ('(c, spec) <-? setdefault spec "capacity" (VDict []) ;;
           '(_, c) <-? setdefault c "storage" size ;;
           ok (store spec "capacity" c)) ;;
  spec <~ ('(a, spec) <-? setdefault spec "accessModes" (VList []) ;;
           a <-? append a "ReadWriteMany" ;;
           ok (store spec "accessModes" a)) ;;
  '(_, spec) <~ setdefault spec "persistentVolumeReclaimPolicy" "Retain" ;;
  _ <- append_manifest (store manifest "spec" spec) ;;
  ret labels.

(** Create a PVC; returns its name. *)
Definition _create_persistent_volume_claim (name inputs labels size : value)
  : M value :=
  name <~ (m <-? get inputs "metadata" (VDict []) ;;
           d <-? get inputs "name" VNone ;;
           n <-? get m "name" d ;;
           ok (py_or n (VStr (str name ++ "-pvc")))) ;;
  inputs <~ ('(m, inputs) <-? setdefault inputs "metadata" (VDict []) ;;
             '(l, m) <-? setdefault m "labels" (VDict []) ;;
             '(_, l) <-? setdefault l "volume" name ;;
             ok (store inputs "metadata" (store m "labels" l))) ;;
  '(manifest, inputs) <- _get_resource name inputs "PersistentVolumeClaim" ;;
  '(spec, manifest) <~ setdefault manifest "spec" inputs ;;
  spec <~ ('(r, spec) <-? setdefault spec "resources" (VDict []) ;;
           '(q, r) <-? setdefault r "requests" (VDict []) ;;
           '(_, q) <-? setdefault q "storage" size ;;
           ok (store spec "resources" (store r "requests" q))) ;;
  spec <~ ('(a, spec) <-? setdefault spec "accessModes" (VList []) ;;
           a <-? append a "ReadWriteMany" ;;
           ok (store spec "accessModes" a)) ;;
  spec <~ ('(sel, spec) <-? setdefault spec "selector" (VDict []) ;;
           '(_, sel) <-? setdefault sel "matchLabels" labels ;;
           ok (store spec "selector" sel)) ;;
  _ <- append_manifest (store manifest "spec" spec) ;;
  ret name.

(** Return the volume spec for the workload: pod volumes, container mounts. *)
Definition _get_volumes (container_node : NodeTemplate)
  : M (list value * list value) :=
  let related := related_nodes container_node in
  let requirements := Tosca.requirements container_node in
  for_each related
    (fun (node_name : string) '(volumes, volume_mounts) =>
       self <- this ;;
       let pvc_name := dget (Kube.volumes self) node_name VNone in
       if truthy pvc_name then
         let pvc := VDict ["claimName" =: pvc_name] in
         let volume_spec :=
           VDict ["name" =: VStr node_name; "persistentVolumeClaim" =: pvc] in
         volume_mount_list <-
           for_each requirements
             (fun requirement volume_mount_list =>
                volume <~ get requirement "volume" (VDict []) ;;
                relationship <~ (r <-? get volume "relationship" (VDict []) ;;
                                 get r "type" VNone) ;;
                path <~ (r <-? get volume "relationship" (VDict []) ;;
                         q <-? get r "properties" (VDict []) ;;
                         get q "location" VNone) ;;
                if truthy path && eq_str relationship VOLUME_ATTACHMENT then
                  n <~ get volume "node" VNone ;;
                  if eq_str n node_name then
                    let volume_mount_spec :=
                      VDict ["name" =: VStr node_name; "mountPath" =: path] in
                    ret (volume_mount_list ++ [volume_mount_spec])%list
                  else ret volume_mount_list
                else ret volume_mount_list)
             [] ;;
         match volume_mount_list with
         | [] => ret (volumes, volume_mounts)
         | _ => ret ((volumes ++ [volume_spec])%list,
                     (volume_mounts ++ volume_mount_list)%list)
         end
       else ret (volumes, volume_mounts))
    ([], []).

(** The [for ... break] that gives one service the bare node name: the
    first of the suffixed entries, in the order of [service_types]. *)
Fixpoint rename_primary (node_name : string) (service_types : list string)
    (services_to_build : dict) : dict :=
  match service_types with
  | [] => services_to_build
  | s_type :: rest =>
      let (entry, services_to_build) :=
        dpop services_to_build (VStr (node_name ++ "-" ++ s_type)) VNone in
      if truthy entry
      then snd (dsetdefault services_to_build node_name entry)
      else rename_primary node_name rest services_to_build
  end.

(** Build a service based on the provided port spec and template; returns
    the container, whose service ports were taken out of it. *)
Definition _get_service_manifests (node : NodeTemplate) (container : dict)
    (resource inputs : value) : M dict :=
  (* Find ports/clusterIP for service creation *)
  '(ports, container) <- _get_service_info container (Tosca.name node) ;;
  let service_types := ["clusterip"; "nodeport"; "LoadBalancer"; "ExternalIP"] in
  services_to_build <-
    for_each ports
      (fun port services_to_build =>
         '(metadata, port) <~ pop port "metadata" (VDict []) ;;
         service_name <~ get metadata "name" VNone ;;
         '(port_type, port) <~ pop port "type" VNone ;;
         '(cluster_ip, port) <~ pop port "clusterIP" VNone ;;
         service_name <~ (if negb (truthy service_name)
                          then (t <-? as_str port_type ;;
                                ok (VStr (Tosca.name node ++ "-" ++ lower t)))
                          else ok service_name) ;;
         if negb (hashable service_name) then raise TypeError else
         let (service_entry, services_to_build) :=
           dsetdefault services_to_build service_name (VDict []) in
         '(_, service_entry) <~ setdefault service_entry "type" port_type ;;
         '(_, service_entry) <~ setdefault service_entry "metadata" metadata ;;
         '(_, service_entry) <~ setdefault service_entry "clusterIP" cluster_ip ;;
         '(l, service_entry) <~ setdefault service_entry "ports" (VList []) ;;
         l <~ append l port ;;
         ret (set_item service_name (store service_entry "ports" l) services_to_build))
      [] ;;
  let services_to_build :=
    match lookup (Tosca.name node) services_to_build with
    | None => rename_primary (Tosca.name node) service_types services_to_build
    | Some _ => services_to_build
    end in
  _ <- for_each services_to_build
         (fun '(name, service) (_ : unit) =>
            '(manifest, service_info) <-
              _build_service name service resource (Tosca.name node) inputs ;;
            if negb (truthy manifest) then ret tt
            else
              _ <- append_manifest manifest ;;
              append_service service_info)
         tt ;;
  ret container.

(** Create the manifest from the given node *)
Definition _create_manifests (node : NodeTemplate) (interface : dict)
    (repositories : list Repository) : M unit :=
  let workload_inputs := dget interface "create" (VDict []) in
  let pod_inputs := dget interface "configure" (VDict []) in
  let properties := Tosca.properties node in
  '(resource, workload_inputs) <-
    _get_resource (VStr (Tosca.name node)) workload_inputs "Deployment" ;;
  kind <~ get resource "kind" VNone ;;
  if negb (existsb (eq_str kind) SUPPORTED_WORKLOADS) then
    log WARNING
      ("Kubernetes *kind: " ++ str kind ++ "* is unsupported - no manifest created")
  else
  resource_metadata <~ get resource "metadata" (VDict []) ;;
  resource_namespace <~ get resource_metadata "namespace" VNone ;;
  (* Get container spec *)
  '(container, properties, pod_inputs) <-
    _get_container node properties repositories pod_inputs ;;
  (* Get service spec *)
  container <- _get_service_manifests node container resource pod_inputs ;;
  (* Get and set volume info *)
  '(volumes, volume_mounts) <- _get_volumes node ;;
  pod_inputs <~ match volumes with
                | [] => ok pod_inputs
                | _ =>
                    '(vol_list, pod_inputs) <-? setdefault pod_inputs "volumes" (VList []) ;;
                    vol_list <-? iadd_list vol_list volumes ;;
                    ok (store pod_inputs "volumes" vol_list)
                end ;;
  (* The mounts go to [properties], not to the container built from it.
     The container is a dictionary of its own that holds the truthy values
     of [properties]: it has a [volumeMounts] entry only if [properties]
     had a truthy one when the container was built, and then both hold the
     same list object, which [+=] extends in place. *)
  '(properties, container) <~
    match volume_mounts with
    | [] => ok (properties, container)
    | _ =>
        let (vol_list, properties) := dsetdefault properties "volumeMounts" (VList []) in
        vol_list <-? iadd_list vol_list volume_mounts ;;
        ok (set_item "volumeMounts" vol_list properties,
            match lookup "volumeMounts" container with
            | Some _ => set_item "volumeMounts" vol_list container
            | None => container
            end)
    end ;;
  (* Get pod metadata from container or resource *)
  '(pod_metadata, pod_inputs) <~ pop pod_inputs "metadata" (VDict []) ;;
  '(_, pod_metadata) <~
    setdefault pod_metadata "labels" (VDict ["run" =: VStr (Tosca.name node)]) ;;
  pod_labels <~ get pod_metadata "labels" VNone ;;
  '(_, pod_metadata) <~ setdefault pod_metadata "namespace" resource_namespace ;;
  (* Separate data for pod.spec *)
  '(pod_data, workload_inputs) <~ _separate_data POD_SPEC_FIELDS workload_inputs ;;
  pod_inputs <~ update pod_inputs (VDict pod_data) ;;
  (* Cleanup metadata and spec inputs *)
  pod_metadata <~ items_truthy pod_metadata ;;
  pod_inputs <~ items_truthy pod_inputs ;;
  (* Set pod spec and selector *)
  pod_fields <~ splat pod_inputs ;;
  let pod_spec := VDict (merge ["containers" =: VList [VDict container]] pod_fields) in
  let selector := VDict ["matchLabels" =: pod_labels] in
  (* Set template & pod spec *)
  workload_fields <~ splat workload_inputs ;;
  let spec :=
    if eq_str kind "Pod" then
      VDict (merge ["containers" =: VList [VDict container]] workload_fields)
    else if eq_str kind "Job" then
      let template := VDict ["spec" =: pod_spec] in
      VDict (merge ["template" =: template] workload_fields)
    else
      let template := VDict ["metadata" =: pod_metadata; "spec" =: pod_spec] in
      VDict (merge ["selector" =: selector; "template" =: template] workload_fields) in
  (* Build manifests *)
  '(_, resource) <~ setdefault resource "spec" spec ;;
  append_manifest resource.

(** [sorted(nodes, key=lambda x: x.type, reverse=True)]: descending and
    stable. *)
Fixpoint insert_by_type (x : NodeTemplate) (l : list NodeTemplate)
  : list NodeTemplate :=
  match l with
  | [] => [x]
  | y :: l' =>
      if (Tosca.type y <=? Tosca.type x)%string then x :: l
      else y :: insert_by_type x l'
  end.

Definition sorted_by_type (nodes : list NodeTemplate) : list NodeTemplate :=
  fold_right insert_by_type [] nodes.

(** The operations the node declares under the Kubernetes interface, as
    the dictionary from operation name to inputs. *)
Definition kube_interface (node : NodeTemplate) : dict :=
  fold_left
    (fun interface operation =>
       set_item (VStr (op_name operation)) (py_or (op_inputs operation) (VDict []))
         interface)
    (filter (fun x => contains KUBERNETES_INTERFACE (op_type x)) (interfaces node))
    [].

(** The body of the loop of [translate], for one node. *)
Definition translate_node (repositories : list Repository) (node : NodeTemplate)
  : M unit :=
  let interface := kube_interface node in
  if contains DOCKER_CONTAINER (Tosca.type node) && truthy (VDict interface) then
    if contains "_" (Tosca.name node) then
      let msg := "ERROR: Use of underscores in " ++ Tosca.name node
                 ++ " workload name prohibited" in
      _ <- log ERROR msg ;;
      raise (ValueError msg)
    else _create_manifests node interface repositories
  else if contains CONTAINER_VOLUME (Tosca.type node) && truthy (VDict interface) then
    let name := py_or (get_property_value node "name") (VStr (Tosca.name node)) in
    underscore <~ str_in "_" name ;;
    if underscore then
      let msg := "ERROR: Use of underscores in " ++ str name
                 ++ " volume name prohibited" in
      _ <- log ERROR msg ;;
      raise (ValueError msg)
    else
    let size := py_or (get_property_value node "size") "1Gi" in
    let pv_inputs := dget interface "create" (VDict []) in
    labels <- _create_persistent_volume name pv_inputs size ;;
    let pvc_inputs := dget interface "configure" (VDict []) in
    pvc_name <- _create_persistent_volume_claim name pvc_inputs labels size ;;
    bind_volume (Tosca.name node) pvc_name
  else ret tt.

(** Translate the relevant sections of the ADT into a Kubernetes Manifest *)
Definition translate (tpl : ToscaTemplate) : M unit :=
  _ <- log INFO "Translating into Kubernetes Manifests" ;;
  _ <- set_status "Translating..." ;;
  let nodes := nodetemplates tpl in
  let repositories := Tosca.repositories tpl in
  _ <- for_each (sorted_by_type nodes)
         (fun node (_ : unit) => translate_node repositories node) tt ;;
  self <- this ;;
  match manifests self with
  | [] =>
      _ <- log INFO "No nodes to orchestrate with Kubernetes" ;;
      set_status "Skipped Translation"
  | _ =>
      _ <- dump_list_yaml ;;
      _ <- log INFO "Translation complete" ;;
      set_status "Translated"
  end.

(** The adaptor as [__init__] leaves it. *)
Definition init (application_id : string) : KubernetesAdaptor :=
  {| short_id := application_id; status := "Initialised";
     manifests := []; services := []; volumes := [];
     records := [(DEBUG, "Initialising Kubernetes Adaptor class...");
                 (INFO, "Kubernetes Adaptor is ready.")];
     dumped := None |}.

End Kube.

(* ================================================================== *)
(** * The vocabulary of the properties *)
(* ================================================================== *)

Module Terms.
Import Py Tosca Kube.

(** The adaptor after one more record of the logger. *)
Definition logging (lvl : level) (msg : string) (self : KubernetesAdaptor)
  : KubernetesAdaptor := snd (log lvl msg self).

(** The adaptor when the loop of [translate] starts. *)
Definition started (self : KubernetesAdaptor) : KubernetesAdaptor :=
  snd (set_status "Translating..."
         (logging INFO "Translating into Kubernetes Manifests" self)).

(** The loop of [translate] over the nodes, in the order they are given. *)
Definition visit (repositories : list Repository) (nodes : list NodeTemplate)
  : M unit :=
  for_each nodes (fun node (_ : unit) => translate_node repositories node) tt.

(** A workload node: container-application type, and at least one
    operation under the Kubernetes interface. *)
Definition is_workload (node : NodeTemplate) : bool :=
  contains DOCKER_CONTAINER (Tosca.type node) && truthy (VDict (kube_interface node)).

(** A volume node: not a workload node, volume type, and at least one
    operation under the Kubernetes interface. *)
Definition is_volume (node : NodeTemplate) : bool :=
  negb (is_workload node)
  && (contains CONTAINER_VOLUME (Tosca.type node) && truthy (VDict (kube_interface node))).

(** The resolved name of a volume node: its [name] property, else the
    name of the node. *)
Definition volume_name (node : NodeTemplate) : value :=
  py_or (get_property_value node "name") (VStr (Tosca.name node)).

Definition workload_naming_error (name : string) : string :=
  "ERROR: Use of underscores in " ++ name ++ " workload name prohibited".

Definition volume_naming_error (name : value) : string :=
  "ERROR: Use of underscores in " ++ str name ++ " volume name prohibited".

(** The naming error a node calls for: a workload node whose name, or a
    volume node whose resolved name, contains an underscore. *)
Definition naming_violation (node : NodeTemplate) : option string :=
  if is_workload node then
    if contains "_" (Tosca.name node)
    then Some (workload_naming_error (Tosca.name node))
    else None
  else if is_volume node then
    match str_in "_" (volume_name node) with
    | inr true => Some (volume_naming_error (volume_name node))
    | _ => None
    end
  else None.

Definition missing_image_error (name : string) : string :=
  "No image specified for " ++ name ++ "!".

Definition unsupported_kind_warning (kind : value) : string :=
  "Kubernetes *kind: " ++ str kind ++ "* is unsupported - no manifest created".

(** A dictionary with a truthy [image] entry. *)
Definition has_image (d : dict) : Prop :=
  exists img, lookup "image" d = Some img /\ truthy img = true.

(** The labels the operator gives in the inputs of an operation: those
    under [metadata], else the [labels] input. *)
Definition operator_labels (inputs : value) : option value :=
  match at_path ["metadata"; "labels"] inputs with
  | Some l => Some l
  | None => at_path ["labels"] inputs
  end.

(** The [app] label of a resource built from the inputs: the operator's
    own when the operator's labels have one, else the application id. *)
Definition app_label (inputs : value) (application_id : string) : value :=
  match operator_labels inputs with
  | Some l =>
      match at_path ["app"] l with
      | Some a => a
      | None => VStr application_id
      end
  | None => VStr application_id
  end.

End Terms.

(* ================================================================== *)
(** * Topologies used by the scenarios *)
(* ================================================================== *)

Module Scenario.
Import Py Tosca Kube Terms.

Definition docker_hub : list Repository :=
  [ {| repo_name := "docker_hub"; reposit := VStr "https://hub.docker.com/" |} ].

(** artifacts: image: {file: nginx, repository: docker_hub} *)
Definition nginx_tpl : value :=
  VDict [ "artifacts" =:
          VDict [ "image" =: VDict ["file" =: VStr "nginx"; "repository" =: VStr "docker_hub"] ] ].

(** The Kubernetes interface with a [create] operation and the given inputs. *)
Definition create_with (inputs : value) : list Operation :=
  [ {| op_type := "Kubernetes"; op_name := "create"; op_inputs := inputs |} ].

(** A container node with the nginx image. *)
Definition container (name : string) (create_inputs : value) (properties : dict)
  : NodeTemplate :=
  {| name := name; type := DOCKER_CONTAINER;
     interfaces := create_with create_inputs;
     properties := properties; entity_tpl := nginx_tpl;
     requirements := []; related_nodes := [] |}.

Definition with_ports (ports : list value) : dict := ["ports" =: VList ports].

Definition topology (nodes : list NodeTemplate) : ToscaTemplate :=
  {| nodetemplates := nodes; repositories := docker_hub |}.

(** The round trip: node [web], one port entry, default kind. *)
Definition web : NodeTemplate :=
  container "web" VNone
    (with_ports [VDict ["port" =: VInt 8080; "targetPort" =: VInt 80]]).

Definition web_port : value :=
  VDict ["name" =: VStr "80-tcp"; "targetPort" =: VInt 80; "port" =: VInt 8080;
         "protocol" =: VStr "TCP"].

Definition web_service (app : string) : value :=
  VDict
    [ "apiVersion" =: VStr "v1"; "kind" =: VStr "Service";
      "metadata" =: VDict ["name" =: VStr "web"; "labels" =: VDict ["app" =: VStr app]];
      "spec" =: VDict ["ports" =: VList [web_port];
                       "selector" =: VDict ["run" =: VStr "web"]] ].

Definition web_deployment (app : string) : value :=
  VDict
    [ "apiVersion" =: VStr "apps/v1"; "kind" =: VStr "Deployment";
      "metadata" =: VDict ["name" =: VStr "web"; "labels" =: VDict ["app" =: VStr app]];
      "spec" =:
        VDict
          [ "selector" =: VDict ["matchLabels" =: VDict ["run" =: VStr "web"]];
            "template" =:
              VDict
                [ "metadata" =: VDict ["labels" =: VDict ["run" =: VStr "web"]];
                  "spec" =:
                    VDict ["containers" =:
                             VList [VDict ["image" =: VStr "nginx"; "name" =: VStr "web"]]] ] ] ].

Definition has_kind (k : string) (manifest : value) : bool :=
  match at_path ["kind"] manifest with
  | Some v => eq_str v k
  | None => false
  end.

(** Port entries with an explicit cluster IP. *)
Definition port_with_ip (ip : string) : value :=
  VDict ["port" =: VInt 80; "targetPort" =: VInt 80; "clusterIP" =: VStr ip].

(** A port entry with an explicit node port. *)
Definition port_with_node_port (n : Z) : value :=
  VDict ["port" =: VInt 80; "targetPort" =: VInt 80; "nodePort" =: VInt n].

(** A raw port entry with neither a publish nor a target value. *)
Definition port_without_numbers : value := VDict ["protocol" =: VStr "UDP"].

Definition cluster_ip_warning : string :=
  "ClusterIP out of range 10.96.x.x - 10.111.x.x Kubernetes will assign one".

(** The adaptor after one more record of the logger. *)
Definition logging (lvl : level) (msg : string) (self : KubernetesAdaptor)
  : KubernetesAdaptor := snd (log lvl msg self).

(** The adaptor after translating the nodes for application [app]. *)
Definition translated (nodes : list NodeTemplate) (app : string)
  : res unit * KubernetesAdaptor :=
  translate (topology nodes) (init app).

Definition nth_manifest (i : nat) (run : res unit * KubernetesAdaptor)
  : option value :=
  nth_error (manifests (snd run)) i.

(** A container node with an [environment] property. *)
Definition with_environment (env : value) : NodeTemplate :=
  container "web" VNone ["environment" =: env].

(** The volume scenario: volume node [data], no size, and the container
    [web] attached to it at /var/data. *)
Definition data : NodeTemplate :=
  {| name := "data"; type := CONTAINER_VOLUME;
     interfaces := create_with VNone;
     properties := []; entity_tpl := VDict [];
     requirements := []; related_nodes := [] |}.

Definition attachment (node location : string) : value :=
  VDict
    [ "volume" =:
      VDict [ "node" =: VStr node;
              "relationship" =:
                VDict [ "type" =: VStr "tosca.relationships.AttachesTo";
                        "properties" =: VDict ["location" =: VStr location] ] ] ].

Definition web_attached (requirements : list value) (properties : dict)
  : NodeTemplate :=
  {| name := "web"; type := DOCKER_CONTAINER;
     interfaces := create_with VNone;
     properties := properties; entity_tpl := nginx_tpl;
     requirements := requirements; related_nodes := ["data"] |}.

Definition data_pv (app : string) : value :=
  VDict
    [ "apiVersion" =: VStr "v1"; "kind" =: VStr "PersistentVolume";
      "metadata" =:
        VDict [ "labels" =: VDict ["volume" =: VStr "data-pv"; "app" =: VStr app];
                "name" =: VStr "data-pv" ];
      "spec" =:
        VDict [ "capacity" =: VDict ["storage" =: VStr "1Gi"];
                "accessModes" =: VList [VStr "ReadWriteMany"];
                "persistentVolumeReclaimPolicy" =: VStr "Retain" ] ].

Definition data_pvc (app : string) : value :=
  VDict
    [ "apiVersion" =: VStr "v1"; "kind" =: VStr "PersistentVolumeClaim";
      "metadata" =:
        VDict [ "labels" =: VDict ["volume" =: VStr "data-pvc"; "app" =: VStr app];
                "name" =: VStr "data-pvc" ];
      "spec" =:
        VDict [ "resources" =: VDict ["requests" =: VDict ["storage" =: VStr "1Gi"]];
                "accessModes" =: VList [VStr "ReadWriteMany"];
                "selector" =:
                  VDict ["matchLabels" =:
                           VDict ["volume" =: VStr "data-pv"; "app" =: VStr app]] ] ].

Definition data_volume_entry : value :=
  VDict [ "name" =: VStr "data";
          "persistentVolumeClaim" =: VDict ["claimName" =: VStr "data-pvc"] ].

Definition data_mount : value :=
  VDict ["name" =: VStr "data"; "mountPath" =: VStr "/var/data"].

(** A node whose create inputs give labels with an [app] entry. *)
Definition labelled_web : NodeTemplate :=
  container "web"
    (VDict ["metadata" =: VDict ["labels" =: VDict ["app" =: VStr "custom"]]]) [].

(** A node whose properties carry an empty [image] of their own. *)
Definition web_with_empty_image : NodeTemplate :=
  container "web" VNone ["image" =: VStr ""].

(** A node without artifacts, so without an image, of the given kind. *)
Definition web_without_image (create_inputs : value) : NodeTemplate :=
  {| name := "web"; type := DOCKER_CONTAINER;
     interfaces := create_with create_inputs;
     properties := []; entity_tpl := VDict [];
     requirements := []; related_nodes := [] |}.

Definition no_image_warning : string :=
  "Missing top-level repository or file/repository in artifact - no image!".

(** Nodes whose names carry an underscore, and the kind ReplicaSet. *)
Definition replica_set : value := VDict ["kind" =: VStr "ReplicaSet"].

Definition my_volume : NodeTemplate :=
  {| name := "data"; type := CONTAINER_VOLUME;
     interfaces := create_with VNone;
     properties := ["name" =: VStr "my_volume"]; entity_tpl := VDict [];
     requirements := []; related_nodes := [] |}.

End Scenario.

(* ================================================================== *)
(** * The manifest file *)
(* ================================================================== *)

Module Files.
Import Py Tosca Kube.
Local Open Scope adaptor_scope.

(** [os.remove(path)] on the files of the model, of which there is one, the
    file handed to the YAML dumper: [true] when the file was there and has
    been removed, [false] for the [OSError] of a file that is not there. *)
Definition os_remove (path : string) (self : KubernetesAdaptor)
  : bool * KubernetesAdaptor :=
  match dumped self with
  | Some (written, _) =>
      if written =? path then
        (true,
         {| short_id := short_id self; status := status self;
            manifests := manifests self; services := services self;
            volumes := volumes self; records := records self;
            dumped := None |})
      else (false, self)
  | None => (false, self)
  end.

(** Cleanup: the [OSError] of [os.remove] is caught and logged. *)
Definition cleanup : M unit :=
  _ <- log INFO "Cleaning-up..." ;;
  _ <- set_status "Cleaning-up..." ;;
  self <- this ;;
  _ <- (fun reached =>
          let (removed, reached') := os_remove (manifest_path self) reached in
          if removed then (ok tt, reached')
          else log WARNING "Could not remove manifest file" reached') ;;
  set_status "Clean!".

End Files.

(* ================================================================== *)
(** * Notions for the further properties *)
(* ================================================================== *)

Module Notions.
Import Py Tosca Kube Terms.

(** A computation keeps a relation between the adaptor before and after,
    however it ends. *)
Definition keeps (R : KubernetesAdaptor -> KubernetesAdaptor -> Prop)
    {A} (m : M A) : Prop :=
  forall self r self', m self = (r, self') -> R self self'.

(** The adaptor after a computation that did nothing but log. *)
Definition only_logged (self self' : KubernetesAdaptor) : Prop :=
  short_id self' = short_id self /\
  status self' = status self /\
  manifests self' = manifests self /\
  services self' = services self /\
  volumes self' = volumes self /\
  dumped self' = dumped self /\
  exists added, records self' = (records self ++ added)%list.

(** The adaptor after a computation that added to it: manifests, services
    and log records are appended, volume bindings are kept. *)
Definition only_added (self self' : KubernetesAdaptor) : Prop :=
  short_id self' = short_id self /\
  (exists added, manifests self' = (manifests self ++ added)%list) /\
  (exists added, services self' = (services self ++ added)%list) /\
  (forall k v, lookup k (volumes self) = Some v -> lookup k (volumes self') = Some v) /\
  (exists added, records self' = (records self ++ added)%list).

(** The same, with the status and the dumped file left alone. *)
Definition only_added_quietly (self self' : KubernetesAdaptor) : Prop :=
  only_added self self' /\ status self' = status self /\ dumped self' = dumped self.

(** The order of the visit: a node does not come before one of a greater
    type. *)
Definition not_before (a b : NodeTemplate) : Prop :=
  (Tosca.type b <=? Tosca.type a)%string = true.

(** The nodes of a type, in the order of the list. *)
Definition of_type (t : string) (nodes : list NodeTemplate) : list NodeTemplate :=
  filter (fun node => Tosca.type node =? t) nodes.

(** The name of a repository as [_get_image] compares it with Docker Hub:
    lower case, without spaces, hyphens and underscores. *)
Definition normalised (repo : string) : string :=
  remove_char "_" (remove_char "-" (remove_char " " (lower repo))).

Definition unknown_kind_warning (kind : string) : string :=
  "Unknown kind: " ++ kind ++ ". Not supported...".

(** The inputs [d] split over the keys [seen]: the seen keys are in [data]
    with their values and out of [rest], the other keys are where they
    were; [rest] has no key twice. *)
Definition separated (d : dict) (seen : list string) (data rest : dict) : Prop :=
  NoDup (map fst rest) /\
  forall k : string,
    (In k seen -> lookup k data = lookup k d /\ lookup k rest = None) /\
    (~ In k seen -> lookup k data = None /\ lookup k rest = lookup k d).

(** The entries that [_get_volumes] builds. *)
Definition volume_entry (node_name : string) (pvc : value) : value :=
  VDict ["name" =: VStr node_name;
         "persistentVolumeClaim" =: VDict ["claimName" =: pvc]].

Definition mount_entry (node_name : string) (path : value) : value :=
  VDict ["name" =: VStr node_name; "mountPath" =: path].

(** Pod volumes and container mounts that fit the bindings: a volume is
    that of a related node with a claim bound to it and has a mount; a
    mount has a path and its volume. *)
Definition fitted (bindings : dict) (related : list string)
    (pod_volumes mounts : list value) : Prop :=
  (forall v, In v pod_volumes ->
     exists n pvc,
       In n related /\ lookup n bindings = Some pvc /\ truthy pvc = true /\
       v = volume_entry n pvc /\ exists path, In (mount_entry n path) mounts) /\
  (forall m, In m mounts ->
     exists n path pvc,
       truthy path = true /\ m = mount_entry n path /\
       In (volume_entry n pvc) pod_volumes).

(** The labels of the pods of a workload: those of the metadata of the
    inputs, or [run: <node name>]. *)
Definition pod_labels_of (inputs : value) (node_name : string) : value :=
  match at_path ["metadata"; "labels"] inputs with
  | Some labels => labels
  | None => VDict ["run" =: VStr node_name]
  end.

(** A Service manifest for the pods of a node, and its record in the
    services of the adaptor. *)
Definition selects (labels : value) (manifest : value) : Prop :=
  at_path ["apiVersion"] manifest = Some (VStr "v1") /\
  at_path ["kind"] manifest = Some (VStr "Service") /\
  at_path ["spec"; "selector"] manifest = Some labels.

Definition recorded_for (node_name : string) (info : value) : Prop :=
  at_path ["node"] info = Some (VStr node_name).

(** The names that the inputs of an operation give to the resource are
    not empty: the one under [metadata], and the [name] input. *)
Definition names_are_truthy (inputs : value) : Prop :=
  (forall n, at_path ["metadata"; "name"] inputs = Some n -> truthy n = true) /\
  (forall n, at_path ["name"] inputs = Some n -> truthy n = true).

(** The name of a service whose ports give none:
    ["{}-{}".format(node.name, port_type.lower())]. *)
Definition default_service_name (node_name port_type : string) : string :=
  node_name ++ "-" ++ lower port_type.

(** The options of a Docker container that [_get_container] takes out of
    the properties, in the order it does. *)
Definition DOCKER_OPTIONS : list string :=
  (SWARM_PROPERTIES ++
   [ "container_name"; "entrypoint"; "cmd"; "environment"; "labels";
     "stop_grace_period"; "privileged"; "pid"; "network_mode"; "stdin_open";
     "healthcheck" ])%list.

(** A dictionary with one entry per key at most, and none for the keys
    [gone]. *)
Definition without (gone : list string) (d : dict) : Prop :=
  NoDup (map fst d) /\ Forall (fun k : string => lookup k d = None) gone.

(** A port entry that names a [containerPort]. *)
Definition has_container_port (port : value) : bool :=
  match get port "containerPort" VNone with
  | inr container_port => truthy container_port
  | inl _ => false
  end.

(** The port entries of a container that [_get_service_info] goes
    through. *)
Definition port_entries (container : dict) : list value :=
  match lookup "ports" container with
  | Some ports =>
      if truthy ports then
        match iter ports with
        | inr entries => entries
        | inl _ => []
        end
      else []
  | None => []
  end.

(** The [ports] of a container that holds the entries [kept]. *)
Definition ports_entry (kept : list value) : option value :=
  match kept with
  | [] => None
  | _ :: _ => Some (VList kept)
  end.

(** A port spec for a service: built from one of the [entries] that names
    no [containerPort]. *)
Definition service_port (entries : list value) (node_name : string) (spec : value)
  : Prop :=
  truthy spec = true /\
  exists port reached reached',
    In port entries /\ has_container_port port = false /\
    _build_port_spec port node_name reached = (ok spec, reached').

End Notions.

(* ================================================================== *)
(** * Properties *)
(* ================================================================== *)

Import Py Tosca Kube Terms Scenario.
Local Open Scope adaptor_scope.

(** ** Reasoning about computations on the adaptor *)

Section Computations.

Context {A B : Type}.

(** A sequence that ends in a value: its first statement ended in one. *)
Lemma bind_ok : forall (m : M A) (k : A -> M B) self b self',
  bind m k self = (inr b, self') ->
  exists a reached, m self = (inr a, reached) /\ k a reached = (inr b, self').
Proof.
  intros m k self b self' H. unfold bind in H.
  destruct (m self) as [[e | a] reached]; [discriminate | ].
  exists a, reached. split; [reflexivity | exact H].
Qed.

Lemma bind_run : forall (m : M A) (k : A -> M B) self a reached,
  m self = (ok a, reached) -> bind m k self = k a reached.
Proof.
  intros m k self a reached H. unfold bind. rewrite H. reflexivity.
Qed.

Lemma bind_lift : forall (r : res A) (k : A -> M B) self a,
  r = ok a -> bind (lift r) k self = k a self.
Proof.
  intros r k self a ->. reflexivity.
Qed.

Lemma lift_ok : forall (r : res A) self a self',
  lift r self = (inr a, self') -> r = inr a /\ self' = self.
Proof.
  intros r self a self' H. unfold lift in H.
  injection H as -> ->. split; reflexivity.
Qed.

Lemma ret_ok : forall (a b : A) self self',
  ret a self = (inr b, self') -> b = a /\ self' = self.
Proof.
  intros a b self self' H. unfold ret, ok in H.
  injection H as -> ->. split; reflexivity.
Qed.

(** A loop over two lists in a row. *)
Lemma for_each_app : forall (body : A -> B -> M B) (pre post : list A)
    (s : B) (self : KubernetesAdaptor),
  for_each (pre ++ post)%list body s self
  = match for_each pre body s self with
    | (inl e, self') => (inl e, self')
    | (inr s', self') => for_each post body s' self'
    end.
Proof.
  intros body pre. induction pre as [ | x pre IH]; intros post s self.
  - reflexivity.
  - simpl. unfold bind. destruct (body x s self) as [[e | s'] self'].
    + reflexivity.
    + apply IH.
Qed.

End Computations.

(** One statement that succeeded: its result [a], the adaptor [s] after
    it, and the fact [Ha] that it gave them. *)
Ltac bind_step H a s Ha := apply bind_ok in H as (a & s & Ha & H).

(** The same for a statement that leaves the adaptor alone. *)
Ltac lift_step H a Ha :=
  let s := fresh "s" in
  apply bind_ok in H as (a & s & Ha & H); apply lift_ok in Ha as [Ha ->].

(** ** Dictionaries *)

Lemma VDict_inj : forall a b : dict, VDict a = VDict b -> a = b.
Proof.
  intros a b H. injection H. trivial.
Qed.

Lemma key_eqb_str : forall (k : value) (s : string),
  key_eqb k (VStr s) = true -> k = VStr s.
Proof.
  intros k s H. destruct k; simpl in H; try discriminate.
  apply String.eqb_eq in H. subst. reflexivity.
Qed.

Lemma lookup_app_some : forall (k v : value) (d e : dict),
  lookup k d = Some v -> lookup k (d ++ e)%list = Some v.
Proof.
  intros k v d e. induction d as [ | [k0 v0] d IH]; simpl; [discriminate | ].
  destruct (key_eqb k0 k); [trivial | exact IH].
Qed.

Lemma lookup_app_none : forall (k : value) (d e : dict),
  lookup k d = None -> lookup k (d ++ e)%list = lookup k e.
Proof.
  intros k d e. induction d as [ | [k0 v0] d IH]; simpl; [reflexivity | ].
  destruct (key_eqb k0 k); [discriminate | exact IH].
Qed.

(** The comprehension that keeps the truthy values keeps a truthy entry. *)
Lemma lookup_keep_truthy : forall (k v : value) (d : dict),
  lookup k d = Some v -> truthy v = true -> lookup k (keep_truthy d) = Some v.
Proof.
  intros k v d. induction d as [ | [k0 v0] d IH]; simpl; [discriminate | ].
  destruct (key_eqb k0 k) eqn:Hk.
  - intros [= ->] Hv. rewrite Hv. simpl. rewrite Hk. reflexivity.
  - intros Hd Hv. destruct (truthy v0); simpl; [rewrite Hk | ]; apply IH; assumption.
Qed.

Lemma lookup_dsetdefault_some : forall (k k' v default : value) (d : dict),
  lookup k d = Some v -> lookup k (snd (dsetdefault d k' default)) = Some v.
Proof.
  intros k k' v default d H. unfold dsetdefault.
  destruct (lookup k' d); simpl; [exact H | apply lookup_app_some; exact H].
Qed.

Lemma lookup_set_item_same : forall (k : string) (v : value) (d : dict),
  lookup (VStr k) (set_item (VStr k) v d) = Some v.
Proof.
  intros k v d. induction d as [ | [k0 v0] d IH]; simpl.
  - rewrite String.eqb_refl. reflexivity.
  - destruct (key_eqb k0 (VStr k)) eqn:Hk; simpl; rewrite Hk; [reflexivity | exact IH].
Qed.

Lemma lookup_dsetdefault_same : forall (k : string) (default : value) (d : dict),
  lookup (VStr k) (snd (dsetdefault d (VStr k) default)) = Some (dget d k default).
Proof.
  intros k default d. unfold dsetdefault, dget.
  destruct (lookup (VStr k) d) as [v | ] eqn:Hk; simpl; [exact Hk | ].
  rewrite lookup_app_none by exact Hk. simpl. rewrite String.eqb_refl. reflexivity.
Qed.

(** What an operation on the key [k'] leaves of another key [k]. *)
Section OtherKey.

Variables k k' : string.
Hypothesis Hother : (k' =? k) = false.

Lemma key_eqb_other : forall k0 : value,
  key_eqb k0 (VStr k') = true -> key_eqb k0 (VStr k) = false.
Proof.
  intros k0 H. apply key_eqb_str in H. subst. exact Hother.
Qed.

Lemma lookup_remove_other : forall d : dict,
  lookup (VStr k) (remove (VStr k') d) = lookup (VStr k) d.
Proof.
  intro d. induction d as [ | [k0 v0] d IH]; [reflexivity | ].
  simpl. destruct (key_eqb k0 (VStr k')) eqn:Hk'.
  - rewrite (key_eqb_other k0 Hk'). reflexivity.
  - simpl. rewrite IH. reflexivity.
Qed.

Lemma lookup_set_item_other : forall (v : value) (d : dict),
  lookup (VStr k) (set_item (VStr k') v d) = lookup (VStr k) d.
Proof.
  intros v d. induction d as [ | [k0 v0] d IH]; simpl.
  - rewrite Hother. reflexivity.
  - destruct (key_eqb k0 (VStr k')) eqn:Hk'; simpl.
    + rewrite (key_eqb_other k0 Hk'). reflexivity.
    + rewrite IH. reflexivity.
Qed.

Lemma lookup_dpop_other : forall (default : value) (d : dict),
  lookup (VStr k) (snd (dpop d (VStr k') default)) = lookup (VStr k) d.
Proof.
  intros default d. unfold dpop.
  destruct (lookup (VStr k') d); simpl; [apply lookup_remove_other | reflexivity].
Qed.

Lemma lookup_dsetdefault_other : forall (default : value) (d : dict),
  lookup (VStr k) (snd (dsetdefault d (VStr k') default)) = lookup (VStr k) d.
Proof.
  intros default d. unfold dsetdefault.
  destruct (lookup (VStr k') d); simpl; [reflexivity | ].
  destruct (lookup (VStr k) d) as [v | ] eqn:Hk.
  - apply lookup_app_some. exact Hk.
  - rewrite lookup_app_none by exact Hk. simpl. rewrite Hother. reflexivity.
Qed.

End OtherKey.

(** [pop] and [setdefault] that succeed had a dictionary to work on. *)
Lemma pop_ok : forall (recv : value) (k : string) (default v recv' : value),
  pop recv k default = inr (v, recv') ->
  exists d, recv = VDict d /\ v = dget d k default
            /\ recv' = VDict (snd (dpop d k default)).
Proof.
  intros recv k default v recv' H. destruct recv; simpl in H; try discriminate.
  exists items. unfold dpop, dget in *.
  destruct (lookup k items); injection H as <- <-; repeat split.
Qed.

Lemma setdefault_ok : forall (recv : value) (k : string) (default v recv' : value),
  setdefault recv k default = inr (v, recv') ->
  exists d, recv = VDict d /\ v = dget d k default
            /\ recv' = VDict (snd (dsetdefault d k default)).
Proof.
  intros recv k default v recv' H. destruct recv; simpl in H; try discriminate.
  exists items. unfold dsetdefault, dget in *.
  destruct (lookup k items); injection H as <- <-; repeat split.
Qed.

(** ** The round trip scenario *)

(** C1.  The topology with the one container node [web] (nginx image, port
    entry {port: 8080, targetPort: 80}, no [kind] given) translates into
    exactly two manifests: one Service and one Deployment.  The Deployment
    has apiVersion apps/v1, and both its spec.selector.matchLabels and its
    spec.template.metadata.labels are {run: web}.  The Service is named
    [web], has no [type] key (ClusterIP, the default) and one port entry,
    with targetPort 80, port 8080 and protocol TCP (the entry also carries
    the defaulted name [80-tcp]). *)
Theorem roundtrip_web : forall app : string,
  let (r, self) := translate (topology [web]) (init app) in
  r = ok tt /\
  manifests self = [web_service app; web_deployment app] /\
  filter (has_kind "Deployment") (manifests self) = [web_deployment app] /\
  at_path ["apiVersion"] (web_deployment app) = Some (VStr "apps/v1") /\
  at_path ["spec"; "selector"; "matchLabels"] (web_deployment app)
    = Some (VDict ["run" =: VStr "web"]) /\
  at_path ["spec"; "template"; "metadata"; "labels"] (web_deployment app)
    = Some (VDict ["run" =: VStr "web"]) /\
  filter (has_kind "Service") (manifests self) = [web_service app] /\
  at_path ["metadata"; "name"] (web_service app) = Some (VStr "web") /\
  at_path ["spec"; "type"] (web_service app) = None /\
  at_path ["spec"; "ports"] (web_service app) = Some (VList [web_port]) /\
  at_path ["targetPort"] web_port = Some (VInt 80) /\
  at_path ["port"] web_port = Some (VInt 8080) /\
  at_path ["protocol"] web_port = Some (VStr "TCP").
Proof.
  intro app. vm_compute. repeat split.
Qed.

(** ** Port entries *)

(** C2.  What the code does with the cluster IP 172.16.0.5, outside
    10.96-10.111: the warning is logged, but the value stays in the port
    spec, and from there reaches the Service manifest of the node.  The
    address 10.100.5.5 is kept verbatim, without a warning. *)
Theorem cluster_ip_out_of_range_is_kept : forall (self : KubernetesAdaptor) (app : string),
  _build_port_spec (port_with_ip "172.16.0.5") "web" self
    = (ok (VDict ["name" =: VStr "80-tcp"; "targetPort" =: VInt 80;
                  "port" =: VInt 80; "protocol" =: VStr "TCP";
                  "type" =: VStr "ClusterIP"; "clusterIP" =: VStr "172.16.0.5"]),
       logging WARNING cluster_ip_warning self) /\
  (exists service,
     nth_manifest 0
       (translated [container "web" VNone (with_ports [port_with_ip "172.16.0.5"])] app)
       = Some service /\
     has_kind "Service" service = true /\
     at_path ["spec"; "clusterIP"] service = Some (VStr "172.16.0.5")) /\
  _build_port_spec (port_with_ip "10.100.5.5") "web" self
    = (ok (VDict ["name" =: VStr "80-tcp"; "targetPort" =: VInt 80;
                  "port" =: VInt 80; "protocol" =: VStr "TCP";
                  "type" =: VStr "ClusterIP"; "clusterIP" =: VStr "10.100.5.5"]),
       self).
Proof.
  intros self app. split; [reflexivity | split; [ | reflexivity]].
  eexists. split; [vm_compute; reflexivity | split; reflexivity].
Qed.

(** No branch of the check of the cluster IP gives the value up: whenever
    a port spec is built from an entry with a cluster IP, the spec has a
    cluster IP, the one of the entry, or [None] as a string when its first
    field is [None]. *)
Lemma cluster_ip_is_never_dropped :
  forall (port : dict) (node_name : string) (self self' : KubernetesAdaptor)
         (spec : dict) (ip : value),
  _build_port_spec (VDict port) node_name self = (ok (VDict spec), self') ->
  lookup "clusterIP" port = Some ip ->
  truthy ip = true ->
  lookup "clusterIP" spec = Some ip \/ lookup "clusterIP" spec = Some (VStr "None").
Proof.
  intros port node_name self self' spec ip H Hip Htruthy.
  unfold _build_port_spec in H.
  lift_step H target Htarget. lift_step H publish Hpublish.
  destruct (negb (truthy (VInt publish)) && negb (truthy target)).
  { bind_step H u s Hlog. apply ret_ok in H as [H _]. discriminate H. }
  lift_step H target' Hcoerce. lift_step H cluster_ip Hget.
  cbn [get hashable] in Hget. unfold dget in Hget. rewrite Hip in Hget.
  injection Hget as <-. rewrite Htruthy in H.
  bind_step H kept s Hcheck.
  assert (Hkept : kept = ip \/ kept = VStr "None").
  { lift_step Hcheck address Haddress. lift_step Hcheck ip0 Hip0.
    lift_step Hcheck within Hwithin.
    destruct within.
    - apply ret_ok in Hcheck as [-> _]. left. reflexivity.
    - destruct (ip0 =? "None").
      + apply ret_ok in Hcheck as [-> _]. right. reflexivity.
      + bind_step Hcheck u s' Hlog. apply ret_ok in Hcheck as [-> _].
        left. reflexivity. }
  assert (Hkept_truthy : truthy kept = true).
  { destruct Hkept as [-> | ->]; [exact Htruthy | reflexivity]. }
  lift_step H protocol Hprotocol. lift_step H port_name Hname.
  lift_step H port_type Htype. lift_step H metadata Hmetadata.
  lift_step H node_port Hnode_port.
  bind_step H x s' Hnp. destruct x as [port_type' node_port'].
  apply ret_ok in H as [H _]. apply VDict_inj in H. subst spec.
  match goal with
  | |- context [keep_truthy ?d] =>
      rewrite (lookup_keep_truthy (VStr "clusterIP") kept d eq_refl Hkept_truthy)
  end.
  destruct Hkept as [-> | ->]; [left | right]; reflexivity.
Qed.

(** The guard on the node port asks for a number below 30000 and above
    32767 at once: no number passes it. *)
Lemma node_port_guard_never_fires : forall n : Z,
  ((30000 >? n) && (n >? 32767))%Z = false.
Proof.
  intro n. destruct (30000 >? n)%Z eqn:Hlow; [ | reflexivity].
  simpl. apply Z.gtb_lt in Hlow.
  destruct (n >? 32767)%Z eqn:Hhigh; [ | reflexivity].
  apply Z.gtb_lt in Hhigh. lia.
Qed.

(** C3.  What the code does with an explicit node port: whatever the
    number (not zero, which counts as absent), in the range 30000-32767 or
    not, it stays in the port spec, the type becomes NodePort and nothing is
    logged. *)
Theorem node_port_is_always_kept : forall (n : Z) (self : KubernetesAdaptor),
  n <> 0%Z ->
  _build_port_spec (port_with_node_port n) "web" self
    = (ok (VDict ["name" =: VStr "80-tcp"; "targetPort" =: VInt 80;
                  "port" =: VInt 80; "protocol" =: VStr "TCP";
                  "type" =: VStr "NodePort"; "nodePort" =: VInt n]),
       self).
Proof.
  intros n self Hn.
  assert (Hz : (n =? 0)%Z = false) by (apply Z.eqb_neq; exact Hn).
  unfold _build_port_spec, port_with_node_port, bind, lift, ret. simpl.
  rewrite Hz. simpl. rewrite node_port_guard_never_fires.
  simpl. unfold keep_truthy. simpl. rewrite Hz. reflexivity.
Qed.

(** A node port of 80, far below the range, is kept. *)
Lemma node_port_is_always_kept_witness :
  80%Z <> 0%Z /\
  _build_port_spec (port_with_node_port 80) "web" (init "app")
    = (ok (VDict ["name" =: VStr "80-tcp"; "targetPort" =: VInt 80;
                  "port" =: VInt 80; "protocol" =: VStr "TCP";
                  "type" =: VStr "NodePort"; "nodePort" =: VInt 80]),
       init "app").
Proof.
  split; [lia | apply (node_port_is_always_kept 80 (init "app")); lia].
Defined.

(** C5.  What the code does with a raw port entry that has neither a
    publish value ([port], [published]) nor a target value ([targetPort],
    [target]): [int(None)] raises a [TypeError] before the check that would
    give the entry up with a warning.  Nothing is logged, and the
    translation of a node with such an entry ends in that exception without
    a manifest. *)
Theorem port_without_numbers_raises :
  forall (port : dict) (node_name : string) (self : KubernetesAdaptor) (app : string),
  lookup "port" port = None ->
  lookup "published" port = None ->
  lookup "targetPort" port = None ->
  lookup "target" port = None ->
  _build_port_spec (VDict port) node_name self = (throw TypeError, self) /\
  fst (translated [container "web" VNone (with_ports [port_without_numbers])] app)
    = throw TypeError /\
  manifests (snd (translated [container "web" VNone (with_ports [port_without_numbers])] app))
    = [].
Proof.
  intros port node_name self app Hport Hpublished HtargetPort Htarget.
  split; [ | split; reflexivity].
  unfold _build_port_spec, bind at 1, lift at 1.
  cbn [get hashable rbind]. unfold dget.
  rewrite Htarget, HtargetPort. cbn [rbind].
  unfold bind at 1, lift at 1. cbn [get hashable rbind]. unfold dget.
  rewrite Hpublished, Hport. reflexivity.
Qed.

(** The entry {protocol: UDP} and the empty entry raise. *)
Lemma port_without_numbers_raises_witness :
  _build_port_spec port_without_numbers "web" (init "app")
    = (throw TypeError, init "app") /\
  _build_port_spec (VDict []) "web" (init "app") = (throw TypeError, init "app").
Proof.
  split.
  - apply (port_without_numbers_raises ["protocol" =: VStr "UDP"] "web"
             (init "app") "app"); reflexivity.
  - apply (port_without_numbers_raises [] "web" (init "app") "app"); reflexivity.
Defined.

(** ** The container spec *)

(** C4.  What the code does with an [environment] mapping.  The loop
    iterates over the mapping itself, that is over its keys, and unpacks
    each key into two variables: a key such as [PATH] does not unpack and
    construction ends in the interpreter's [ValueError]; a key of two
    characters is split into a name and a value, and the value of the
    mapping is lost.  Only a sequence of pairs comes out as records. *)
Theorem environment_mapping_does_not_translate :
  forall (self : KubernetesAdaptor) (app : string),
  let node := with_environment (VDict ["PATH" =: VStr "/bin"]) in
  _get_container node (properties node) docker_hub (VDict []) self
    = (throw BuiltinValueError, self) /\
  fst (translated [node] app) = throw BuiltinValueError /\
  manifests (snd (translated [node] app)) = [] /\
  (let node := with_environment (VDict ["TZ" =: VStr "UTC"]) in
   exists properties inputs,
     _get_container node (Tosca.properties node) docker_hub (VDict []) self
       = (ok (["image" =: VStr "nginx"; "name" =: VStr "web";
               "env" =: VList [VDict ["name" =: VStr "T"; "value" =: VStr "Z"]]],
              properties, inputs), self)) /\
  (let node := with_environment (VList [VList [VStr "PATH"; VStr "/bin"]]) in
   exists properties inputs,
     _get_container node (Tosca.properties node) docker_hub (VDict []) self
       = (ok (["image" =: VStr "nginx"; "name" =: VStr "web";
               "env" =: VList [VDict ["name" =: VStr "PATH"; "value" =: VStr "/bin"]]],
              properties, inputs), self)).
Proof.
  intros self app. cbv zeta.
  split; [reflexivity | ].
  split; [reflexivity | ].
  split; [reflexivity | ].
  split; do 2 eexists; reflexivity.
Qed.

(** The image of a container: the invariant that the properties hold a
    truthy [image], from the statement that puts it there to the end. *)

Lemma has_image_dsetdefault : forall d k v,
  has_image d -> has_image (snd (dsetdefault d k v)).
Proof.
  intros d k v (img & H & Ht). exists img. split; [ | exact Ht].
  apply lookup_dsetdefault_some. exact H.
Qed.

Lemma has_image_dpop : forall d (k : string) v,
  (k =? "image") = false -> has_image d -> has_image (snd (dpop d k v)).
Proof.
  intros d k v Hk (img & H & Ht). exists img. split; [ | exact Ht].
  rewrite lookup_dpop_other; assumption.
Qed.

Lemma has_image_set_item : forall d (k : string) v,
  (k =? "image") = false -> has_image d -> has_image (set_item k v d).
Proof.
  intros d k v Hk (img & H & Ht). exists img. split; [ | exact Ht].
  rewrite lookup_set_item_other; assumption.
Qed.

Lemma has_image_keep_truthy : forall d, has_image d -> has_image (keep_truthy d).
Proof.
  intros d (img & H & Ht). exists img. split; [ | exact Ht].
  apply lookup_keep_truthy; assumption.
Qed.

Lemma has_image_init : forall properties image,
  truthy image = true ->
  (forall v, lookup "image" properties = Some v -> truthy v = true) ->
  has_image (snd (dsetdefault properties "image" image)).
Proof.
  intros properties image Himg Hprops. unfold dsetdefault.
  destruct (lookup "image" properties) as [v | ] eqn:Hl; simpl.
  - exists v. split; [exact Hl | apply Hprops; reflexivity].
  - exists image. split; [ | exact Himg].
    rewrite lookup_app_none by exact Hl. reflexivity.
Qed.

Create HintDb image.
#[local] Hint Resolve has_image_dsetdefault has_image_keep_truthy : image.

(** One [pop] of [properties] in the hypothesis [H]: the dictionary [d]
    it leaves still has the image. *)
Ltac pop_image H I v d :=
  lazymatch type of H with
  | context [dpop ?d0 (VStr ?k) ?v0] =>
      let E := fresh "I" in
      assert (E : has_image (snd (dpop d0 (VStr k) v0)))
        by (apply has_image_dpop; [reflexivity | auto with image]);
      destruct (dpop d0 (VStr k) v0) as [v d]; cbn [snd] in E; clear I; rename E into I
  end.

Lemma _get_container_image :
  forall node properties repositories inputs self c p i self',
  _get_container node properties repositories inputs self = (ok (c, p, i), self') ->
  (forall v, lookup "image" properties = Some v -> truthy v = true) ->
  has_image c.
Proof.
  intros node properties repositories inputs self c p i self' H Hprops.
  unfold _get_container in H.
  bind_step H image s1 Himage.
  destruct (truthy image) eqn:Himg; cbn [negb] in H; [ | discriminate].
  pose proof (has_image_init properties image Himg Hprops) as I.
  cbn [SWARM_PROPERTIES for_each] in H.
  (* swarm-only keys *)
  bind_step H p1 s2 Hswarm. bind_step Hswarm p0 s0 Hexpose.
  apply ret_ok in Hswarm as [-> _].
  pop_image Hexpose I expose d0.
  assert (I' : has_image p0).
  { destruct (truthy expose).
    - bind_step Hexpose u s Hlog. apply ret_ok in Hexpose as [-> _]. exact I.
    - apply ret_ok in Hexpose as [-> _]. exact I. }
  clear I Hexpose. rename I' into I.
  (* common properties *)
  pop_image H I container_name d1. pop_image H I entrypoint d2.
  bind_step H command s3 Hcommand.
  pop_image H I cmd d3. bind_step H args s4 Hargs.
  pop_image H I docker_env d4.
  bind_step H env_items s5 Hiter. bind_step H env s6 Henv.
  (* other properties *)
  pop_image H I docker_labels d5. bind_step H inputs1 s7 Hlabels.
  pop_image H I docker_grace d6. bind_step H inputs2 s8 Hgrace.
  pop_image H I docker_priv d7. bind_step H p7 s9 Hpriv.
  assert (I' : has_image p7).
  { apply lift_ok in Hpriv as [Hpriv _]. destruct (truthy docker_priv).
    - destruct (dsetdefault d7 "securityContext" (VDict [])) as [sc d'] eqn:Hsc.
      assert (Id : has_image d').
      { replace d' with (snd (dsetdefault d7 "securityContext" (VDict [])))
          by (rewrite Hsc; reflexivity).
        apply has_image_dsetdefault. exact I. }
      unfold rbind in Hpriv.
      destruct (setdefault sc "privileged" docker_priv) as [e | [x sc']];
        [discriminate | ].
      injection Hpriv as <-. apply has_image_set_item; [reflexivity | exact Id].
    - injection Hpriv as <-. exact I. }
  clear I Hpriv. rename I' into I.
  pop_image H I docker_pid d8. bind_step H inputs3 s10 Hpid.
  pop_image H I docker_netmode d9. bind_step H inputs4 s11 Hnet.
  pop_image H I stdin_open d10. pop_image H I healthcheck d11.
  apply ret_ok in H as [H _]. injection H as -> _ _.
  auto with image.
Qed.

(** Without a resolved image the container spec is not built. *)
Lemma _get_container_without_image :
  forall node properties repositories inputs self image reached,
  _get_image (entity_tpl node) repositories self = (ok image, reached) ->
  truthy image = false ->
  _get_container node properties repositories inputs self
    = (throw (ValueError (missing_image_error (name node))), reached).
Proof.
  intros node properties repositories inputs self image reached Himage Hfalsy.
  unfold _get_container, bind at 1. rewrite Himage. unfold ok.
  rewrite Hfalsy. reflexivity.
Qed.

(** The resource built by [_get_resource]: its three entries, its labels
    with their [app] entry, and an adaptor with the same manifests. *)

(** [_get_api] only logs. *)
Lemma _get_api_frame : forall kind self api self',
  _get_api kind self = (inr api, self') ->
  manifests self' = manifests self /\ short_id self' = short_id self.
Proof.
  intros kind self api self' H. unfold _get_api in H.
  bind_step H k s Hk. apply lift_ok in Hk as [_ ->].
  destruct (find _ api_versions) as [[r a] | ].
  - apply ret_ok in H as [_ ->]. split; reflexivity.
  - bind_step H u s' Hlog. apply ret_ok in H as [_ ->].
    unfold log in Hlog. injection Hlog as _ <-. split; reflexivity.
Qed.

Lemma _get_resource_ok :
  forall (name inputs kind0 : value) self resource inputs' self',
  _get_resource name inputs kind0 self = (ok (resource, inputs'), self') ->
  exists api kind md labels,
    resource = VDict ["apiVersion" =: api; "kind" =: kind; "metadata" =: VDict md] /\
    lookup "labels" md = Some (VDict labels) /\
    lookup "app" labels = Some (app_label inputs (short_id self)) /\
    manifests self' = manifests self.
Proof.
  intros name inputs kind0 self resource inputs' self' H.
  unfold _get_resource in H.
  lift_step H x Hkind. destruct x as [kind inputs1].
  apply pop_ok in Hkind as (d & -> & -> & ->).
  bind_step H api s1 Hapi. apply _get_api_frame in Hapi as [Hm Hid].
  lift_step H x Hversion. destruct x as [api_version inputs2].
  apply pop_ok in Hversion as (d1 & [= <-] & -> & ->).
  lift_step H x Hmeta. destruct x as [metadata inputs3].
  apply pop_ok in Hmeta as (d2 & [= <-] & -> & ->).
  lift_step H x Hname. destruct x as [n inputs4].
  apply pop_ok in Hname as (d3 & [= <-] & -> & ->).
  lift_step H x Hsetname. destruct x as [u1 metadata1].
  apply setdefault_ok in Hsetname as (md & Hmd & _ & ->).
  lift_step H x Hlabels. destruct x as [l inputs5].
  apply pop_ok in Hlabels as (d4 & [= <-] & -> & ->).
  lift_step H x Hset1. destruct x as [u2 metadata2].
  apply setdefault_ok in Hset1 as (md1 & [= <-] & _ & ->).
  lift_step H x Hset2. destruct x as [labels metadata3].
  apply setdefault_ok in Hset2 as (md2 & [= <-] & -> & ->).
  bind_step H this_self s2 Hthis. unfold this in Hthis. injection Hthis as <- <-.
  lift_step H x Happ. destruct x as [u3 labels'].
  apply setdefault_ok in Happ as (l0 & Hl0 & _ & ->).
  apply ret_ok in H as [H ->]. injection H as -> _.
  cbn [store].
  do 4 eexists. split; [reflexivity | ].
  split; [apply lookup_set_item_same | ].
  split; [ | exact Hm].
  rewrite lookup_dsetdefault_same, Hid. f_equal.
  unfold dget in Hmd, Hl0 |- *.
  rewrite lookup_dsetdefault_same in Hl0. unfold dget in Hl0.
  rewrite lookup_dsetdefault_other in Hl0 by reflexivity.
  rewrite !lookup_dpop_other in Hl0 by reflexivity.
  rewrite !lookup_dpop_other in Hmd by reflexivity.
  unfold app_label, operator_labels. cbn [at_path].
  assert (Hleaf : forall l : dict,
            match lookup "app" l with Some v => v | None => VStr (short_id self) end
            = match at_path ["app"] (VDict l) with
              | Some a => a
              | None => VStr (short_id self)
              end).
  { intro l. cbn [at_path]. destruct (lookup "app" l); reflexivity. }
  rewrite Hleaf. clear Hleaf.
  destruct (lookup "metadata" d) as [m | ].
  - subst m. cbn [at_path].
    destruct (lookup "labels" md) as [x | ].
    + subst x. reflexivity.
    + destruct (lookup "labels" d) as [y | ].
      * subst y. reflexivity.
      * injection Hl0 as <-. reflexivity.
  - injection Hmd as <-. cbn [lookup] in Hl0.
    destruct (lookup "labels" d) as [y | ].
    + subst y. reflexivity.
    + injection Hl0 as <-. reflexivity.
Qed.

(** The claim of C7 fails in two places.  A workload node of an
    unsupported kind is passed over before its image is looked at: the
    node without artifacts and of kind ReplicaSet translates without an
    error.  And a node whose properties carry an empty [image] of their
    own keeps it in place of the image of the artifact, so that the
    container spec is built without an [image] field. *)
Lemma image_claims_fail :
  (fst (_get_image (entity_tpl (web_without_image replica_set)) docker_hub (init "app"))
     = ok (VStr "") /\
   fst (translated [web_without_image replica_set] "app") = ok tt) /\
  (exists c p i reached,
     _get_container web_with_empty_image (properties web_with_empty_image)
       docker_hub (VDict []) (init "app")
       = (ok (c, p, i), reached) /\
     lookup "image" c = None) /\
  (exists deployment,
     nth_manifest 0 (translated [web_with_empty_image] "app") = Some deployment /\
     at_path ["spec"; "template"; "spec"; "containers"] deployment
       = Some (VList [VDict ["name" =: VStr "web"]])).
Proof.
  split; [split; reflexivity | ].
  split.
  - do 4 eexists. split; reflexivity.
  - eexists. split; reflexivity.
Qed.

(** C7, amended.  For a workload node for which no image is resolved
    ([_get_image] gives nothing), the construction of the container spec
    raises the missing-image error that names the node, and so does the
    translation of the node when it gets there: the name has no underscore
    and the kind of the resource is a supported one.  Conversely a
    container spec that is built has a non-empty [image] field, provided
    the properties of the node carry no empty [image] of their own. *)
Theorem missing_image_raises_and_built_container_has_image :
  (forall node properties repositories inputs self image reached,
     _get_image (entity_tpl node) repositories self = (ok image, reached) ->
     truthy image = false ->
     _get_container node properties repositories inputs self
       = (throw (ValueError (missing_image_error (name node))), reached)) /\
  (forall repositories node self resource workload_inputs kind image reached reached',
     is_workload node = true ->
     contains "_" (name node) = false ->
     _get_resource (VStr (name node)) (dget (kube_interface node) "create" (VDict []))
       "Deployment" self = (ok (resource, workload_inputs), reached) ->
     at_path ["kind"] resource = Some kind ->
     existsb (eq_str kind) SUPPORTED_WORKLOADS = true ->
     _get_image (entity_tpl node) repositories reached = (ok image, reached') ->
     truthy image = false ->
     translate_node repositories node self
       = (throw (ValueError (missing_image_error (name node))), reached')) /\
  (forall node properties repositories inputs self container properties' inputs' self',
     _get_container node properties repositories inputs self
       = (ok (container, properties', inputs'), self') ->
     (forall v, lookup "image" properties = Some v -> truthy v = true) ->
     exists image, lookup "image" container = Some image /\ truthy image = true).
Proof.
  split; [exact _get_container_without_image | ].
  split.
  - intros repositories node self resource workload_inputs kind image reached reached'
      Hworkload Hname Hresource Hkind Hsupported Himage Hfalsy.
    unfold translate_node. unfold is_workload in Hworkload.
    rewrite Hworkload, Hname.
    unfold _create_manifests.
    rewrite (bind_run _ _ _ _ _ Hresource). cbv beta iota.
    destruct (_get_resource_ok _ _ _ _ _ _ _ Hresource)
      as (api & kind' & md & labels & -> & _).
    cbn in Hkind. injection Hkind as ->.
    rewrite (bind_lift _ _ _ kind) by reflexivity.
    rewrite Hsupported. cbn [negb].
    rewrite (bind_lift _ _ _ (VDict md)) by reflexivity.
    rewrite (bind_lift _ _ _ (dget md "namespace" VNone)) by reflexivity.
    unfold bind at 1.
    rewrite (_get_container_without_image _ _ _ _ _ _ _ Himage Hfalsy).
    reflexivity.
  - intros node properties repositories inputs self container properties' inputs' self'
      Hbuilt Hproperties.
    exact (_get_container_image _ _ _ _ _ _ _ _ _ Hbuilt Hproperties).
Qed.

(** The node without artifacts raises the error that names it, and the
    container built for the node [web] has the image of its artifact. *)
Lemma missing_image_raises_and_built_container_has_image_witness :
  translate_node docker_hub (web_without_image VNone) (init "app")
    = (throw (ValueError "No image specified for web!"),
       logging WARNING no_image_warning (init "app")) /\
  (exists c p i reached,
     _get_container web (properties web) docker_hub (VDict []) (init "app")
       = (ok (c, p, i), reached) /\
     exists image, lookup "image" c = Some image /\ truthy image = true).
Proof.
  destruct missing_image_raises_and_built_container_has_image
    as (_ & Htranslate & Hbuilt).
  split.
  - apply (Htranslate docker_hub (web_without_image VNone) (init "app")
             (VDict ["apiVersion" =: VStr "apps/v1"; "kind" =: VStr "Deployment";
                     "metadata" =: VDict ["name" =: VStr "web";
                                          "labels" =: VDict ["app" =: VStr "app"]]])
             (VDict []) (VStr "Deployment") (VStr "") (init "app")
             (logging WARNING no_image_warning (init "app"))); reflexivity.
  - do 4 eexists. split; [reflexivity | ].
    apply (Hbuilt web (properties web) docker_hub (VDict []) (init "app")
             _ _ _ _ eq_refl).
    intros v Hv. discriminate Hv.
Defined.

(** ** Volumes *)

(** C8.  What the code does in the volume scenario.  The volume node
    [data] gives the pair [data-pv] and [data-pvc] with 1Gi and
    ReadWriteMany, and the Deployment of [web] gets the pod volume entry
    that refers to the claim.  The mount at /var/data does not reach the
    manifest: the code adds it to the node's property dictionary after the
    container was built from it as a dictionary of its own, so the container
    has no [volumeMounts].  (Only when the node's properties already carry a
    non-empty [volumeMounts] list does the container share that list and see
    the mount.)  A related node without a matching requirement gives neither
    a volume entry nor a mount. *)
Theorem attached_volume_mount_is_lost : forall app : string,
  let run := translated [web_attached [attachment "data" "/var/data"] []; data] app in
  fst run = ok tt /\
  volumes (snd run) = ["data" =: VStr "data-pvc"] /\
  (exists deployment,
     manifests (snd run) = [data_pv app; data_pvc app; deployment] /\
     has_kind "Deployment" deployment = true /\
     at_path ["spec"; "template"; "spec"; "volumes"] deployment
       = Some (VList [data_volume_entry]) /\
     at_path ["spec"; "template"; "spec"; "containers"] deployment
       = Some (VList [VDict ["image" =: VStr "nginx"; "name" =: VStr "web"]])) /\
  (let run := translated
                [web_attached [attachment "data" "/var/data"]
                   ["volumeMounts" =: VList [VDict ["name" =: VStr "tmp"; "mountPath" =: VStr "/tmp"]]];
                 data] app in
   exists deployment,
     nth_manifest 2 run = Some deployment /\
     at_path ["spec"; "template"; "spec"; "containers"] deployment
       = Some (VList [VDict ["volumeMounts" =:
                               VList [VDict ["name" =: VStr "tmp"; "mountPath" =: VStr "/tmp"];
                                      data_mount];
                             "image" =: VStr "nginx"; "name" =: VStr "web"]])) /\
  (let run := translated [web_attached [] []; data] app in
   exists deployment,
     nth_manifest 2 run = Some deployment /\
     at_path ["spec"; "template"; "spec"; "volumes"] deployment = None /\
     at_path ["spec"; "template"; "spec"; "containers"] deployment
       = Some (VList [VDict ["image" =: VStr "nginx"; "name" =: VStr "web"]])).
Proof.
  intro app. cbv zeta.
  split; [reflexivity | ].
  split; [reflexivity | ].
  split; [eexists; repeat split; vm_compute; reflexivity | ].
  split; eexists; repeat split; vm_compute; reflexivity.
Qed.

(** ** The [app] label *)

Lemma _create_manifests_app_label :
  forall node interface repositories self self',
  _create_manifests node interface repositories self = (ok tt, self') ->
  manifests self' = manifests self \/
  exists earlier workload kind labels,
    manifests self' = (earlier ++ [workload])%list /\
    at_path ["kind"] workload = Some kind /\
    existsb (eq_str kind) SUPPORTED_WORKLOADS = true /\
    at_path ["metadata"; "labels"] workload = Some (VDict labels) /\
    lookup "app" labels
      = Some (app_label (dget interface "create" (VDict [])) (short_id self)).
Proof.
  intros node interface repositories self self' H.
  unfold _create_manifests in H.
  bind_step H x s1 Hres. destruct x as [resource workload_inputs].
  apply _get_resource_ok in Hres
    as (api & kind & md & labels & -> & Hlabels & Happ & Hm1).
  lift_step H kind' Hkind. cbn in Hkind. injection Hkind as <-.
  destruct (existsb (eq_str kind) SUPPORTED_WORKLOADS) eqn:Hsupported;
    cbn [negb] in H.
  2: { left. unfold log in H. injection H as <-. exact Hm1. }
  right.
  lift_step H resource_metadata Hrm. lift_step H resource_namespace Hns.
  bind_step H x s2 Hcontainer. destruct x as [[container properties] pod_inputs].
  bind_step H container' s3 Hservices.
  bind_step H x s4 Hvolumes. destruct x as [volumes volume_mounts].
  lift_step H pod_inputs1 Hpodvol.
  lift_step H x Hmounts. destruct x as [properties' container''].
  lift_step H x Hpm. destruct x as [pod_metadata pod_inputs2].
  lift_step H x Hpl. destruct x as [u1 pod_metadata1].
  lift_step H pod_labels Hlab.
  lift_step H x Hpn. destruct x as [u2 pod_metadata2].
  lift_step H x Hsep. destruct x as [pod_data workload_inputs1].
  lift_step H pod_inputs3 Hupd.
  lift_step H pod_metadata3 Hpmt.
  lift_step H pod_inputs4 Hpit.
  lift_step H pod_fields Hpf.
  lift_step H workload_fields Hwf.
  lift_step H x Hspec. destruct x as [u3 resource'].
  apply setdefault_ok in Hspec as (d & [= <-] & _ & ->).
  unfold append_manifest in H. injection H as <-. cbn [manifests].
  eexists _, _, kind, labels. split; [reflexivity | ].
  split; [reflexivity | ].
  split; [exact Hsupported | ].
  split; [ | exact Happ].
  cbn. rewrite Hlabels. reflexivity.
Qed.

(** The claim of C9 fails for an operator who gives labels with an [app]
    entry of their own: the Deployment of the node keeps [app: custom]
    and does not get the application id. *)
Lemma operator_app_label_is_kept :
  exists deployment,
    translated [labelled_web] "app" = (ok tt, snd (translated [labelled_web] "app")) /\
    manifests (snd (translated [labelled_web] "app")) = [deployment] /\
    has_kind "Deployment" deployment = true /\
    at_path ["metadata"; "labels"] deployment = Some (VDict ["app" =: VStr "custom"]) /\
    at_path ["metadata"; "labels"; "app"] deployment <> Some (VStr "app").
Proof.
  eexists. split; [reflexivity | ].
  split; [reflexivity | ].
  split; [reflexivity | ].
  split; [reflexivity | ].
  cbn. discriminate.
Qed.

(** C9, amended.  When the translation of a workload node succeeds, the
    node was either passed over (no manifest), or the workload resource,
    the manifest added last and of a supported kind, has labels with an
    [app] entry.  That entry is the application id, unless the labels the
    operator gives in the create inputs (under [metadata], else as
    [labels]) have an [app] entry of their own, which is then the one
    kept. *)
Theorem workload_labels_include_app :
  forall (repositories : list Repository) (node : NodeTemplate)
         (self self' : KubernetesAdaptor),
  is_workload node = true ->
  translate_node repositories node self = (ok tt, self') ->
  manifests self' = manifests self \/
  exists earlier workload kind labels,
    manifests self' = (earlier ++ [workload])%list /\
    at_path ["kind"] workload = Some kind /\
    existsb (eq_str kind) SUPPORTED_WORKLOADS = true /\
    at_path ["metadata"; "labels"] workload = Some (VDict labels) /\
    lookup "app" labels
      = Some (app_label (dget (kube_interface node) "create" (VDict []))
                (short_id self)).
Proof.
  intros repositories node self self' Hworkload H.
  unfold translate_node in H. unfold is_workload in Hworkload.
  rewrite Hworkload in H.
  destruct (contains "_" (name node)).
  - bind_step H u s Hlog. discriminate H.
  - exact (_create_manifests_app_label _ _ _ _ _ H).
Qed.

(** The Deployment of the node [web] is labelled with the application id,
    and that of the node with the operator's label keeps [custom]. *)
Lemma workload_labels_include_app_witness :
  (exists earlier workload kind labels,
     manifests (snd (translate_node docker_hub web (init "app")))
       = (earlier ++ [workload])%list /\
     at_path ["kind"] workload = Some kind /\
     existsb (eq_str kind) SUPPORTED_WORKLOADS = true /\
     at_path ["metadata"; "labels"] workload = Some (VDict labels) /\
     lookup "app" labels = Some (VStr "app")) /\
  (exists earlier workload kind labels,
     manifests (snd (translate_node docker_hub labelled_web (init "app")))
       = (earlier ++ [workload])%list /\
     at_path ["kind"] workload = Some kind /\
     existsb (eq_str kind) SUPPORTED_WORKLOADS = true /\
     at_path ["metadata"; "labels"] workload = Some (VDict labels) /\
     lookup "app" labels = Some (VStr "custom")).
Proof.
  split.
  - destruct (workload_labels_include_app docker_hub web (init "app")
                (snd (translate_node docker_hub web (init "app")))
                eq_refl eq_refl) as [Hskipped | Hbuilt].
    + discriminate Hskipped.
    + exact Hbuilt.
  - destruct (workload_labels_include_app docker_hub labelled_web (init "app")
                (snd (translate_node docker_hub labelled_web (init "app")))
                eq_refl eq_refl) as [Hskipped | Hbuilt].
    + discriminate Hskipped.
    + exact Hbuilt.
Defined.

(** ** The naming rule *)

(** The sort keeps every node. *)
Lemma In_insert_by_type : forall (x y : NodeTemplate) (l : list NodeTemplate),
  In x (insert_by_type y l) <-> y = x \/ In x l.
Proof.
  intros x y l. induction l as [ | z l IH]; simpl.
  - tauto.
  - destruct (type z <=? type y)%string; simpl; [tauto | rewrite IH; tauto].
Qed.

Lemma In_sorted_by_type : forall (x : NodeTemplate) (l : list NodeTemplate),
  In x l -> In x (sorted_by_type l).
Proof.
  intros x l. induction l as [ | y l IH]; simpl; [trivial | ].
  intros [-> | H]; apply In_insert_by_type; [left; reflexivity | right; auto].
Qed.

(** The loop body on a node that calls for a naming error: the error is
    logged and raised, and nothing else happens to the adaptor. *)
Lemma translate_node_naming_error : forall repositories node msg self,
  naming_violation node = Some msg ->
  translate_node repositories node self
  = (throw (ValueError msg), logging ERROR msg self).
Proof.
  intros repositories node msg self. unfold naming_violation, translate_node.
  destruct (is_workload node) eqn:Hw.
  - unfold is_workload in Hw. rewrite Hw.
    destruct (contains "_" (name node)); [ | discriminate].
    intro H. injection H as <-. reflexivity.
  - destruct (is_volume node) eqn:Hv; [ | discriminate].
    unfold is_volume, is_workload in Hv, Hw. rewrite Hw in Hv.
    cbn [negb andb] in Hv. rewrite Hw, Hv.
    fold (volume_name node). unfold bind, lift.
    destruct (str_in "_" (volume_name node)) as [e | [ | ]]; try discriminate.
    intro H. injection H as <-. reflexivity.
Qed.

(** [translate] up to the end of its loop over the first nodes. *)
Lemma translate_aborted : forall tpl pre post self e reached,
  sorted_by_type (nodetemplates tpl) = (pre ++ post)%list ->
  visit (repositories tpl) pre (started self) = (throw e, reached) ->
  translate tpl self = (throw e, reached).
Proof.
  intros tpl pre post self e reached Hsorted Hpre.
  unfold translate, bind at 1 2. simpl.
  unfold bind at 1. rewrite Hsorted, for_each_app.
  unfold visit, started, logging in Hpre. simpl in Hpre. rewrite Hpre.
  reflexivity.
Qed.

Lemma translate_naming_error : forall tpl pre node post msg self reached,
  naming_violation node = Some msg ->
  sorted_by_type (nodetemplates tpl) = (pre ++ node :: post)%list ->
  visit (repositories tpl) pre (started self) = (ok tt, reached) ->
  translate tpl self = (throw (ValueError msg), logging ERROR msg reached).
Proof.
  intros tpl pre node post msg self reached Hbad Hsorted Hpre.
  unfold translate, bind at 1 2. simpl.
  unfold bind at 1. rewrite Hsorted, for_each_app.
  unfold visit, started, logging in Hpre. simpl in Hpre. rewrite Hpre.
  simpl. unfold bind at 1.
  rewrite (translate_node_naming_error _ _ _ _ Hbad). reflexivity.
Qed.

(** C6.  Take a node of the topology that is a workload node whose name
    contains an underscore, or a volume node whose resolved name does.
    Wherever the loop of [translate] reaches the node, the naming error is
    logged and raised, with a message that carries the name, and the
    manifests and volume bindings of the adaptor stay as they were: none is
    built for the node.  The translation of the topology never succeeds: it
    ends in that naming error once the nodes sorted before this one are
    translated, and otherwise in the exception with which one of those
    stopped it. *)
Theorem underscore_raises_naming_error :
  forall (tpl : ToscaTemplate) (node : NodeTemplate) (msg : string)
         (self : KubernetesAdaptor),
  In node (nodetemplates tpl) ->
  naming_violation node = Some msg ->
  (forall reached : KubernetesAdaptor,
     translate_node (repositories tpl) node reached
       = (throw (ValueError msg), logging ERROR msg reached) /\
     manifests (logging ERROR msg reached) = manifests reached /\
     volumes (logging ERROR msg reached) = volumes reached) /\
  exists pre post : list NodeTemplate,
    sorted_by_type (nodetemplates tpl) = (pre ++ node :: post)%list /\
    match visit (repositories tpl) pre (started self) with
    | (inr _, reached) =>
        translate tpl self = (throw (ValueError msg), logging ERROR msg reached)
    | (inl e, reached) => translate tpl self = (throw e, reached)
    end.
Proof.
  intros tpl node msg self Hin Hbad. split.
  - intro reached. split; [ | split; reflexivity].
    apply translate_node_naming_error. exact Hbad.
  - destruct (in_split node (sorted_by_type (nodetemplates tpl))
                (In_sorted_by_type node (nodetemplates tpl) Hin))
      as (pre & post & Hsorted).
    exists pre, post. split; [exact Hsorted | ].
    destruct (visit (repositories tpl) pre (started self)) as [[e | []] reached] eqn:Hpre.
    + exact (translate_aborted tpl pre (node :: post) self e reached Hsorted Hpre).
    + exact (translate_naming_error tpl pre node post msg self reached Hbad Hsorted Hpre).
Qed.

(** The volume node whose [name] property is [my_volume] is sorted before
    the container node [web]: the translation ends in its naming error. *)
Lemma underscore_raises_naming_error_witness :
  (forall reached : KubernetesAdaptor,
     translate_node docker_hub my_volume reached
       = (throw (ValueError "ERROR: Use of underscores in my_volume volume name prohibited"),
          logging ERROR "ERROR: Use of underscores in my_volume volume name prohibited"
            reached) /\
     manifests
       (logging ERROR "ERROR: Use of underscores in my_volume volume name prohibited" reached)
       = manifests reached /\
     volumes
       (logging ERROR "ERROR: Use of underscores in my_volume volume name prohibited" reached)
       = volumes reached) /\
  exists pre post : list NodeTemplate,
    sorted_by_type [web; my_volume] = (pre ++ my_volume :: post)%list /\
    match visit docker_hub pre (started (init "app")) with
    | (inr _, reached) =>
        translate (topology [web; my_volume]) (init "app")
        = (throw (ValueError "ERROR: Use of underscores in my_volume volume name prohibited"),
           logging ERROR "ERROR: Use of underscores in my_volume volume name prohibited"
             reached)
    | (inl e, reached) =>
        translate (topology [web; my_volume]) (init "app") = (throw e, reached)
    end.
Proof.
  apply (underscore_raises_naming_error (topology [web; my_volume]) my_volume
           "ERROR: Use of underscores in my_volume volume name prohibited"
           (init "app")).
  - simpl. right. left. reflexivity.
  - reflexivity.
Defined.

(** The same for a workload node, alone in its topology. *)
Example my_app_raises_naming_error :
  translate (topology [container "my_app" VNone []]) (init "app")
    = (throw (ValueError "ERROR: Use of underscores in my_app workload name prohibited"),
       logging ERROR "ERROR: Use of underscores in my_app workload name prohibited"
         (started (init "app"))).
Proof. reflexivity. Qed.

(** C10.  The naming check comes before the check of the kind.  A
    container-application node with a Kubernetes operation and an
    underscore in its name raises the naming error whatever kind its create
    inputs ask for, an unsupported one included; without the underscore, a
    node of kind ReplicaSet is passed over with a warning and no error. *)
Theorem naming_check_precedes_kind_check :
  forall (repositories : list Repository) (node : NodeTemplate)
         (inputs : dict) (kind : value) (self : KubernetesAdaptor),
  contains DOCKER_CONTAINER (type node) = true ->
  lookup "create" (kube_interface node) = Some (VDict inputs) ->
  lookup "kind" inputs = Some kind ->
  existsb (eq_str kind) SUPPORTED_WORKLOADS = false ->
  contains "_" (name node) = true ->
  translate_node repositories node self
    = (throw (ValueError (workload_naming_error (name node))),
       logging ERROR (workload_naming_error (name node)) self) /\
  translate_node repositories (container "myapp" replica_set []) self
    = (ok tt, logging WARNING (unsupported_kind_warning "ReplicaSet") self).
Proof.
  intros repositories node inputs kind self Htype Hcreate _ _ Hname.
  split; [ | reflexivity].
  apply translate_node_naming_error.
  unfold naming_violation, is_workload. rewrite Htype, Hname.
  destruct (kube_interface node); [discriminate | reflexivity].
Qed.

(** The node [my_app] of kind ReplicaSet raises the naming error. *)
Lemma naming_check_precedes_kind_check_witness :
  translate_node docker_hub (container "my_app" replica_set []) (init "app")
    = (throw (ValueError "ERROR: Use of underscores in my_app workload name prohibited"),
       logging ERROR "ERROR: Use of underscores in my_app workload name prohibited"
         (init "app")) /\
  translate_node docker_hub (container "myapp" replica_set []) (init "app")
    = (ok tt, logging WARNING (unsupported_kind_warning "ReplicaSet") (init "app")).
Proof.
  apply (naming_check_precedes_kind_check docker_hub
           (container "my_app" replica_set [])
           ["kind" =: VStr "ReplicaSet"] (VStr "ReplicaSet") (init "app"));
    reflexivity.
Defined.

(* ================================================================== *)
(** * Further properties *)
(* ================================================================== *)

Import Files Notions.

(** ** What a computation leaves of the adaptor *)

Section Keeps.

Variable R : KubernetesAdaptor -> KubernetesAdaptor -> Prop.
Hypothesis R_refl : forall self, R self self.
Hypothesis R_trans : forall a b c, R a b -> R b c -> R a c.

Lemma keeps_ret : forall {A} (a : A), keeps R (ret a).
Proof. intros A a self r self' H. injection H as _ <-. apply R_refl. Qed.

Lemma keeps_raise : forall {A} (e : exception), keeps R (@raise A e).
Proof. intros A e self r self' H. injection H as _ <-. apply R_refl. Qed.

Lemma keeps_lift : forall {A} (x : res A), keeps R (lift x).
Proof. intros A x self r self' H. injection H as _ <-. apply R_refl. Qed.

Lemma keeps_this : keeps R this.
Proof. intros self r self' H. injection H as _ <-. apply R_refl. Qed.

Lemma keeps_bind : forall {A B} (m : M A) (k : A -> M B),
  keeps R m -> (forall a, keeps R (k a)) -> keeps R (bind m k).
Proof.
  intros A B m k Hm Hk self r self' H. unfold bind in H.
  destruct (m self) as [[e | a] reached] eqn:Hrun.
  - injection H as _ <-. exact (Hm _ _ _ Hrun).
  - exact (R_trans _ _ _ (Hm _ _ _ Hrun) (Hk a _ _ _ H)).
Qed.

Lemma keeps_for_each : forall {A S} (body : A -> S -> M S) (xs : list A) (s : S),
  (forall x s, keeps R (body x s)) -> keeps R (for_each xs body s).
Proof.
  intros A S body xs. induction xs as [ | x xs IH]; intros s Hbody; simpl.
  - apply keeps_ret.
  - apply keeps_bind; [apply Hbody | intro s'; apply IH; exact Hbody].
Qed.

End Keeps.

Lemma only_logged_refl : forall self, only_logged self self.
Proof.
  intro self. repeat split. exists []. symmetry. apply app_nil_r.
Qed.

Lemma only_logged_trans : forall a b c,
  only_logged a b -> only_logged b c -> only_logged a c.
Proof.
  intros a b c (Hi & Hs & Hm & Hv & Hb & Hd & r1 & Hr1)
    (Hi' & Hs' & Hm' & Hv' & Hb' & Hd' & r2 & Hr2).
  repeat split; try congruence.
  exists (r1 ++ r2)%list. rewrite Hr2, Hr1. symmetry. apply app_assoc.
Qed.

Lemma only_added_refl : forall self, only_added self self.
Proof.
  intro self. repeat split; try (exists []; symmetry; apply app_nil_r). trivial.
Qed.

Lemma only_added_trans : forall a b c,
  only_added a b -> only_added b c -> only_added a c.
Proof.
  intros a b c (Hi & (m1 & Hm1) & (s1 & Hs1) & Hv & r1 & Hr1)
    (Hi' & (m2 & Hm2) & (s2 & Hs2) & Hv' & r2 & Hr2).
  split; [congruence | ].
  split; [exists (m1 ++ m2)%list; rewrite Hm2, Hm1; symmetry; apply app_assoc | ].
  split; [exists (s1 ++ s2)%list; rewrite Hs2, Hs1; symmetry; apply app_assoc | ].
  split; [intros k v H; apply Hv', Hv, H | ].
  exists (r1 ++ r2)%list. rewrite Hr2, Hr1. symmetry. apply app_assoc.
Qed.

Lemma only_added_quietly_refl : forall self, only_added_quietly self self.
Proof. intro self. split; [apply only_added_refl | split; reflexivity]. Qed.

Lemma only_added_quietly_trans : forall a b c,
  only_added_quietly a b -> only_added_quietly b c -> only_added_quietly a c.
Proof.
  intros a b c (H1 & Hs1 & Hd1) (H2 & Hs2 & Hd2).
  split; [exact (only_added_trans _ _ _ H1 H2) | split; congruence].
Qed.

Lemma only_logged_added : forall self self',
  only_logged self self' -> only_added_quietly self self'.
Proof.
  intros self self' (Hi & Hs & Hm & Hv & Hb & Hd & Hr).
  split; [ | split; assumption].
  split; [exact Hi | ].
  split; [exists []; rewrite Hm; symmetry; apply app_nil_r | ].
  split; [exists []; rewrite Hv; symmetry; apply app_nil_r | ].
  split; [rewrite Hb; trivial | exact Hr].
Qed.

Lemma keeps_weaken : forall {A} (m : M A),
  keeps only_logged m -> keeps only_added_quietly m.
Proof.
  intros A m H self r self' Hrun. apply only_logged_added. exact (H _ _ _ Hrun).
Qed.

Lemma log_only_logs : forall lvl msg, keeps only_logged (log lvl msg).
Proof.
  intros lvl msg self r self' H. injection H as _ <-.
  repeat split. eexists. reflexivity.
Qed.

Lemma log_adds : forall lvl msg, keeps only_added_quietly (log lvl msg).
Proof. intros. apply keeps_weaken, log_only_logs. Qed.

Lemma append_manifest_adds : forall m, keeps only_added_quietly (append_manifest m).
Proof.
  intros m self r self' H. injection H as _ <-.
  split; [ | split; reflexivity].
  split; [reflexivity | ].
  split; [eexists; reflexivity | ].
  split; [exists []; symmetry; apply app_nil_r | ].
  split; [trivial | exists []; symmetry; apply app_nil_r].
Qed.

Lemma append_service_adds : forall s, keeps only_added_quietly (append_service s).
Proof.
  intros s self r self' H. injection H as _ <-.
  split; [ | split; reflexivity].
  split; [reflexivity | ].
  split; [exists []; symmetry; apply app_nil_r | ].
  split; [eexists; reflexivity | ].
  split; [trivial | exists []; symmetry; apply app_nil_r].
Qed.

Lemma bind_volume_adds : forall k v, keeps only_added_quietly (bind_volume k v).
Proof.
  intros k v self r self' H. injection H as _ <-.
  split; [ | split; reflexivity].
  split; [reflexivity | ].
  split; [exists []; symmetry; apply app_nil_r | ].
  split; [exists []; symmetry; apply app_nil_r | ].
  split; [ | exists []; symmetry; apply app_nil_r].
  intros k' v' Hk. cbn [volumes]. apply lookup_dsetdefault_some. exact Hk.
Qed.

Create HintDb logs.
Create HintDb adds.
#[local] Hint Resolve log_only_logs : logs.
#[local] Hint Resolve log_adds append_manifest_adds append_service_adds
  bind_volume_adds : adds.

(** The steps of a proof that a function of the adaptor keeps a relation:
    through its sequences, loops and branches down to the calls, which
    [leaf] settles. *)
Ltac keeps_steps refl trans leaf :=
  repeat first
    [ apply (keeps_ret _ refl)
    | apply (keeps_raise _ refl)
    | apply (keeps_lift _ refl)
    | apply (keeps_this _ refl)
    | leaf
    | apply (keeps_bind _ trans); [ | intro ]
    | apply (keeps_for_each _ refl trans); intros
    | progress cbv beta zeta
    | match goal with
      | |- keeps _ (if ?c then _ else _) => destruct c
      | |- keeps _ (match ?x with _ => _ end) => destruct x
      | |- keeps _ ((match ?x with _ => _ end) _) => destruct x
      end ].

Ltac only_logs :=
  keeps_steps only_logged_refl only_logged_trans ltac:(solve [auto 1 with logs nocore]).

Ltac only_adds :=
  keeps_steps only_added_quietly_refl only_added_quietly_trans
    ltac:(solve [auto 1 with adds nocore]).

Lemma _get_api_only_logs : forall kind, keeps only_logged (_get_api kind).
Proof. intro kind. unfold _get_api. only_logs. Qed.
#[local] Hint Resolve _get_api_only_logs : logs.

Lemma _build_port_spec_only_logs : forall port node_name,
  keeps only_logged (_build_port_spec port node_name).
Proof. intros. unfold _build_port_spec. only_logs. Qed.
#[local] Hint Resolve _build_port_spec_only_logs : logs.

Lemma _get_service_info_only_logs : forall container node_name,
  keeps only_logged (_get_service_info container node_name).
Proof. intros. unfold _get_service_info. only_logs. Qed.
#[local] Hint Resolve _get_service_info_only_logs : logs.

Lemma _get_image_only_logs : forall node repositories,
  keeps only_logged (_get_image node repositories).
Proof. intros. unfold _get_image. only_logs. Qed.
#[local] Hint Resolve _get_image_only_logs : logs.

Lemma _get_container_only_logs : forall node properties repositories inputs,
  keeps only_logged (_get_container node properties repositories inputs).
Proof. intros. unfold _get_container. only_logs. Qed.
#[local] Hint Resolve _get_container_only_logs : logs.

Lemma _build_service_only_logs : forall service_name service resource node_name inputs,
  keeps only_logged (_build_service service_name service resource node_name inputs).
Proof. intros. unfold _build_service. only_logs. Qed.
#[local] Hint Resolve _build_service_only_logs : logs.

Lemma _get_resource_only_logs : forall name inputs kind,
  keeps only_logged (_get_resource name inputs kind).
Proof. intros. unfold _get_resource. only_logs. Qed.
#[local] Hint Resolve _get_resource_only_logs : logs.

Lemma _get_volumes_only_logs : forall node, keeps only_logged (_get_volumes node).
Proof. intros. unfold _get_volumes. only_logs. Qed.
#[local] Hint Resolve _get_volumes_only_logs : logs.

#[local] Hint Extern 1 (keeps only_added_quietly _) =>
  (apply keeps_weaken; solve [auto 1 with logs nocore]) : adds.

Lemma _create_persistent_volume_adds : forall name inputs size,
  keeps only_added_quietly (_create_persistent_volume name inputs size).
Proof. intros. unfold _create_persistent_volume. only_adds. Qed.
#[local] Hint Resolve _create_persistent_volume_adds : adds.

Lemma _create_persistent_volume_claim_adds : forall name inputs labels size,
  keeps only_added_quietly (_create_persistent_volume_claim name inputs labels size).
Proof. intros. unfold _create_persistent_volume_claim. only_adds. Qed.
#[local] Hint Resolve _create_persistent_volume_claim_adds : adds.

Lemma _get_service_manifests_adds : forall node container resource inputs,
  keeps only_added_quietly (_get_service_manifests node container resource inputs).
Proof. intros. unfold _get_service_manifests. only_adds. Qed.
#[local] Hint Resolve _get_service_manifests_adds : adds.

Lemma _create_manifests_adds : forall node interface repositories,
  keeps only_added_quietly (_create_manifests node interface repositories).
Proof. intros. unfold _create_manifests. only_adds. Qed.
#[local] Hint Resolve _create_manifests_adds : adds.

Lemma translate_node_adds : forall repositories node,
  keeps only_added_quietly (translate_node repositories node).
Proof. intros. unfold translate_node. only_adds. Qed.

Lemma visit_adds : forall repositories nodes,
  keeps only_added_quietly (visit repositories nodes).
Proof.
  intros. unfold visit.
  apply (keeps_for_each _ only_added_quietly_refl only_added_quietly_trans).
  intros. apply translate_node_adds.
Qed.

(** [translate] as its loop and what follows it. *)
Lemma translate_unfold : forall tpl self,
  translate tpl self
  = match visit (repositories tpl) (sorted_by_type (nodetemplates tpl)) (started self) with
    | (inl e, reached) => (inl e, reached)
    | (inr _, reached) =>
        match manifests reached with
        | [] =>
            set_status "Skipped Translation"
              (logging INFO "No nodes to orchestrate with Kubernetes" reached)
        | _ :: _ =>
            set_status "Translated"
              (logging INFO "Translation complete" (snd (dump_list_yaml reached)))
        end
    end.
Proof.
  intros tpl self. unfold translate.
  rewrite (bind_run (log INFO "Translating into Kubernetes Manifests") _ self tt
             (logging INFO "Translating into Kubernetes Manifests" self) eq_refl).
  rewrite (bind_run (set_status "Translating...") _ _ tt (started self) eq_refl).
  unfold bind at 1.
  change (for_each (sorted_by_type (nodetemplates tpl))
            (fun node (_ : unit) => translate_node (repositories tpl) node) tt)
    with (visit (repositories tpl) (sorted_by_type (nodetemplates tpl))).
  destruct (visit (repositories tpl) (sorted_by_type (nodetemplates tpl)) (started self))
    as [[e | u] reached]; [reflexivity | ].
  unfold bind, this, ok. cbv beta iota. destruct (manifests reached); reflexivity.
Qed.


(** X2.  How [translate] leaves the adaptor.  When it returns and there
    is no manifest, the status is [Skipped Translation] and no file is
    written.  When it returns and there are manifests, the status is
    [Translated] and all of them have gone to the YAML dumper under the
    path [<application id>.yaml].  When a node raises, the status is still
    [Translating...] and no file is written. *)
Theorem translate_outcome : forall (tpl : ToscaTemplate) (self : KubernetesAdaptor),
  match translate tpl self with
  | (inr _, self') =>
      match manifests self' with
      | [] => status self' = "Skipped Translation" /\ dumped self' = dumped self
      | _ :: _ =>
          status self' = "Translated" /\
          dumped self' = Some (short_id self ++ ".yaml", manifests self')
      end
  | (inl _, self') => status self' = "Translating..." /\ dumped self' = dumped self
  end.
Proof.
  intros tpl self. rewrite translate_unfold.
  destruct (visit (repositories tpl) (sorted_by_type (nodetemplates tpl)) (started self))
    as [[e | u] reached] eqn:Hvisit;
    apply visit_adds in Hvisit;
    destruct Hvisit as ((Hid & _) & Hstatus & Hdumped);
    cbn in Hid, Hstatus, Hdumped.
  - split; assumption.
  - destruct (manifests reached) as [ | m0 ms] eqn:Hms; cbn; rewrite Hms.
    + split; [reflexivity | exact Hdumped].
    + split; [reflexivity | ]. unfold manifest_path. rewrite Hid. reflexivity.
Qed.

(** The loop body passes over a node without an operation of the
    Kubernetes interface. *)
Lemma translate_node_ignores : forall repositories node self,
  kube_interface node = [] -> translate_node repositories node self = (ok tt, self).
Proof.
  intros repositories node self H. unfold translate_node. rewrite H.
  cbn [truthy]. rewrite !andb_false_r. reflexivity.
Qed.

Lemma visit_ignores : forall repositories nodes self,
  (forall node, In node nodes -> kube_interface node = []) ->
  visit repositories nodes self = (ok tt, self).
Proof.
  intros repositories nodes self. induction nodes as [ | node nodes IH]; intro H.
  - reflexivity.
  - unfold visit. simpl. unfold bind.
    rewrite (translate_node_ignores _ _ _ (H node (or_introl eq_refl))).
    apply IH. intros n Hn. apply H. right. exact Hn.
Qed.

Lemma In_sorted_by_type_inv : forall (x : NodeTemplate) (l : list NodeTemplate),
  In x (sorted_by_type l) -> In x l.
Proof.
  intros x l. induction l as [ | y l IH]; simpl; [trivial | ].
  intro H. apply In_insert_by_type in H. destruct H as [-> | H]; auto.
Qed.



(** X4.  A workload node whose name has no underscore and whose resource
    is of a kind outside [SUPPORTED_WORKLOADS], whatever the kind: the loop
    body of [translate] returns normally, the warning that the kind is
    unsupported is the last record, and the manifests, the services and
    the volume bindings are those of before.  Nothing of the node is looked
    at after its kind, not even its image. *)
Theorem unsupported_kind_is_skipped :
  forall (repositories : list Repository) (node : NodeTemplate)
         (self reached : KubernetesAdaptor) (resource workload_inputs kind : value),
  is_workload node = true ->
  contains "_" (name node) = false ->
  _get_resource (VStr (name node)) (dget (kube_interface node) "create" (VDict []))
    "Deployment" self = (ok (resource, workload_inputs), reached) ->
  at_path ["kind"] resource = Some kind ->
  existsb (eq_str kind) SUPPORTED_WORKLOADS = false ->
  translate_node repositories node self
    = (ok tt, logging WARNING (unsupported_kind_warning kind) reached) /\
  manifests (logging WARNING (unsupported_kind_warning kind) reached) = manifests self /\
  services (logging WARNING (unsupported_kind_warning kind) reached) = services self /\
  volumes (logging WARNING (unsupported_kind_warning kind) reached) = volumes self.
Proof.
  intros repositories node self reached resource workload_inputs kind
    Hworkload Hname Hresource Hkind Hunsupported.
  destruct (_get_resource_only_logs _ _ _ _ _ _ Hresource)
    as (_ & _ & Hm & Hs & Hv & _).
  split; [ | repeat split; assumption].
  unfold translate_node. unfold is_workload in Hworkload.
  rewrite Hworkload, Hname. unfold _create_manifests.
  rewrite (bind_run _ _ _ _ _ Hresource). cbv beta iota.
  destruct (_get_resource_ok _ _ _ _ _ _ _ Hresource)
    as (api & kind' & md & labels & -> & _).
  cbn in Hkind. injection Hkind as ->.
  rewrite (bind_lift _ _ _ kind) by reflexivity.
  rewrite Hunsupported. reflexivity.
Qed.

Lemma unsupported_kind_is_skipped_witness :
  translate_node [] (web_without_image replica_set) (init "app")
    = (ok tt, logging WARNING (unsupported_kind_warning "ReplicaSet") (init "app")).
Proof.
  apply (unsupported_kind_is_skipped [] (web_without_image replica_set)
           (init "app") (init "app")
           (VDict ["apiVersion" =: VStr "apps/v1"; "kind" =: VStr "ReplicaSet";
                   "metadata" =: VDict ["name" =: VStr "web";
                                        "labels" =: VDict ["app" =: VStr "app"]]])
           (VDict []) (VStr "ReplicaSet")); reflexivity.
Defined.

(** ** The order of the visit *)

Lemma leb_refl : forall s : string, (s <=? s)%string = true.
Proof. intro s. destruct (String.leb_total s s); assumption. Qed.

Lemma ascii_compare_trans : forall (a b c : ascii) (o : comparison),
  Ascii.compare a b = o -> Ascii.compare b c = o -> Ascii.compare a c = o.
Proof.
  intros a b c o. unfold Ascii.compare.
  destruct o; intros H1 H2.
  - apply N.compare_eq_iff in H1, H2. apply N.compare_eq_iff. congruence.
  - apply N.compare_lt_iff in H1, H2. apply N.compare_lt_iff.
    exact (N.lt_trans _ _ _ H1 H2).
  - apply N.compare_gt_iff in H1, H2. apply N.compare_gt_iff.
    exact (N.lt_trans _ _ _ H2 H1).
Qed.

Lemma leb_trans : forall s1 s2 s3 : string,
  (s1 <=? s2)%string = true -> (s2 <=? s3)%string = true -> (s1 <=? s3)%string = true.
Proof.
  unfold String.leb.
  induction s1 as [ | a s1 IH]; intros [ | b s2] [ | c s3]; simpl; try easy.
  destruct (Ascii.compare a b) eqn:Hab; try easy;
    destruct (Ascii.compare b c) eqn:Hbc; try easy.
  - rewrite (ascii_compare_trans a b c Eq Hab Hbc). apply IH.
  - apply Ascii.compare_eq_iff in Hab. subst. rewrite Hbc. trivial.
  - apply Ascii.compare_eq_iff in Hbc. subst. rewrite Hab. trivial.
  - rewrite (ascii_compare_trans a b c Lt Hab Hbc). trivial.
Qed.

Lemma insert_by_type_sorted : forall (x : NodeTemplate) (l : list NodeTemplate),
  StronglySorted not_before l -> StronglySorted not_before (insert_by_type x l).
Proof.
  intros x l Hl. induction Hl as [ | y l Hl IH Hall]; simpl.
  - constructor; constructor.
  - destruct (type y <=? type x)%string eqn:Hyx.
    + constructor; [constructor; assumption | ].
      constructor; [exact Hyx | ].
      apply Forall_forall. intros z Hz.
      unfold not_before. apply leb_trans with (type y); [ | exact Hyx].
      exact (proj1 (Forall_forall _ _) Hall z Hz).
    + constructor; [exact IH | ].
      apply Forall_forall. intros z Hz. apply In_insert_by_type in Hz.
      destruct Hz as [<- | Hz].
      * unfold not_before.
        destruct (String.leb_total (type x) (type y)) as [H | H];
          [exact H | congruence].
      * exact (proj1 (Forall_forall _ _) Hall z Hz).
Qed.

Lemma insert_by_type_perm : forall (x : NodeTemplate) (l : list NodeTemplate),
  Permutation (x :: l) (insert_by_type x l).
Proof.
  intros x l. induction l as [ | y l IH]; simpl.
  - apply Permutation_refl.
  - destruct (type y <=? type x)%string.
    + apply Permutation_refl.
    + apply perm_trans with (y :: x :: l); [apply perm_swap | ].
      apply perm_skip. exact IH.
Qed.

Lemma insert_by_type_stable : forall (t : string) (x : NodeTemplate)
    (l : list NodeTemplate),
  of_type t (insert_by_type x l) = of_type t (x :: l).
Proof.
  intros t x l. induction l as [ | y l IH]; [reflexivity | ].
  simpl. destruct (type y <=? type x)%string eqn:Hyx; [reflexivity | ].
  unfold of_type in *. simpl in *. rewrite IH.
  destruct (type y =? t) eqn:Hy; [ | reflexivity].
  destruct (type x =? t) eqn:Hx; [ | reflexivity].
  apply String.eqb_eq in Hy, Hx. rewrite Hy, Hx, leb_refl in Hyx. discriminate.
Qed.

(** X5.  The order in which [translate] visits the nodes,
    [sorted(nodes, key=lambda x: x.type, reverse=True)]: the visit is over
    the nodes of the template, each as often as it is there; no node comes
    before a node of a greater type; and the nodes of one type are visited
    in the order of the template. *)
Theorem sorted_by_type_sorts : forall nodes : list NodeTemplate,
  Permutation nodes (sorted_by_type nodes) /\
  StronglySorted not_before (sorted_by_type nodes) /\
  forall t : string, of_type t (sorted_by_type nodes) = of_type t nodes.
Proof.
  intro nodes. induction nodes as [ | x nodes (Hperm & Hsorted & Hstable)].
  - repeat split; constructor.
  - simpl. split; [ | split].
    + apply perm_trans with (x :: sorted_by_type nodes);
        [apply perm_skip; exact Hperm | apply insert_by_type_perm].
    + apply insert_by_type_sorted. exact Hsorted.
    + intro t. rewrite insert_by_type_stable. unfold of_type in *. simpl.
      rewrite Hstable. reflexivity.
Qed.

Lemma sorted_by_type_sorted : forall nodes : list NodeTemplate,
  StronglySorted not_before (sorted_by_type nodes).
Proof.
  intro nodes. induction nodes as [ | x nodes IH]; cbn [sorted_by_type fold_right].
  - constructor.
  - apply insert_by_type_sorted. exact IH.
Qed.

Lemma StronglySorted_tail : forall {A} (R : A -> A -> Prop) (pre post : list A),
  StronglySorted R (pre ++ post) -> StronglySorted R post.
Proof.
  intros A R pre post. induction pre as [ | x pre IH]; cbn [app]; [trivial | ].
  intro H. apply StronglySorted_inv in H as [H _]. exact (IH H).
Qed.

(** X6.  When the visit of [translate] reaches a node of the container
    type, every node of the template of the volume type has been visited
    before: the volume bindings that [_get_volumes] reads for the
    container are those of all the volumes of the template. *)
Theorem volumes_are_visited_before_containers :
  forall (nodes pre post : list NodeTemplate) (a b : NodeTemplate),
  sorted_by_type nodes = (pre ++ a :: post)%list ->
  Tosca.type a = DOCKER_CONTAINER ->
  In b nodes ->
  Tosca.type b = CONTAINER_VOLUME ->
  In b pre.
Proof.
  intros nodes pre post a b Hsorted Ha Hin Hb.
  pose proof (sorted_by_type_sorted nodes) as Horder.
  apply In_sorted_by_type in Hin. rewrite Hsorted in Hin, Horder.
  apply in_app_or in Hin as [Hin | [Heq | Hin]]; [exact Hin | | ].
  - subst b. rewrite Ha in Hb. discriminate Hb.
  - apply StronglySorted_tail, StronglySorted_inv in Horder as [_ Hall].
    rewrite Forall_forall in Hall. specialize (Hall b Hin).
    unfold not_before in Hall. rewrite Ha, Hb in Hall. discriminate Hall.
Qed.

Lemma volumes_are_visited_before_containers_witness :
  sorted_by_type [web; data] = [data; web] /\ In data [data].
Proof.
  split; [reflexivity | ].
  apply (volumes_are_visited_before_containers [web; data] [data] [] web data);
    try reflexivity.
  right. left. reflexivity.
Defined.

(** ** The apiVersion of a kind *)

Lemma find_none_iff : forall {A} (f : A -> bool) (l : list A),
  (forall x, In x l -> f x = false) -> find f l = None.
Proof.
  intros A f l. induction l as [ | y l IH]; intro H; [reflexivity | ].
  simpl. rewrite (H y (or_introl eq_refl)). apply IH.
  intros x Hx. apply H. right. exact Hx.
Qed.

(** X7.  [_get_api] compares the kind with the known kinds in lower case:
    a kind that is one of the known kinds up to the case of its letters
    gets the apiVersion of that kind, and nothing is logged; any other
    kind gets [unknown], with a warning that names the kind as it was
    given. *)
Theorem _get_api_ignores_case : forall (k : string) (self : KubernetesAdaptor),
  (forall r a, In (r, a) api_versions -> lower k = lower r ->
     _get_api (VStr k) self = (ok (VStr a), self)) /\
  ((forall r a, In (r, a) api_versions -> lower k <> lower r) ->
     _get_api (VStr k) self
     = (ok (VStr "unknown"), logging WARNING (unknown_kind_warning k) self)).
Proof.
  intros k self. split.
  - intros r a Hin Hlower. unfold _get_api.
    rewrite (bind_lift _ _ _ k) by reflexivity. rewrite Hlower.
    simpl in Hin.
    repeat (destruct Hin as [Heq | Hin]; [injection Heq as <- <-; reflexivity | ]).
    destruct Hin.
  - intro Hother. unfold _get_api.
    rewrite (bind_lift _ _ _ k) by reflexivity.
    rewrite find_none_iff; [reflexivity | ].
    intros [r a] Hin. apply String.eqb_neq. exact (Hother r a Hin).
Qed.

Lemma _get_api_ignores_case_witness :
  _get_api (VStr "STATEFULSET") (init "app") = (ok (VStr "apps/v1"), init "app") /\
  _get_api (VStr "CronJob") (init "app")
  = (ok (VStr "unknown"), logging WARNING (unknown_kind_warning "CronJob") (init "app")).
Proof.
  destruct (_get_api_ignores_case "STATEFULSET" (init "app")) as [Hknown _].
  destruct (_get_api_ignores_case "CronJob" (init "app")) as [_ Hunknown].
  split.
  - apply (Hknown "StatefulSet" "apps/v1"); [simpl; tauto | reflexivity].
  - apply Hunknown. intros r a Hin. simpl in Hin.
    repeat (destruct Hin as [Heq | Hin]; [injection Heq as <- <-; discriminate | ]).
    destruct Hin.
Defined.

(** ** The image of an artifact *)

Lemma at_path_cons : forall (k : string) (p : list string) (v r : value),
  at_path (k :: p) v = Some r ->
  exists d v', v = VDict d /\ lookup k d = Some v' /\ at_path p v' = Some r.
Proof.
  intros k p v r H. destruct v; simpl in H; try discriminate.
  destruct (lookup k items) as [v' | ] eqn:Hk; [ | discriminate].
  exists items, v'. repeat split; assumption.
Qed.

Lemma filter_find : forall {A} (f : A -> bool) (l : list A),
  match find f l with
  | Some x => exists rest, filter f l = x :: rest
  | None => filter f l = []
  end.
Proof.
  intros A f l. induction l as [ | y l IH]; simpl; [reflexivity | ].
  destruct (f y); [eexists; reflexivity | exact IH].
Qed.

(** What [_get_image] reads of the artifact. *)
Lemma image_artifact : forall (node file repo : value),
  at_path ["artifacts"; "image"; "file"] node = Some file ->
  at_path ["artifacts"; "image"; "repository"] node = Some repo ->
  exists details,
    (a <-? get node "artifacts" (VDict []) ;; get a "image" (VDict []))%res
      = ok details /\
    get details "file" VNone = ok file /\
    get details "repository" VNone = ok repo.
Proof.
  intros node file repo Hfile Hrepo.
  apply at_path_cons in Hfile as (d & artifacts & -> & Hartifacts & Hfile).
  apply at_path_cons in Hfile as (a & image & -> & Himage & Hfile).
  apply at_path_cons in Hfile as (i & file' & -> & Hfile & [= ->]).
  cbn [at_path] in Hrepo. rewrite Hartifacts in Hrepo.
  cbn [at_path] in Hrepo. rewrite Himage in Hrepo. cbn [at_path] in Hrepo.
  destruct (lookup "repository" i) as [repo' | ] eqn:Hr; [ | discriminate].
  injection Hrepo as ->.
  exists (VDict i). cbn [get hashable rbind ok]. unfold dget.
  rewrite Hartifacts. cbn [rbind get hashable ok]. unfold dget.
  rewrite Himage, Hfile, Hr. repeat split.
Qed.

(** X8.  An image artifact whose repository is Docker Hub, under any
    spelling that is [dockerhub] once in lower case and without spaces,
    hyphens and underscores: with a repository list that is not empty,
    [_get_image] returns the [file] of the artifact as it is, and logs
    nothing. *)
Theorem docker_hub_image_is_verbatim :
  forall (node : value) (repositories : list Repository) (file : value)
         (repo : string) (self : KubernetesAdaptor),
  at_path ["artifacts"; "image"; "file"] node = Some file ->
  at_path ["artifacts"; "image"; "repository"] node = Some (VStr repo) ->
  truthy file = true ->
  normalised repo = "dockerhub" ->
  repositories <> [] ->
  _get_image node repositories self = (ok file, self).
Proof.
  intros node repositories file repo self Hfile Hrepo Htruthy Hhub Hrepos.
  destruct (image_artifact _ _ _ Hfile Hrepo) as (details & Hdetails & Hf & Hr).
  unfold _get_image.
  rewrite (bind_lift _ _ _ details Hdetails).
  rewrite (bind_lift _ _ _ file Hf), (bind_lift _ _ _ (VStr repo) Hr).
  rewrite Htruthy.
  assert (Hrepo_truthy : truthy (VStr repo) = true).
  { destruct repo; [discriminate Hhub | reflexivity]. }
  rewrite Hrepo_truthy.
  destruct repositories as [ | x repositories]; [contradiction | ].
  cbn [negb orb].
  rewrite (bind_lift _ _ _ repo) by reflexivity.
  fold (normalised repo). rewrite Hhub. reflexivity.
Qed.

Lemma docker_hub_image_is_verbatim_witness :
  _get_image
    (VDict ["artifacts" =:
              VDict ["image" =: VDict ["file" =: VStr "nginx:1.25";
                                       "repository" =: VStr "Docker-Hub"]]])
    docker_hub (init "app")
  = (ok (VStr "nginx:1.25"), init "app").
Proof.
  apply (docker_hub_image_is_verbatim _ docker_hub (VStr "nginx:1.25") "Docker-Hub"
           (init "app")); try reflexivity.
  discriminate.
Defined.

(** X9.  An image artifact whose repository is not Docker Hub and is
    named in the repository list: [_get_image] returns the address of the
    first repository of that name, without the slashes at its ends,
    followed by a slash and the [file] of the artifact, and logs nothing. *)
Theorem registry_image_is_prefixed :
  forall (node : value) (repositories : list Repository) (file repo url : string)
         (registry : Repository) (self : KubernetesAdaptor),
  at_path ["artifacts"; "image"; "file"] node = Some (VStr file) ->
  at_path ["artifacts"; "image"; "repository"] node = Some (VStr repo) ->
  file <> "" ->
  repo <> "" ->
  normalised repo <> "dockerhub" ->
  find (fun x => repo_name x =? repo) repositories = Some registry ->
  reposit registry = VStr url ->
  _get_image node repositories self
  = (ok (VStr (strip_char "/" url ++ "/" ++ file)), self).
Proof.
  intros node repositories file repo url registry self
    Hfile Hrepo Hfile_ne Hrepo_ne Hother Hfind Hurl.
  destruct (image_artifact _ _ _ Hfile Hrepo) as (details & Hdetails & Hf & Hr).
  unfold _get_image.
  rewrite (bind_lift _ _ _ details Hdetails).
  rewrite (bind_lift _ _ _ (VStr file) Hf), (bind_lift _ _ _ (VStr repo) Hr).
  cbn [truthy].
  apply String.eqb_neq in Hfile_ne, Hrepo_ne. rewrite Hfile_ne, Hrepo_ne.
  destruct repositories as [ | x repositories]; [discriminate Hfind | ].
  cbn [negb orb].
  rewrite (bind_lift _ _ _ repo) by reflexivity.
  fold (normalised repo). apply String.eqb_neq in Hother. rewrite Hother.
  cbn [negb].
  pose proof (filter_find (fun x => repo_name x =? repo) (x :: repositories))
    as Hfilter.
  rewrite Hfind in Hfilter. destruct Hfilter as (rest & ->).
  cbn [map]. rewrite Hurl.
  rewrite (bind_lift _ _ _ url) by reflexivity. reflexivity.
Qed.

Lemma registry_image_is_prefixed_witness :
  _get_image
    (VDict ["artifacts" =:
              VDict ["image" =: VDict ["file" =: VStr "team/api:2";
                                       "repository" =: VStr "internal"]]])
    [ {| repo_name := "docker_hub"; reposit := VStr "https://hub.docker.com/" |};
      {| repo_name := "internal"; reposit := VStr "/registry.example.org:5000/" |} ]
    (init "app")
  = (ok (VStr "registry.example.org:5000/team/api:2"), init "app").
Proof.
  apply (registry_image_is_prefixed _ _ "team/api:2" "internal"
           "/registry.example.org:5000/"
           {| repo_name := "internal"; reposit := VStr "/registry.example.org:5000/" |}
           (init "app")); try reflexivity; discriminate.
Defined.

(** ** Pod fields among the create inputs *)

Lemma lookup_absent : forall (k : string) (d : dict),
  ~ In (VStr k) (map fst d) -> lookup (VStr k) d = None.
Proof.
  intros k d. induction d as [ | [k0 v0] d IH]; simpl; [trivial | ].
  intro H. destruct (key_eqb k0 (VStr k)) eqn:Hk.
  - apply key_eqb_str in Hk. subst. exfalso. apply H. left. reflexivity.
  - apply IH. intro Hin. apply H. right. exact Hin.
Qed.

Lemma In_remove : forall (a k : value) (d : dict),
  In a (map fst (remove k d)) -> In a (map fst d).
Proof.
  intros a k d. induction d as [ | [k0 v0] d IH]; simpl; [trivial | ].
  destruct (key_eqb k0 k); simpl; [auto | ].
  intros [H | H]; auto.
Qed.

Lemma NoDup_remove : forall (k : value) (d : dict),
  NoDup (map fst d) -> NoDup (map fst (remove k d)).
Proof.
  intros k d. induction d as [ | [k0 v0] d IH]; simpl; [trivial | ].
  intro H. inversion H as [ | a l Hnotin Hnodup]; subst.
  destruct (key_eqb k0 k); [exact Hnodup | ].
  simpl. constructor; [ | apply IH; exact Hnodup].
  intro Hin. apply Hnotin. exact (In_remove _ _ _ Hin).
Qed.

Lemma lookup_remove_same : forall (k : string) (d : dict),
  NoDup (map fst d) -> lookup (VStr k) (remove (VStr k) d) = None.
Proof.
  intros k d. induction d as [ | [k0 v0] d IH]; simpl; [trivial | ].
  intro H. inversion H as [ | a l Hnotin Hnodup]; subst.
  destruct (key_eqb k0 (VStr k)) eqn:Hk.
  - apply key_eqb_str in Hk. subst. apply lookup_absent. exact Hnotin.
  - simpl. rewrite Hk. apply IH. exact Hnodup.
Qed.

(** The state of the loop of [_separate_data] once the keys [seen] are
    done: they are in [data] and out of [rest], the others the reverse. *)
Lemma _separate_data_loop :
  forall (d : dict) (key_names seen : list string) (data rest : dict),
  separated d seen data rest ->
  exists data' rest',
    fold_left
      (fun acc (x : string) =>
         ('(data, container) <-? acc ;;
          match container with
          | VDict d =>
              match lookup x d with
              | Some v => ok (set_item x v data, VDict (remove x d))
              | None => ok (data, container)
              end
          | VList _ => throw TypeError
          | _ => throw AttributeError
          end)%res)
      key_names (ok (data, VDict rest))
    = ok (data', VDict rest') /\
    separated d (seen ++ key_names)%list data' rest'.
Proof.
  intros d key_names. induction key_names as [ | x key_names IH];
    intros seen data rest Hsep.
  - exists data, rest. rewrite app_nil_r. split; [reflexivity | exact Hsep].
  - cbn [fold_left rbind ok].
    replace (seen ++ x :: key_names)%list with ((seen ++ [x]) ++ key_names)%list
      by (rewrite <- app_assoc; reflexivity).
    destruct Hsep as (Hnodup & Hkeys).
    destruct (lookup x rest) as [v | ] eqn:Hx.
    + apply IH. split; [apply NoDup_remove; exact Hnodup | ].
      intro k. destruct (string_dec k x) as [-> | Hneq].
      * split.
        -- intros _. rewrite lookup_set_item_same, lookup_remove_same by exact Hnodup.
           destruct (in_dec string_dec x seen) as [Hin | Hnotin].
           ++ destruct (proj1 (Hkeys x) Hin) as (_ & Hnone). congruence.
           ++ destruct (proj2 (Hkeys x) Hnotin) as (_ & Hsame).
              split; [congruence | reflexivity].
        -- intro Hnotin. exfalso. apply Hnotin. apply in_or_app. right. left.
           reflexivity.
      * assert (Hother : (x =? k) = false).
        { apply String.eqb_neq. intro H. apply Hneq. symmetry. exact H. }
        rewrite lookup_set_item_other, lookup_remove_other by exact Hother.
        split.
        -- intro Hin. apply in_app_or in Hin. destruct Hin as [Hin | [Hin | []]].
           ++ exact (proj1 (Hkeys k) Hin).
           ++ exfalso. apply Hneq. symmetry. exact Hin.
        -- intro Hnotin. apply (proj2 (Hkeys k)). intro Hin. apply Hnotin.
           apply in_or_app. left. exact Hin.
    + apply IH. split; [exact Hnodup | ].
      intro k. split.
      * intro Hin. apply in_app_or in Hin. destruct Hin as [Hin | [<- | []]].
        -- exact (proj1 (Hkeys k) Hin).
        -- destruct (in_dec string_dec x seen) as [Hseen | Hnotin].
           ++ exact (proj1 (Hkeys x) Hseen).
           ++ destruct (proj2 (Hkeys x) Hnotin) as (Hdata & Hsame).
              split; [congruence | exact Hx].
      * intro Hnotin. apply (proj2 (Hkeys k)). intro Hin. apply Hnotin.
        apply in_or_app. left. exact Hin.
Qed.

(** X10.  [_separate_data] on a dictionary never raises and splits it in
    two by the key names: every key that is named goes to the data with
    its value and is no longer in the container, and every other key stays
    in the container with its value and is not in the data. *)
Theorem _separate_data_splits : forall (key_names : list string) (d : dict),
  NoDup (map fst d) ->
  exists data rest,
    _separate_data key_names (VDict d) = ok (data, VDict rest) /\
    forall k : string,
      (In k key_names -> lookup k data = lookup k d /\ lookup k rest = None) /\
      (~ In k key_names -> lookup k data = None /\ lookup k rest = lookup k d).
Proof.
  intros key_names d Hnodup.
  destruct (_separate_data_loop d key_names [] [] d) as (data & rest & Hrun & Hsep).
  - split; [exact Hnodup | ]. intro k. split; [intros [] | ].
    intros _. split; reflexivity.
  - exists data, rest. split; [exact Hrun | ]. exact (proj2 Hsep).
Qed.

Lemma _separate_data_splits_witness :
  exists data rest,
    _separate_data POD_SPEC_FIELDS
      (VDict ["replicas" =: VInt 3; "nodeSelector" =: VDict ["disk" =: VStr "ssd"]])
    = ok (data, VDict rest) /\
    lookup "nodeSelector" data = Some (VDict ["disk" =: VStr "ssd"]) /\
    lookup "nodeSelector" rest = None /\
    lookup "replicas" data = None /\
    lookup "replicas" rest = Some (VInt 3).
Proof.
  destruct (_separate_data_splits POD_SPEC_FIELDS
              ["replicas" =: VInt 3; "nodeSelector" =: VDict ["disk" =: VStr "ssd"]])
    as (data & rest & Hrun & Hkeys).
  - repeat constructor; simpl; intuition discriminate.
  - exists data, rest. split; [exact Hrun | ].
    destruct (proj1 (Hkeys "nodeSelector")) as (H1 & H2); [simpl; tauto | ].
    destruct (proj2 (Hkeys "replicas")) as (H3 & H4);
      [simpl; intuition discriminate | ].
    repeat split; assumption.
Defined.

(** ** The volumes of a workload *)

(** A property of the variables of a loop and of the adaptor that every
    turn keeps is kept by the loop. *)
Lemma for_each_invariant : forall {A S} (P : S -> KubernetesAdaptor -> Prop)
    (body : A -> S -> M S) (xs : list A),
  (forall x s self s' self',
     In x xs -> P s self -> body x s self = (inr s', self') -> P s' self') ->
  forall s self s' self',
    P s self -> for_each xs body s self = (inr s', self') -> P s' self'.
Proof.
  intros A S P body xs. induction xs as [ | x xs IH];
    intros Hbody s self s' self' HP Hrun; simpl in Hrun.
  - apply ret_ok in Hrun as [-> ->]. exact HP.
  - bind_step Hrun s1 self1 Hx.
    refine (IH _ _ _ _ _ (Hbody _ _ _ _ _ (or_introl eq_refl) HP Hx) Hrun).
    intros y t reached t' reached' Hy. apply Hbody. right. exact Hy.
Qed.

(** [_get_volumes] reads the adaptor and leaves it as it is. *)
Lemma _get_volumes_reads : forall node, keeps eq (_get_volumes node).
Proof.
  intro node. unfold _get_volumes.
  keeps_steps (@eq_refl KubernetesAdaptor) (@eq_trans KubernetesAdaptor) fail.
Qed.

(** The mounts that the requirements give for one related node. *)
Lemma mounts_of_requirements :
  forall (node_name : string) (requirements : list value)
         (self self' : KubernetesAdaptor) (found : list value),
  for_each requirements
    (fun requirement volume_mount_list =>
       volume <~ get requirement "volume" (VDict []) ;;
       relationship <~ (r <-? get volume "relationship" (VDict []) ;;
                        get r "type" VNone)%res ;;
       path <~ (r <-? get volume "relationship" (VDict []) ;;
                q <-? get r "properties" (VDict []) ;;
                get q "location" VNone)%res ;;
       if truthy path && eq_str relationship VOLUME_ATTACHMENT then
         n <~ get volume "node" VNone ;;
         if eq_str n node_name then
           let volume_mount_spec :=
             VDict ["name" =: VStr node_name; "mountPath" =: path] in
           ret (volume_mount_list ++ [volume_mount_spec])%list
         else ret volume_mount_list
       else ret volume_mount_list)
    [] self = (inr found, self') ->
  forall m, In m found ->
    exists path, truthy path = true /\ m = mount_entry node_name path.
Proof.
  intros node_name requirements self self' found Hrun.
  refine (for_each_invariant
            (fun (l : list value) (_ : KubernetesAdaptor) =>
               forall m, In m l ->
                 exists path, truthy path = true /\ m = mount_entry node_name path)
            _ requirements _ [] self found self' _ Hrun).
  - intros requirement l s l' s' _ Hl Hturn.
    lift_step Hturn volume Hvolume. lift_step Hturn relationship Hrelationship.
    lift_step Hturn path Hpath.
    destruct (truthy path) eqn:Htruthy; cbn [andb] in Hturn.
    + destruct (eq_str relationship VOLUME_ATTACHMENT).
      * lift_step Hturn n Hn. destruct (eq_str n node_name).
        -- apply ret_ok in Hturn as [-> _]. intros m Hm.
           apply in_app_or in Hm. destruct Hm as [Hm | [<- | []]].
           ++ exact (Hl m Hm).
           ++ exists path. split; [exact Htruthy | reflexivity].
        -- apply ret_ok in Hturn as [-> _]. exact Hl.
      * apply ret_ok in Hturn as [-> _]. exact Hl.
    + apply ret_ok in Hturn as [-> _]. exact Hl.
  - intros m [].
Qed.

(** X11.  When [_get_volumes] returns, it has left the adaptor as it was,
    and its two lists fit each other and the volume bindings: every pod
    volume is that of a related node to which a claim is bound, names that
    claim and has at least one container mount; every container mount has
    a mount path that is not empty and belongs to one of the pod volumes. *)
Theorem _get_volumes_fits_bindings :
  forall (node : NodeTemplate) (self self' : KubernetesAdaptor)
         (pod_volumes mounts : list value),
  _get_volumes node self = (ok (pod_volumes, mounts), self') ->
  self' = self /\
  fitted (volumes self) (related_nodes node) pod_volumes mounts.
Proof.
  intros node self self' pod_volumes mounts Hrun.
  pose proof (_get_volumes_reads node _ _ _ Hrun) as Hsame. subst self'.
  split; [reflexivity | ].
  unfold _get_volumes in Hrun.
  refine (proj2
            (for_each_invariant
               (fun (s : list value * list value) (reached : KubernetesAdaptor) =>
                  reached = self /\
                  fitted (volumes self) (related_nodes node) (fst s) (snd s))
               _ (related_nodes node) _ ([], []) self (pod_volumes, mounts) self
               _ Hrun)).
  - intros n [vs ms] reached [vs' ms'] reached' Hrelated (-> & Hvs & Hms) Hturn.
    cbn [fst snd] in *.
    bind_step Hturn this_self s Hthis. unfold this in Hthis.
    injection Hthis as <- <-.
    destruct (truthy (dget (volumes self) n VNone)) eqn:Hbound.
    + bind_step Hturn found s' Hfound.
      assert (Hs' : self = s').
      { match type of Hfound with
        | ?m _ = _ =>
            assert (Hkeeps : keeps eq m)
              by keeps_steps (@eq_refl KubernetesAdaptor)
                   (@eq_trans KubernetesAdaptor) fail
        end.
        exact (Hkeeps _ _ _ Hfound). }
      subst s'.
      pose proof (mounts_of_requirements _ _ _ _ _ Hfound) as Hmounts.
      assert (Hbinding : exists pvc, lookup n (volumes self) = Some pvc
                                     /\ truthy pvc = true
                                     /\ dget (volumes self) n VNone = pvc).
      { unfold dget in Hbound |- *.
        destruct (lookup n (volumes self)) as [pvc | ]; [ | discriminate].
        exists pvc. repeat split. exact Hbound. }
      destruct Hbinding as (pvc & Hlookup & Hpvc & Hdget). rewrite Hdget in Hturn.
      destruct found as [ | m0 found].
      * apply ret_ok in Hturn as [Hturn ->]. injection Hturn as -> ->.
        split; [reflexivity | split; assumption].
      * apply ret_ok in Hturn as [Hturn ->]. injection Hturn as -> ->.
        split; [reflexivity | ].
        destruct (Hmounts m0 (or_introl eq_refl)) as (path0 & Hpath0 & ->).
        split.
        -- intros v Hv. apply in_app_or in Hv. destruct Hv as [Hv | [<- | []]].
           ++ destruct (Hvs v Hv) as (n' & pvc' & Hn' & Hl' & Ht' & -> & path' & Hin').
              exists n', pvc'. repeat split; try assumption.
              exists path'. apply in_or_app. left. exact Hin'.
           ++ exists n, pvc. split; [ | repeat split; try assumption].
              ** exact Hrelated.
              ** exists path0. apply in_or_app. right. left. reflexivity.
        -- intros m Hm. apply in_app_or in Hm. destruct Hm as [Hm | Hm].
           ++ destruct (Hms m Hm) as (n' & path' & pvc' & Ht' & -> & Hin').
              exists n', path', pvc'. repeat split; try assumption.
              apply in_or_app. left. exact Hin'.
           ++ destruct (Hmounts m Hm) as (path & Hpath & ->).
              exists n, path, pvc. repeat split; try assumption.
              apply in_or_app. right. left. reflexivity.
    + apply ret_ok in Hturn as [Hturn ->]. injection Hturn as -> ->.
      split; [reflexivity | split; assumption].
  - split; [reflexivity | ]. split; intros x [].
Qed.

Lemma _get_volumes_fits_bindings_witness :
  let self := snd (bind_volume "data" (VStr "data-pvc") (init "app")) in
  _get_volumes (web_attached [attachment "data" "/var/data"] []) self
    = (ok ([data_volume_entry], [data_mount]), self) /\
  fitted (volumes self) ["data"] [data_volume_entry] [data_mount].
Proof.
  intro self. split; [reflexivity | ].
  apply (_get_volumes_fits_bindings
           (web_attached [attachment "data" "/var/data"] []) self self).
  reflexivity.
Defined.

(** ** Cleanup *)

(** X12.  [cleanup] never raises, whether or not the manifest file is
    there: it ends with the status [Clean!] and without the manifest file,
    it keeps the manifests, the services and the volume bindings, and it
    logs the warning that the file could not be removed exactly when the
    file was not there. *)
Theorem cleanup_never_raises : forall self : KubernetesAdaptor,
  exists self',
    cleanup self = (ok tt, self') /\
    status self' = "Clean!" /\
    short_id self' = short_id self /\
    manifests self' = manifests self /\
    services self' = services self /\
    volumes self' = volumes self /\
    (forall content, dumped self' <> Some (manifest_path self, content)) /\
    records self' =
      (records self ++ (INFO, "Cleaning-up...") ::
         match dumped self with
         | Some (written, _) =>
             if written =? manifest_path self then []
             else [(WARNING, "Could not remove manifest file")]
         | None => [(WARNING, "Could not remove manifest file")]
         end)%list.
Proof.
  intro self. unfold cleanup, bind, log, set_status, this, os_remove, ok.
  cbn [dumped short_id manifest_path].
  destruct (dumped self) as [[written content] | ] eqn:Hdumped.
  - unfold manifest_path. cbn [short_id].
    destruct (written =? short_id self ++ ".yaml") eqn:Hpath.
    + eexists. split; [reflexivity | ]. cbn. repeat split. discriminate.
    + eexists. split; [reflexivity | ]. cbn. repeat split.
      * intros c H. injection H as H _.
        apply String.eqb_neq in Hpath. contradiction.
      * rewrite <- app_assoc. reflexivity.
  - eexists. split; [reflexivity | ]. cbn. repeat split.
    + intros c H. discriminate H.
    + rewrite <- app_assoc. reflexivity.
Qed.

(** X13.  [cleanup] after a [translate] that returned with manifests: the
    file that the translation wrote is removed and no warning is logged;
    the manifests stay in the adaptor. *)
Theorem cleanup_removes_the_translated_manifest :
  forall (tpl : ToscaTemplate) (self translated : KubernetesAdaptor),
  translate tpl self = (ok tt, translated) ->
  manifests translated <> [] ->
  exists cleaned,
    cleanup translated = (ok tt, cleaned) /\
    dumped cleaned = None /\
    status cleaned = "Clean!" /\
    manifests cleaned = manifests translated /\
    records cleaned = (records translated ++ [(INFO, "Cleaning-up...")])%list.
Proof.
  intros tpl self translated Hrun Hmanifests.
  assert (Hfile : dumped translated
                  = Some (manifest_path translated, manifests translated)).
  { rewrite translate_unfold in Hrun.
    destruct (visit (repositories tpl) (sorted_by_type (nodetemplates tpl))
                (started self)) as [[e | u] reached] eqn:Hvisit;
      [discriminate Hrun | ].
    destruct (manifests reached) as [ | m0 ms] eqn:Hms;
      injection Hrun as <-; cbn in Hmanifests |- *.
    - contradiction.
    - rewrite Hms. reflexivity. }
  unfold cleanup, bind, log, set_status, this, os_remove, ok.
  cbn [dumped short_id manifest_path]. rewrite Hfile.
  unfold manifest_path. cbn [short_id]. rewrite String.eqb_refl.
  eexists. split; [reflexivity | ]. cbn. repeat split.
Qed.

Lemma cleanup_removes_the_translated_manifest_witness :
  exists cleaned,
    cleanup (snd (translated [web] "app")) = (ok tt, cleaned) /\
    dumped cleaned = None /\
    status cleaned = "Clean!" /\
    manifests cleaned = manifests (snd (translated [web] "app")) /\
    records cleaned
      = (records (snd (translated [web] "app")) ++ [(INFO, "Cleaning-up...")])%list.
Proof.
  apply (cleanup_removes_the_translated_manifest (topology [web]) (init "app")).
  - vm_compute. reflexivity.
  - vm_compute. discriminate.
Defined.

(** ** The type of a port spec *)

(** X14.  Every port spec that [_build_port_spec] builds has a [type],
    which is neither empty nor one of the Swarm modes [host] and [ingress];
    and no entry of the port spec has an empty value. *)
Theorem built_port_spec_has_a_type :
  forall (port : value) (node_name : string) (self self' : KubernetesAdaptor)
         (spec : dict),
  _build_port_spec port node_name self = (ok (VDict spec), self') ->
  (exists t,
     lookup "type" spec = Some t /\ truthy t = true /\
     eq_str t "host" = false /\ eq_str t "ingress" = false) /\
  (forall k v, In (k, v) spec -> truthy v = true).
Proof.
  intros port node_name self self' spec H.
  unfold _build_port_spec in H.
  lift_step H target Htarget. lift_step H publish Hpublish.
  destruct (negb (truthy (VInt publish)) && negb (truthy target)).
  { bind_step H u s Hlog. apply ret_ok in H as [H _]. discriminate H. }
  lift_step H target' Hcoerce. lift_step H cluster_ip Hget.
  bind_step H kept s Hcheck.
  lift_step H protocol Hprotocol. lift_step H port_name Hname.
  lift_step H port_type Htype. lift_step H metadata Hmetadata.
  lift_step H node_port Hnode_port.
  bind_step H x s' Hnp. destruct x as [port_type' node_port'].
  apply ret_ok in H as [H _]. apply VDict_inj in H. subst spec.
  split.
  - match goal with
    | |- context [ "type" =: ?t ] => set (final := t)
    end.
    assert (Hfinal : truthy final = true /\ eq_str final "host" = false
                     /\ eq_str final "ingress" = false).
    { subst final.
      destruct (eq_str port_type' "host") eqn:Hhost; [repeat split | ].
      destruct (eq_str port_type' "ingress") eqn:Hingress; [repeat split | ].
      destruct (truthy port_type') eqn:Htruthy; repeat split; assumption. }
    destruct Hfinal as (Htruthy & Hhost & Hingress).
    exists final. split; [ | repeat split; assumption].
    match goal with
    | |- context [keep_truthy ?d] =>
        exact (lookup_keep_truthy (VStr "type") final d eq_refl Htruthy)
    end.
  - intros k v Hin. unfold keep_truthy in Hin.
    apply filter_In in Hin as [_ Hv]. exact Hv.
Qed.

Lemma built_port_spec_has_a_type_witness :
  let spec := ["name" =: VStr "80-tcp"; "targetPort" =: VInt 80; "port" =: VInt 80;
               "protocol" =: VStr "TCP"; "type" =: VStr "NodePort"] in
  _build_port_spec (VDict ["target" =: VInt 80; "mode" =: VStr "host"]) "web"
    (init "app") = (ok (VDict spec), init "app") /\
  (exists t,
     lookup "type" spec = Some t /\ truthy t = true /\
     eq_str t "host" = false /\ eq_str t "ingress" = false) /\
  (forall k v, In (k, v) spec -> truthy v = true).
Proof.
  split; [reflexivity | ].
  apply (built_port_spec_has_a_type
           (VDict ["target" =: VInt 80; "mode" =: VStr "host"]) "web"
           (init "app") (init "app")).
  reflexivity.
Defined.

(** ** The Services of a workload *)

(** The labels that [_build_service] reads off the inputs. *)
Lemma pod_labels_read : forall (inputs metadata labels : value) (node_name : string),
  get inputs "metadata" (VDict []) = ok metadata ->
  get metadata "labels" (VDict ["run" =: VStr node_name]) = ok labels ->
  labels = pod_labels_of inputs node_name.
Proof.
  intros inputs metadata labels node_name Hmetadata Hlabels.
  destruct inputs as [ | | | | | d]; try discriminate Hmetadata.
  cbn [get hashable] in Hmetadata. injection Hmetadata as <-.
  unfold pod_labels_of, dget in *. cbn [at_path].
  destruct (lookup "metadata" d) as [m | ].
  - destruct m as [ | | | | | md]; try discriminate Hlabels.
    cbn [get hashable] in Hlabels. injection Hlabels as <-.
    unfold dget. cbn [at_path].
    destruct (lookup "labels" md); reflexivity.
  - cbn in Hlabels. injection Hlabels as <-. reflexivity.
Qed.

(** What [_build_service] returns: nothing, or a Service for the pods of
    the node with its record.  The adaptor gets log records at most. *)
Lemma _build_service_built :
  forall (service_name service resource : value) (node_name : string)
         (inputs manifest info : value) (self self' : KubernetesAdaptor),
  _build_service service_name service resource node_name inputs self
    = (ok (manifest, info), self') ->
  manifests self' = manifests self /\ services self' = services self /\
  (truthy manifest = true ->
     selects (pod_labels_of inputs node_name) manifest /\
     recorded_for node_name info).
Proof.
  intros service_name service resource node_name inputs manifest info self self' H.
  unfold _build_service in H.
  lift_step H ports Hports.
  destruct (negb (truthy ports)).
  { bind_step H u s Hlog. apply ret_ok in H as [H ->].
    injection H as -> ->. unfold log in Hlog. injection Hlog as _ <-.
    split; [reflexivity | split; [reflexivity | discriminate]]. }
  lift_step H metadata Hmetadata. lift_step H resource_namespace Hnamespace.
  lift_step H resource_labels Hresource_labels.
  lift_step H pod_metadata Hpod_metadata. lift_step H pod_labels Hpod_labels.
  lift_step H service_metadata Hservice_metadata.
  lift_step H x Hname. destruct x as [u1 metadata1].
  lift_step H x Hns. destruct x as [u2 metadata2].
  lift_step H x Hlabels. destruct x as [u3 metadata3].
  lift_step H ns Hget_ns. lift_step H metadata4 Hclean.
  lift_step H port_type Htype. lift_step H cluster_ip Hcluster_ip.
  lift_step H spec_ports Hiter.
  apply ret_ok in H as [H ->]. injection H as -> ->.
  repeat split.
  rewrite (pod_labels_read _ _ _ _ Hpod_metadata Hpod_labels).
  destruct (negb (eq_str port_type "ClusterIP")), (truthy cluster_ip); reflexivity.
Qed.

(** The Services that [_get_service_manifests] adds, each with its record:
    they select the labels of the pods of the node. *)
Lemma _get_service_manifests_built :
  forall (node : NodeTemplate) (container : dict) (resource inputs : value)
         (self self' : KubernetesAdaptor) (container' : dict),
  _get_service_manifests node container resource inputs self
    = (ok container', self') ->
  exists added infos,
    manifests self' = (manifests self ++ added)%list /\
    services self' = (services self ++ infos)%list /\
    length added = length infos /\
    Forall (selects (pod_labels_of inputs (Tosca.name node))) added /\
    Forall (recorded_for (Tosca.name node)) infos.
Proof.
  intros node container resource inputs self self' container' H.
  unfold _get_service_manifests in H.
  bind_step H x s1 Hinfo. destruct x as [ports container1].
  apply _get_service_info_only_logs in Hinfo.
  destruct Hinfo as (_ & _ & Hm1 & Hs1 & _).
  bind_step H services_to_build s2 Hgroup.
  assert (Hlogged : only_logged s1 s2).
  { match type of Hgroup with
    | ?m _ = _ => assert (Hkeeps : keeps only_logged m) by only_logs
    end.
    exact (Hkeeps _ _ _ Hgroup). }
  destruct Hlogged as (_ & _ & Hm2 & Hs2 & _).
  bind_step H u s3 Hbuild. apply ret_ok in H as [_ ->].
  rewrite <- Hm1, <- Hm2, <- Hs1, <- Hs2.
  refine (for_each_invariant
            (fun (_ : unit) reached =>
               exists added infos,
                 manifests reached = (manifests s2 ++ added)%list /\
                 services reached = (services s2 ++ infos)%list /\
                 length added = length infos /\
                 Forall (selects (pod_labels_of inputs (Tosca.name node))) added /\
                 Forall (recorded_for (Tosca.name node)) infos)
            _ _ _ tt s2 u s3 _ Hbuild).
  - intros [service_name service] [] reached [] reached' _
      (added & infos & Hm & Hs & Hlen & Hadded & Hinfos) Hturn.
    bind_step Hturn x r1 Hbuilt. destruct x as [manifest info].
    apply _build_service_built in Hbuilt as (Hm' & Hs' & Hgood).
    destruct (truthy manifest); cbn [negb] in Hturn.
    + destruct (Hgood eq_refl) as (Hselects & Hrecorded).
      bind_step Hturn v r2 Happend.
      unfold append_manifest in Happend. injection Happend as _ <-.
      unfold append_service in Hturn. injection Hturn as <-.
      cbn [manifests services]. rewrite Hm', Hs', Hm, Hs.
      exists (added ++ [manifest])%list, (infos ++ [info])%list.
      rewrite <- !app_assoc, !length_app, Hlen.
      repeat split; apply Forall_app; split; auto.
    + apply ret_ok in Hturn as [_ ->]. rewrite Hm', Hs'.
      exists added, infos. repeat split; assumption.
  - exists [], []. rewrite !app_nil_r. repeat split; constructor.
Qed.

(** ** The options of Docker in a container spec *)

Lemma key_eqb_refl_str : forall k : string, key_eqb k k = true.
Proof.
  intro k. cbn [key_eqb]. apply String.eqb_refl.
Qed.

Lemma lookup_none_not_in : forall (k : string) (d : dict),
  lookup k d = None -> ~ In (VStr k) (map fst d).
Proof.
  intros k d. induction d as [ | [k0 v0] d IH]; cbn [lookup map fst In].
  - intros _ [].
  - destruct (key_eqb k0 k) eqn:Hk; [discriminate | ].
    intros H [Heq | Hin]; [ | exact (IH H Hin)].
    rewrite Heq, key_eqb_refl_str in Hk. discriminate Hk.
Qed.

Lemma lookup_none_remove : forall (k k' : value) (d : dict),
  lookup k d = None -> lookup k (remove k' d) = None.
Proof.
  intros k k' d. induction d as [ | [k0 v0] d IH]; cbn [lookup remove]; [trivial | ].
  destruct (key_eqb k0 k) eqn:Hk; [discriminate | ].
  intro H. destruct (key_eqb k0 k'); [exact H | ].
  cbn [lookup]. rewrite Hk. exact (IH H).
Qed.

Lemma lookup_none_keep_truthy : forall (k : value) (d : dict),
  lookup k d = None -> lookup k (keep_truthy d) = None.
Proof.
  intros k d. induction d as [ | [k0 v0] d IH]; cbn [lookup]; [trivial | ].
  destruct (key_eqb k0 k) eqn:Hk; [discriminate | ].
  intro H. unfold keep_truthy. cbn [filter snd].
  destruct (truthy v0); [cbn [lookup]; rewrite Hk | ]; exact (IH H).
Qed.

Lemma NoDup_dsetdefault : forall (k : string) (v : value) (d : dict),
  NoDup (map fst d) -> NoDup (map fst (snd (dsetdefault d k v))).
Proof.
  intros k v d H. unfold dsetdefault.
  destruct (lookup k d) eqn:Hk; cbn [snd]; [exact H | ].
  rewrite map_app. cbn [map fst].
  apply NoDup_app; [exact H | repeat constructor; intros [] | ].
  intros a Ha [<- | []]. exact (lookup_none_not_in k d Hk Ha).
Qed.

Lemma In_set_item : forall (a : value) (k : string) (v : value) (d : dict),
  In a (map fst (set_item k v d)) -> a = VStr k \/ In a (map fst d).
Proof.
  intros a k v d. induction d as [ | [k0 v0] d IH]; cbn [set_item map fst In].
  - intros [H | []]. left. symmetry. exact H.
  - destruct (key_eqb k0 k); cbn [map fst In]; [auto | ].
    intros [H | H]; [auto | ]. destruct (IH H); auto.
Qed.

Lemma NoDup_set_item : forall (k : string) (v : value) (d : dict),
  NoDup (map fst d) -> NoDup (map fst (set_item k v d)).
Proof.
  intros k v d. induction d as [ | [k0 v0] d IH]; cbn [set_item map fst]; intro H.
  - repeat constructor. intros [].
  - inversion H as [ | a l Hnotin Hnodup]; subst.
    destruct (key_eqb k0 k) eqn:Hk; cbn [map fst]; [exact H | ].
    constructor; [ | exact (IH Hnodup)].
    intro Hin. apply In_set_item in Hin as [Heq | Hin]; [ | exact (Hnotin Hin)].
    rewrite Heq, key_eqb_refl_str in Hk. discriminate Hk.
Qed.

Lemma without_dpop : forall (gone : list string) (k : string) (v : value) (d : dict),
  without gone d -> without (k :: gone) (snd (dpop d k v)).
Proof.
  intros gone k v d [Hnodup Hgone]. unfold dpop.
  destruct (lookup k d) eqn:Hk; cbn [snd].
  - split; [apply NoDup_remove; exact Hnodup | ].
    constructor; [apply lookup_remove_same; exact Hnodup | ].
    apply (Forall_impl _ (fun (a : string) H => lookup_none_remove a k d H) Hgone).
  - split; [exact Hnodup | constructor; assumption].
Qed.

Lemma without_dsetdefault :
  forall (gone : list string) (k : string) (v : value) (d : dict),
  forallb (fun k' => negb (k =? k')) gone = true ->
  without gone d -> without gone (snd (dsetdefault d k v)).
Proof.
  intros gone k v d Hk [Hnodup Hgone].
  split; [apply NoDup_dsetdefault; exact Hnodup | ].
  rewrite forallb_forall in Hk. rewrite Forall_forall in Hgone |- *.
  intros k' Hin. rewrite lookup_dsetdefault_other; [exact (Hgone k' Hin) | ].
  apply negb_true_iff. exact (Hk k' Hin).
Qed.

Lemma without_set_item :
  forall (gone : list string) (k : string) (v : value) (d : dict),
  forallb (fun k' => negb (k =? k')) gone = true ->
  without gone d -> without gone (set_item k v d).
Proof.
  intros gone k v d Hk [Hnodup Hgone].
  split; [apply NoDup_set_item; exact Hnodup | ].
  rewrite forallb_forall in Hk. rewrite Forall_forall in Hgone |- *.
  intros k' Hin. rewrite lookup_set_item_other; [exact (Hgone k' Hin) | ].
  apply negb_true_iff. exact (Hk k' Hin).
Qed.

Lemma without_keep_truthy : forall (gone : list string) (d : dict),
  without gone d -> without gone (keep_truthy d).
Proof.
  intros gone d [Hnodup Hgone]. split.
  - clear Hgone. unfold keep_truthy.
    induction d as [ | [k0 v0] d IH]; cbn [filter snd map fst]; [constructor | ].
    inversion Hnodup as [ | a l Hnotin Hrest]; subst.
    destruct (truthy v0); cbn [map fst]; [ | exact (IH Hrest)].
    constructor; [ | exact (IH Hrest)].
    intro Hin. apply Hnotin. apply in_map_iff in Hin as ([k1 v1] & <- & Hin).
    apply filter_In in Hin as [Hin _]. apply in_map_iff.
    exists (k1, v1). split; [reflexivity | exact Hin].
  - apply (Forall_impl _ (fun (a : string) H => lookup_none_keep_truthy a d H) Hgone).
Qed.

Create HintDb options.
#[local] Hint Resolve without_keep_truthy : options.
#[local] Hint Extern 1 (without _ (snd (dsetdefault _ _ _))) =>
  (apply without_dsetdefault; [reflexivity | ]) : options.
#[local] Hint Extern 1 (without _ (set_item _ _ _)) =>
  (apply without_set_item; [reflexivity | ]) : options.

(** One [pop] of [properties] in the hypothesis [H]: the dictionary [d]
    that it leaves is also without the key popped. *)
Ltac pop_option H I v d :=
  lazymatch type of H with
  | context [dpop ?d0 (VStr ?k) ?v0] =>
      let E := fresh "I" in
      lazymatch type of I with
      | without ?gone _ =>
          assert (E : without (k :: gone) (snd (dpop d0 (VStr k) v0)))
            by (apply without_dpop; auto with options)
      end;
      destruct (dpop d0 (VStr k) v0) as [v d]; cbn [snd] in E; clear I; rename E into I
  end.

(** X15.  When [_get_container] returns a container spec for properties
    with one entry per key, the spec has one entry per key too, every
    entry of it has a value that is not empty and is an entry of the
    properties as the call leaves them, and none of the options of Docker
    and Swarm that the function translates ([expose], [container_name],
    [entrypoint], [cmd], [environment], [labels], [stop_grace_period],
    [privileged], [pid], [network_mode], [stdin_open], [healthcheck]) is
    left, in the spec or in the properties. *)
Theorem docker_options_are_translated_away :
  forall (node : NodeTemplate) (properties : dict) (repositories : list Repository)
         (inputs : value) (self self' : KubernetesAdaptor) (c p : dict) (i : value),
  NoDup (map fst properties) ->
  _get_container node properties repositories inputs self = (ok (c, p, i), self') ->
  NoDup (map fst c) /\
  (forall k v, In (k, v) c -> truthy v = true /\ In (k, v) p) /\
  (forall k, In k DOCKER_OPTIONS -> lookup k c = None /\ lookup k p = None).
Proof.
  intros node properties repositories inputs self self' c p i Hnodup H.
  unfold _get_container in H.
  bind_step H image s1 Himage.
  destruct (truthy image) eqn:Himg; cbn [negb] in H; [ | discriminate].
  assert (I : without [] (snd (dsetdefault properties "image" image))).
  { apply without_dsetdefault; [reflexivity | ]. split; [exact Hnodup | constructor]. }
  cbn [SWARM_PROPERTIES for_each] in H.
  (* swarm-only keys *)
  bind_step H p1 s2 Hswarm. bind_step Hswarm p0 s0 Hexpose.
  apply ret_ok in Hswarm as [-> _].
  pop_option Hexpose I expose d0.
  assert (I' : without ["expose"] p0).
  { destruct (truthy expose).
    - bind_step Hexpose u s Hlog. apply ret_ok in Hexpose as [-> _]. exact I.
    - apply ret_ok in Hexpose as [-> _]. exact I. }
  clear I Hexpose. rename I' into I.
  (* common properties *)
  pop_option H I container_name d1. pop_option H I entrypoint d2.
  bind_step H command s3 Hcommand.
  pop_option H I cmd d3. bind_step H args s4 Hargs.
  pop_option H I docker_env d4.
  bind_step H env_items s5 Hiter. bind_step H env s6 Henv.
  (* other properties *)
  pop_option H I docker_labels d5. bind_step H inputs1 s7 Hlabels.
  pop_option H I docker_grace d6. bind_step H inputs2 s8 Hgrace.
  pop_option H I docker_priv d7. bind_step H p7 s9 Hpriv.
  match type of I with
  | without ?gone _ => assert (I' : without gone p7)
  end.
  { apply lift_ok in Hpriv as [Hpriv _]. destruct (truthy docker_priv).
    - destruct (dsetdefault d7 "securityContext" (VDict [])) as [sc d'] eqn:Hsc.
      assert (Id : without
                     ["privileged"; "stop_grace_period"; "labels"; "environment";
                      "cmd"; "entrypoint"; "container_name"; "expose"] d').
      { replace d' with (snd (dsetdefault d7 "securityContext" (VDict [])))
          by (rewrite Hsc; reflexivity).
        auto with options. }
      unfold rbind in Hpriv.
      destruct (setdefault sc "privileged" docker_priv) as [e | [x sc']];
        [discriminate | ].
      injection Hpriv as <-. auto with options.
    - injection Hpriv as <-. exact I. }
  clear I Hpriv. rename I' into I.
  pop_option H I docker_pid d8. bind_step H inputs3 s10 Hpid.
  pop_option H I docker_netmode d9. bind_step H inputs4 s11 Hnet.
  pop_option H I stdin_open d10. pop_option H I healthcheck d11.
  apply ret_ok in H as [H _]. injection H as -> -> _.
  match type of I with
  | without ?gone ?d =>
      assert (Ip : without gone (snd (dsetdefault d "livenessProbe" healthcheck)))
        by auto with options
  end.
  pose proof (without_keep_truthy _ _ Ip) as Ic.
  split; [exact (proj1 Ic) | ]. split.
  - intros k v Hin. unfold keep_truthy in Hin. apply filter_In in Hin as [Hin Hv].
    split; [exact Hv | exact Hin].
  - intros k Hin. destruct Ic as [_ Ic]. destruct Ip as [_ Ip].
    rewrite Forall_forall in Ic, Ip.
    assert (Hgone : In k ["healthcheck"; "stdin_open"; "network_mode"; "pid";
                          "privileged"; "stop_grace_period"; "labels"; "environment";
                          "cmd"; "entrypoint"; "container_name"; "expose"]).
    { cbn in Hin |- *. intuition. }
    split; [exact (Ic k Hgone) | exact (Ip k Hgone)].
Qed.

Lemma docker_options_are_translated_away_witness :
  exists c p : dict,
    _get_container
      (container "web" VNone
         ["entrypoint" =: VStr "nginx -g"; "stdin_open" =: VBool true;
          "expose" =: VList [VInt 80]])
      ["entrypoint" =: VStr "nginx -g"; "stdin_open" =: VBool true;
       "expose" =: VList [VInt 80]]
      docker_hub (VDict []) (init "app")
    = (ok (c, p, VDict []), logging WARNING "Removed Swarm-option expose" (init "app")) /\
    lookup "command" c = Some (VList [VStr "nginx"; VStr "-g"]) /\
    lookup "stdin" c = Some (VBool true) /\
    NoDup (map fst c) /\
    (forall k v, In (k, v) c -> truthy v = true /\ In (k, v) p) /\
    (forall k, In k DOCKER_OPTIONS -> lookup k c = None /\ lookup k p = None).
Proof.
  do 2 eexists.
  split; [vm_compute; reflexivity | ].
  split; [reflexivity | ]. split; [reflexivity | ].
  apply (docker_options_are_translated_away
           (container "web" VNone
              ["entrypoint" =: VStr "nginx -g"; "stdin_open" =: VBool true;
               "expose" =: VList [VInt 80]])
           ["entrypoint" =: VStr "nginx -g"; "stdin_open" =: VBool true;
            "expose" =: VList [VInt 80]]
           docker_hub (VDict []) (init "app")
           (logging WARNING "Removed Swarm-option expose" (init "app")) _ _ (VDict [])).
  - repeat constructor; cbn; intuition discriminate.
  - vm_compute. reflexivity.
Defined.

(** ** The ports that stay on the container *)

Lemma ports_entry_app : forall (kept : list value) (port : value),
  ports_entry (kept ++ [port]) = Some (VList (kept ++ [port])).
Proof.
  intros kept port. destruct kept; reflexivity.
Qed.

(** The loop of [_get_service_info], from a container that holds the
    entries [kept]. *)
Lemma _get_service_info_loop :
  forall (node_name : string) (all : list value) (container0 : dict)
         (entries kept : list value) (container : dict) (port_list : list value)
         (self self' : KubernetesAdaptor) (container' : dict)
         (port_list' : list value),
  (forall p, In p entries -> In p all) ->
  lookup "ports" container = ports_entry kept ->
  (forall k : string, (k =? "ports") = false ->
     lookup k container = lookup k container0) ->
  Forall (service_port all node_name) port_list ->
  for_each entries
    (fun port '(container, port_list) =>
       container_port <~ get port "containerPort" VNone ;;
       if truthy container_port then
         let (l, container) := dsetdefault container "ports" (VList []) in
         l <~ append l port ;;
         ret (set_item "ports" l container, port_list)
       else
         port_spec <- _build_port_spec port node_name ;;
         if truthy port_spec
         then ret (container, (port_list ++ [port_spec])%list)
         else ret (container, port_list))
    (container, port_list) self
  = (ok (container', port_list'), self') ->
  lookup "ports" container'
    = ports_entry (kept ++ filter has_container_port entries)%list /\
  (forall k : string, (k =? "ports") = false ->
     lookup k container' = lookup k container0) /\
  Forall (service_port all node_name) port_list'.
Proof.
  intros node_name all container0 entries.
  induction entries as [ | port entries IH];
    intros kept container port_list self self' container' port_list'
      Hall Hports Hothers Hlist H.
  - apply ret_ok in H as [H _]. injection H as -> ->.
    cbn [filter]. rewrite app_nil_r. repeat split; assumption.
  - cbn [for_each] in H. bind_step H x s1 Hturn. destruct x as [c1 pl1].
    lift_step Hturn container_port Hcp.
    assert (Hrest : forall p, In p entries -> In p all)
      by (intros p Hp; apply Hall; right; exact Hp).
    cbn [filter]. unfold has_container_port at 1. rewrite Hcp.
    destruct (truthy container_port) eqn:Htruthy.
    + destruct (dsetdefault container "ports" (VList [])) as [l c2] eqn:Hset.
      lift_step Hturn l' Happend. apply ret_ok in Hturn as [Hturn ->].
      injection Hturn as -> ->.
      assert (Hl : l = VList kept).
      { unfold dsetdefault in Hset. rewrite Hports in Hset.
        destruct kept; injection Hset as <- _; reflexivity. }
      subst l. injection Happend as <-.
      replace (kept ++ port :: filter has_container_port entries)%list
        with ((kept ++ [port]) ++ filter has_container_port entries)%list
        by (rewrite <- app_assoc; reflexivity).
      apply (IH _ _ _ _ _ _ _ Hrest) with (4 := H).
      * rewrite lookup_set_item_same. symmetry. apply ports_entry_app.
      * intros k Hk. rewrite String.eqb_sym in Hk.
        rewrite (lookup_set_item_other k "ports" Hk).
        replace c2 with (snd (dsetdefault container "ports" (VList [])))
          by (rewrite Hset; reflexivity).
        rewrite (lookup_dsetdefault_other k "ports" Hk).
        apply Hothers. rewrite String.eqb_sym. exact Hk.
      * exact Hlist.
    + bind_step Hturn port_spec s2 Hbuilt.
      destruct (truthy port_spec) eqn:Hspec;
        apply ret_ok in Hturn as [Hturn ->]; injection Hturn as -> ->;
        apply (IH _ _ _ _ _ _ _ Hrest Hports Hothers) with (2 := H);
        [ | exact Hlist].
      apply Forall_app. split; [exact Hlist | ].
      constructor; [ | constructor].
      split; [exact Hspec | ].
      exists port, self, s2. split; [apply Hall; left; reflexivity | ].
      split; [ | exact Hbuilt].
      unfold has_container_port. rewrite Hcp. exact Htruthy.
Qed.

(** X16.  When [_get_service_info] returns for a container with one entry
    per key, the [ports] of the container are the port entries that name a
    [containerPort], in their order, and there is no [ports] entry when
    there are none; the other entries of the container are untouched; and
    every port spec returned is not empty and was built by
    [_build_port_spec] from a port entry without a [containerPort]. *)
Theorem container_ports_stay_on_the_container :
  forall (container : dict) (node_name : string) (self self' : KubernetesAdaptor)
         (port_list : list value) (container' : dict),
  NoDup (map fst container) ->
  _get_service_info container node_name self = (ok (port_list, container'), self') ->
  lookup "ports" container'
    = ports_entry (filter has_container_port (port_entries container)) /\
  (forall k : string, (k =? "ports") = false ->
     lookup k container' = lookup k container) /\
  Forall (service_port (port_entries container) node_name) port_list.
Proof.
  intros container node_name self self' port_list container' Hnodup H.
  unfold _get_service_info in H.
  pose proof (without_dpop [] "ports" VNone container
                (conj Hnodup (Forall_nil _))) as [_ Hgone].
  inversion Hgone as [ | k gone Hnone _]; subst. clear Hgone.
  assert (Hothers : forall k : string, (k =? "ports") = false ->
            lookup k (snd (dpop container "ports" VNone)) = lookup k container).
  { intros k Hk. rewrite String.eqb_sym in Hk.
    exact (lookup_dpop_other k "ports" Hk VNone container). }
  assert (Hports : fst (dpop container "ports" VNone) = dget container "ports" VNone).
  { unfold dpop, dget. destruct (lookup "ports" container); reflexivity. }
  destruct (dpop container "ports" VNone) as [ports c0]. cbn [fst snd] in *.
  unfold port_entries. unfold dget in Hports.
  destruct (truthy ports) eqn:Htruthy.
  - lift_step H entries Hiter. bind_step H x s1 Hloop. destruct x as [c1 pl1].
    apply ret_ok in H as [H ->]. injection H as -> ->.
    destruct (lookup "ports" container) as [v | ];
      [ | subst ports; discriminate Htruthy].
    subst v. rewrite Htruthy, Hiter.
    exact (_get_service_info_loop node_name entries container entries [] c0 []
             self s1 c1 pl1 (fun p Hp => Hp) Hnone Hothers
             (Forall_nil _) Hloop).
  - apply ret_ok in H as [H _]. injection H as -> ->.
    destruct (lookup "ports" container) as [v | ].
    + subst v. rewrite Htruthy.
      repeat split; [exact Hnone | exact Hothers | constructor].
    + repeat split; [exact Hnone | exact Hothers | constructor].
Qed.

Lemma container_ports_stay_on_the_container_witness :
  let metrics := VDict ["containerPort" =: VInt 9100] in
  let http := VDict ["port" =: VInt 8080; "targetPort" =: VInt 80] in
  let container :=
    ["image" =: VStr "nginx"; "ports" =: VList [http; metrics]; "name" =: VStr "web"] in
  exists port_list container',
    _get_service_info container "web" (init "app")
      = (ok (port_list, container'), init "app") /\
    lookup "ports" container' = Some (VList [metrics]) /\
    (forall k : string, (k =? "ports") = false ->
       lookup k container' = lookup k container) /\
    Forall (service_port [http; metrics] "web") port_list.
Proof.
  intros metrics http container. do 2 eexists.
  split; [vm_compute; reflexivity | ].
  apply (container_ports_stay_on_the_container container "web" (init "app") (init "app")).
  - repeat constructor; cbn; intuition discriminate.
  - vm_compute. reflexivity.
Defined.

(** ** Volumes and their claims *)

Lemma rbind_ok : forall {A B} (r : res A) (k : A -> res B) (b : B),
  rbind r k = inr b -> exists a, r = inr a /\ k a = inr b.
Proof.
  intros A B r k b H. destruct r as [e | a]; [discriminate H | ].
  exists a. split; [reflexivity | exact H].
Qed.

Ltac rbind_step H a Ha := apply rbind_ok in H as (a & Ha & H).

Lemma get_ok : forall (recv : value) (k : string) (default v : value),
  get recv k default = inr v -> exists d, recv = VDict d /\ v = dget d k default.
Proof.
  intros recv k default v H. destruct recv; try discriminate H.
  cbn [get hashable] in H. injection H as <-. eexists. split; reflexivity.
Qed.

(** The resource of [_get_resource] in full: its name, and the inputs that
    are left over. *)
Lemma _get_resource_parts :
  forall (n0 : value) (d : dict) (kind0 : value) self resource inputs' self',
  _get_resource n0 (VDict d) kind0 self = (ok (resource, inputs'), self') ->
  exists api kind m0 md labels rest,
    dget d "metadata" (VDict []) = VDict m0 /\
    resource = VDict ["apiVersion" =: api; "kind" =: kind; "metadata" =: VDict md] /\
    lookup "name" md = Some (dget m0 "name" (dget d "name" n0)) /\
    lookup "labels" md = Some (VDict labels) /\
    inputs' = VDict rest /\
    (forall k : string,
       (k =? "kind") = false -> (k =? "apiVersion") = false ->
       (k =? "metadata") = false -> (k =? "name") = false ->
       (k =? "labels") = false ->
       lookup k rest = lookup k d) /\
    only_logged self self'.
Proof.
  intros n0 d kind0 self resource inputs' self' H.
  pose proof (_get_resource_only_logs _ _ _ _ _ _ H) as Hlogged.
  unfold _get_resource in H.
  lift_step H x Hkind. destruct x as [kind inputs1].
  apply pop_ok in Hkind as (d0 & [= <-] & -> & ->).
  bind_step H api s1 Hapi.
  lift_step H x Hversion. destruct x as [api_version inputs2].
  apply pop_ok in Hversion as (d1 & [= <-] & -> & ->).
  lift_step H x Hmeta. destruct x as [metadata inputs3].
  apply pop_ok in Hmeta as (d2 & [= <-] & -> & ->).
  lift_step H x Hname. destruct x as [n inputs4].
  apply pop_ok in Hname as (d3 & [= <-] & -> & ->).
  lift_step H x Hsetname. destruct x as [u1 metadata1].
  apply setdefault_ok in Hsetname as (md & Hmd & _ & ->).
  lift_step H x Hlabels. destruct x as [l inputs5].
  apply pop_ok in Hlabels as (d4 & [= <-] & -> & ->).
  lift_step H x Hset1. destruct x as [u2 metadata2].
  apply setdefault_ok in Hset1 as (md1 & [= <-] & _ & ->).
  lift_step H x Hset2. destruct x as [labels metadata3].
  apply setdefault_ok in Hset2 as (md2 & [= <-] & -> & ->).
  bind_step H this_self s2 Hthis. unfold this in Hthis. injection Hthis as <- <-.
  lift_step H x Happ. destruct x as [u3 labels'].
  apply setdefault_ok in Happ as (l0 & Hl0 & _ & ->).
  apply ret_ok in H as [H ->]. injection H as -> ->.
  cbn [store].
  unfold dget in Hmd. rewrite !lookup_dpop_other in Hmd by reflexivity.
  exists (dget (snd (dpop d "kind" kind0)) "apiVersion" api), (dget d "kind" kind0), md.
  do 3 eexists.
  split; [exact Hmd | ].
  split; [reflexivity | ].
  split.
  { rewrite lookup_set_item_other by reflexivity.
    rewrite !lookup_dsetdefault_other by reflexivity.
    rewrite lookup_dsetdefault_same. unfold dget.
    rewrite !lookup_dpop_other by reflexivity. reflexivity. }
  split; [apply lookup_set_item_same | ].
  split; [reflexivity | ].
  split; [ | exact Hlogged].
  intros k Hkind Hversion Hmetadata Hname Hlabels.
  rewrite String.eqb_sym in Hkind, Hversion, Hmetadata, Hname, Hlabels.
  rewrite (lookup_dpop_other k "labels" Hlabels).
  rewrite (lookup_dpop_other k "name" Hname).
  rewrite (lookup_dpop_other k "metadata" Hmetadata).
  rewrite (lookup_dpop_other k "apiVersion" Hversion).
  rewrite (lookup_dpop_other k "kind" Hkind). reflexivity.
Qed.

(** The name that [_create_persistent_volume] and
    [_create_persistent_volume_claim] work out, and the inputs once the
    label [volume] has its default. *)
Lemma named_inputs :
  forall (inputs : value) (default : string) (n inputs' : value),
  (m <-? get inputs "metadata" (VDict []) ;;
   d <-? get inputs "name" VNone ;;
   n <-? get m "name" d ;;
   ok (py_or n (VStr default)))%res = ok n ->
  ('(m, inputs) <-? setdefault inputs "metadata" (VDict []) ;;
   '(l, m) <-? setdefault m "labels" (VDict []) ;;
   '(_, l) <-? setdefault l "volume" n ;;
   ok (store inputs "metadata" (store m "labels" l)))%res = ok inputs' ->
  exists d m0 d',
    inputs = VDict d /\ inputs' = VDict d' /\
    dget d "metadata" (VDict []) = VDict m0 /\
    n = py_or (dget m0 "name" (dget d "name" VNone)) (VStr default) /\
    (exists m1, lookup "metadata" d' = Some (VDict m1) /\
                lookup "name" m1 = lookup "name" m0) /\
    (forall k : string, (k =? "metadata") = false -> lookup k d' = lookup k d).
Proof.
  intros inputs default n inputs' Hname Hinputs.
  rbind_step Hname m Hm. apply get_ok in Hm as (d & -> & ->).
  rbind_step Hname d0 Hd0. apply get_ok in Hd0 as (d1 & [= <-] & ->).
  rbind_step Hname n1 Hn1. apply get_ok in Hn1 as (m0 & Hm0 & ->).
  injection Hname as <-.
  rbind_step Hinputs x Hset. destruct x as [m inputs1].
  apply setdefault_ok in Hset as (d2 & [= <-] & -> & ->).
  rbind_step Hinputs x Hset. destruct x as [l m1].
  apply setdefault_ok in Hset as (m2 & Hm2 & -> & ->).
  rbind_step Hinputs x Hset. destruct x as [u l1].
  apply setdefault_ok in Hset as (l2 & Hl2 & _ & ->).
  injection Hinputs as <-. cbn [store].
  rewrite Hm0 in Hm2. injection Hm2 as <-.
  exists d, m0. eexists.
  split; [reflexivity | ]. split; [reflexivity | ].
  split; [exact Hm0 | ]. split; [reflexivity | ].
  split.
  - eexists. split; [apply lookup_set_item_same | ].
    rewrite lookup_set_item_other by reflexivity.
    apply lookup_dsetdefault_other. reflexivity.
  - intros k Hk. rewrite String.eqb_sym in Hk.
    rewrite (lookup_set_item_other k "metadata" Hk).
    apply (lookup_dsetdefault_other k "metadata" Hk).
Qed.

(** The manifest of a claim: where it goes, its name, its selector. *)
Lemma _create_persistent_volume_claim_built :
  forall (n0 inputs labels size claim_name : value) (self self' : KubernetesAdaptor),
  _create_persistent_volume_claim n0 inputs labels size self = (ok claim_name, self') ->
  exists claim,
    manifests self' = (manifests self ++ [claim])%list /\
    volumes self' = volumes self /\
    (names_are_truthy inputs ->
       at_path ["metadata"; "name"] claim = Some claim_name) /\
    (at_path ["selector"] inputs = None ->
       at_path ["spec"; "selector"; "matchLabels"] claim = Some labels).
Proof.
  intros n0 inputs labels size claim_name self self' H.
  unfold _create_persistent_volume_claim in H.
  lift_step H nm Hname. lift_step H inputs1 Hinputs.
  destruct (named_inputs _ _ _ _ Hname Hinputs)
    as (d & m0 & d' & -> & -> & Hm0 & Hnm & (m1 & Hmeta1 & Hname1) & Hrest).
  bind_step H x s1 Hres. destruct x as [manifest inputs2].
  apply _get_resource_parts in Hres
    as (api & kind & m0' & md & lbls & rest & Hm0' & -> & Hmdname & Hmdlabels
        & -> & Hrest2 & Hlogged).
  lift_step H x Hspec. destruct x as [spec manifest1].
  injection Hspec as <- <-.
  lift_step H spec2 Hresources.
  rbind_step Hresources x Hset. destruct x as [r spec'].
  apply setdefault_ok in Hset as (ds & [= <-] & -> & ->).
  rbind_step Hresources x Hset. destruct x as [q r'].
  apply setdefault_ok in Hset as (dr & Hdr & -> & ->).
  rbind_step Hresources x Hset. destruct x as [u q'].
  apply setdefault_ok in Hset as (dq & Hdq & _ & ->).
  injection Hresources as <-. cbn [store] in H.
  lift_step H spec3 Hmodes.
  rbind_step Hmodes x Hset. destruct x as [a spec'].
  apply setdefault_ok in Hset as (ds2 & [= <-] & -> & ->).
  rbind_step Hmodes a' Happend. injection Hmodes as <-. cbn [store] in H.
  lift_step H spec4 Hselector.
  rbind_step Hselector x Hset. destruct x as [sel spec'].
  apply setdefault_ok in Hset as (ds3 & [= <-] & Hsel & ->).
  rbind_step Hselector x Hset. destruct x as [u' sel'].
  apply setdefault_ok in Hset as (dsel & Hdsel & _ & ->).
  injection Hselector as <-. cbn [store] in H.
  bind_step H u'' s2 Hpush. unfold append_manifest in Hpush.
  injection Hpush as _ <-. apply ret_ok in H as [-> ->].
  destruct Hlogged as (_ & _ & Hm & _ & Hv & _).
  eexists. cbn [manifests volumes]. rewrite Hm, Hv.
  split; [reflexivity | ]. split; [reflexivity | ]. split.
  - intros [Hmeta_name Hinput_name].
    cbn [at_path lookup key_eqb String.eqb Ascii.eqb Bool.eqb].
    rewrite Hmdname. f_equal.
    unfold dget in Hm0'. rewrite Hmeta1 in Hm0'. injection Hm0' as <-.
    cbn [at_path] in Hmeta_name, Hinput_name.
    unfold dget in *. rewrite Hname1, (Hrest "name" eq_refl).
    destruct (lookup "metadata" d) as [m | ] eqn:Hmetadata.
    + subst m. destruct (lookup "name" m0) as [v | ] eqn:Hv0.
      * rewrite Hnm. unfold py_or. rewrite (Hmeta_name v eq_refl). reflexivity.
      * destruct (lookup "name" d) as [v | ]; [ | reflexivity].
        rewrite Hnm. unfold py_or. rewrite (Hinput_name v eq_refl). reflexivity.
    + injection Hm0 as <-. cbn [lookup] in *.
      destruct (lookup "name" d) as [v | ]; [ | reflexivity].
      rewrite Hnm. unfold py_or. rewrite (Hinput_name v eq_refl). reflexivity.
  - intro Hselector. cbn [at_path] in Hselector.
    assert (Hnone : lookup "selector" d = None)
      by (destruct (lookup "selector" d); [discriminate Hselector | reflexivity]).
    cbn [at_path lookup key_eqb String.eqb Ascii.eqb Bool.eqb].
    rewrite lookup_set_item_same.
    assert (Hds : dsel = []).
    { unfold dget in Hsel.
      rewrite (lookup_set_item_other "selector" "accessModes" eq_refl) in Hsel.
      rewrite (lookup_dsetdefault_other "selector" "accessModes" eq_refl) in Hsel.
      rewrite (lookup_set_item_other "selector" "resources" eq_refl) in Hsel.
      rewrite (lookup_dsetdefault_other "selector" "resources" eq_refl) in Hsel.
      rewrite (Hrest2 "selector" eq_refl eq_refl eq_refl eq_refl eq_refl) in Hsel.
      rewrite (Hrest "selector" eq_refl), Hnone in Hsel.
      subst sel. injection Hdsel as <-. reflexivity. }
    subst dsel. reflexivity.
Qed.

(** The manifest of a volume: where it goes, and its labels, which are
    the ones returned. *)
Lemma _create_persistent_volume_built :
  forall (n0 inputs size labels : value) (self self' : KubernetesAdaptor),
  _create_persistent_volume n0 inputs size self = (ok labels, self') ->
  exists pv,
    manifests self' = (manifests self ++ [pv])%list /\
    volumes self' = volumes self /\
    at_path ["metadata"; "labels"] pv = Some labels.
Proof.
  intros n0 inputs size labels self self' H.
  unfold _create_persistent_volume in H.
  lift_step H nm Hname. lift_step H inputs1 Hinputs.
  destruct (named_inputs _ _ _ _ Hname Hinputs)
    as (d & m0 & d' & -> & -> & _).
  bind_step H x s1 Hres. destruct x as [manifest inputs2].
  apply _get_resource_parts in Hres
    as (api & kind & m0' & md & lbls & rest & _ & -> & _ & Hmdlabels
        & -> & _ & Hlogged).
  lift_step H x Hspec. destruct x as [spec manifest1].
  injection Hspec as <- <-.
  lift_step H found Hfound.
  cbn [get hashable rbind dget lookup key_eqb String.eqb Ascii.eqb Bool.eqb ok]
    in Hfound.
  unfold dget in Hfound. rewrite Hmdlabels in Hfound. injection Hfound as <-.
  lift_step H spec2 Hcapacity.
  rbind_step Hcapacity x Hset. destruct x as [c spec'].
  apply setdefault_ok in Hset as (ds & [= <-] & -> & ->).
  rbind_step Hcapacity x Hset. destruct x as [u c'].
  apply setdefault_ok in Hset as (dc & Hdc & _ & ->).
  injection Hcapacity as <-. cbn [store] in H.
  lift_step H spec3 Hmodes.
  rbind_step Hmodes x Hset. destruct x as [a spec'].
  apply setdefault_ok in Hset as (ds2 & [= <-] & -> & ->).
  rbind_step Hmodes a' Happend. injection Hmodes as <-. cbn [store] in H.
  lift_step H x Hset. destruct x as [u' spec4].
  apply setdefault_ok in Hset as (ds3 & [= <-] & _ & ->).
  bind_step H u'' s2 Hpush. unfold append_manifest in Hpush.
  injection Hpush as _ <-. apply ret_ok in H as [-> ->].
  destruct Hlogged as (_ & _ & Hm & _ & Hv & _).
  eexists. cbn [manifests volumes store set_item key_eqb String.eqb Ascii.eqb Bool.eqb].
  rewrite Hm, Hv.
  split; [reflexivity | ]. split; [reflexivity | ].
  cbn [at_path lookup key_eqb String.eqb Ascii.eqb Bool.eqb].
  rewrite Hmdlabels. reflexivity.
Qed.

(** X17.  When the loop body of [translate] returns for a volume node, it
    has added two manifests, the volume and then its claim, and the node
    is bound to a claim name: the one it was bound to before, or else the
    name returned for the new claim.  That name is the name in the
    metadata of the claim manifest, provided the [configure] inputs give no
    empty name; and the claim selects the labels of the volume manifest,
    provided the [configure] inputs give no selector of their own. *)
Theorem claim_follows_its_volume :
  forall (repositories : list Repository) (node : NodeTemplate)
         (self self' : KubernetesAdaptor),
  is_volume node = true ->
  translate_node repositories node self = (ok tt, self') ->
  let configure := dget (kube_interface node) "configure" (VDict []) in
  exists pv claim claim_name,
    manifests self' = (manifests self ++ [pv; claim])%list /\
    lookup (Tosca.name node) (volumes self')
      = Some (dget (volumes self) (Tosca.name node) claim_name) /\
    (names_are_truthy configure ->
       at_path ["metadata"; "name"] claim = Some claim_name) /\
    (at_path ["selector"] configure = None ->
       exists labels,
         at_path ["metadata"; "labels"] pv = Some labels /\
         at_path ["spec"; "selector"; "matchLabels"] claim = Some labels).
Proof.
  intros repositories node self self' Hvolume H configure.
  unfold is_volume, is_workload in Hvolume.
  apply andb_true_iff in Hvolume as [Hworkload Hvolume].
  apply negb_true_iff in Hworkload.
  unfold translate_node in H. rewrite Hworkload, Hvolume in H.
  lift_step H underscore Hunderscore.
  destruct underscore.
  { bind_step H u s Hlog. discriminate H. }
  bind_step H labels s1 Hpv.
  apply _create_persistent_volume_built in Hpv as (pv & Hm1 & Hv1 & Hlabels).
  bind_step H claim_name s2 Hclaim.
  apply _create_persistent_volume_claim_built in Hclaim
    as (claim & Hm2 & Hv2 & Hname & Hselector).
  unfold bind_volume in H. injection H as <-.
  exists pv, claim, claim_name. cbn [manifests volumes].
  rewrite Hm2, Hm1, Hv2, Hv1, <- app_assoc.
  split; [reflexivity | ].
  split; [apply lookup_dsetdefault_same | ].
  split; [exact Hname | ].
  intro Hnone. exists labels. split; [exact Hlabels | exact (Hselector Hnone)].
Qed.

Lemma claim_follows_its_volume_witness :
  let self' := snd (translate_node docker_hub data (init "app")) in
  exists pv claim claim_name,
    manifests self' = (manifests (init "app") ++ [pv; claim])%list /\
    lookup "data" (volumes self') = Some (dget (volumes (init "app")) "data" claim_name) /\
    (names_are_truthy (VDict []) ->
       at_path ["metadata"; "name"] claim = Some claim_name) /\
    (at_path ["selector"] (VDict []) = None ->
       exists labels,
         at_path ["metadata"; "labels"] pv = Some labels /\
         at_path ["spec"; "selector"; "matchLabels"] claim = Some labels).
Proof.
  intro self'.
  apply (claim_follows_its_volume docker_hub data (init "app") self').
  - reflexivity.
  - vm_compute. reflexivity.
Defined.

(** ** Services and the pods of their workload *)

(** A key that the data to separate do not name stays where it is. *)
Lemma _separate_data_other :
  forall (key_names : list string) (k : string) (d data : dict) (rest : value),
  ~ In k key_names ->
  _separate_data key_names (VDict d) = ok (data, rest) ->
  exists d', rest = VDict d' /\ lookup k d' = lookup k d.
Proof.
  intros key_names k d data rest Hk. unfold _separate_data.
  generalize (@nil (value * value)). revert d.
  induction key_names as [ | x key_names IH]; intros d data0 H.
  - injection H as _ <-. exists d. split; reflexivity.
  - cbn [fold_left rbind ok] in H.
    assert (Hx : (x =? k) = false).
    { apply String.eqb_neq. intro Heq. apply Hk. left. exact Heq. }
    assert (Hrest : ~ In k key_names) by (intro Hin; apply Hk; right; exact Hin).
    destruct (lookup x d) as [v | ].
    + destruct (IH Hrest _ _ H) as (d' & -> & Hd').
      exists d'. split; [reflexivity | ].
      rewrite Hd'. apply lookup_remove_other. exact Hx.
    + exact (IH Hrest _ _ H).
Qed.

(** What is spread after the entries of a display overrides them, and
    leaves the entries it does not name. *)
Lemma lookup_merge_none : forall (k : string) (more d : dict),
  lookup k more = None -> lookup k (merge d more) = lookup k d.
Proof.
  intros k more. unfold merge.
  induction more as [ | [k0 v0] more IH]; intros d H; [reflexivity | ].
  cbn [fold_left fst snd]. cbn [lookup] in H.
  destruct (key_eqb k0 k) eqn:Hk0; [discriminate H | ].
  rewrite (IH _ H). clear IH H.
  induction d as [ | [k1 v1] d IHd]; cbn [set_item lookup].
  - rewrite Hk0. reflexivity.
  - destruct (key_eqb k1 k0) eqn:Hk1; cbn [lookup].
    + destruct (key_eqb k1 k) eqn:Hk; [ | reflexivity].
      apply key_eqb_str in Hk. subst k1.
      destruct k0; cbn in Hk1, Hk0; try discriminate Hk1.
      rewrite String.eqb_sym in Hk1. congruence.
    + rewrite IHd. reflexivity.
Qed.



(** ** The service that takes the name of the node *)

Lemma lower_char_is_not_upper : forall c : ascii,
  is_upper (if is_upper c then ascii_of_nat (nat_of_ascii c + 32) else c) = false.
Proof.
  intro c. destruct c as [[] [] [] [] [] [] [] []]; reflexivity.
Qed.

Lemma lower_starts_lower : forall (t s : string) (c : ascii),
  lower t = String c s -> is_upper c = false.
Proof.
  intros t s c H. destruct t as [ | c0 t]; [discriminate H | ].
  cbn [lower map_string] in H. injection H as <- _.
  apply lower_char_is_not_upper.
Qed.

Lemma append_cancel : forall a b c : string, a ++ b = a ++ c -> b = c.
Proof.
  intros a b c. induction a as [ | x a IH]; cbn [append]; intro H.
  - exact H.
  - injection H as H. exact (IH H).
Qed.

(** A default name never ends in a type that starts with a capital. *)
Lemma default_service_name_is_lower :
  forall (node_name t s : string) (c : ascii),
  is_upper c = true ->
  default_service_name node_name t <> node_name ++ "-" ++ String c s.
Proof.
  intros node_name t s c Hc H. unfold default_service_name in H.
  apply append_cancel in H. cbn [append] in H. injection H as H.
  apply lower_starts_lower in H. congruence.
Qed.

Lemma lookup_other_keys : forall (k : string) (d : dict),
  (forall k0, In k0 (map fst d) -> k0 <> VStr k) -> lookup k d = None.
Proof.
  intros k d. induction d as [ | [k0 v0] d IH]; intro H; [reflexivity | ].
  cbn [lookup]. destruct (key_eqb k0 k) eqn:Hk.
  - apply key_eqb_str in Hk. exfalso. apply (H k0); [left; reflexivity | exact Hk].
  - apply IH. intros k1 Hin. apply H. right. exact Hin.
Qed.

Lemma In_dpop : forall (a k default : value) (d : dict),
  In a (map fst (snd (dpop d k default))) -> In a (map fst d).
Proof.
  intros a k default d. unfold dpop. destruct (lookup k d); cbn [snd]; [ | trivial].
  induction d as [ | [k0 v0] d IH]; cbn [remove map fst]; [trivial | ].
  destruct (key_eqb k0 k); cbn [map fst In]; [auto | ].
  intros [H | H]; auto.
Qed.

(** X19.  The search for the service that takes the bare name of the
    node goes through [clusterip], [nodeport], [LoadBalancer] and
    [ExternalIP], but the default name of a service ends in the type in
    lower case: when all the services to build have default names, the
    last two never match, and the outcome is that of a search through
    [clusterip] and [nodeport] alone. *)
Theorem capitalised_service_types_never_match :
  forall (node_name : string) (services_to_build : dict),
  (forall k, In k (map fst services_to_build) ->
     exists t, k = VStr (default_service_name node_name t)) ->
  rename_primary node_name ["clusterip"; "nodeport"; "LoadBalancer"; "ExternalIP"]
    services_to_build
  = rename_primary node_name ["clusterip"; "nodeport"] services_to_build.
Proof.
  intros node_name d Hnames.
  assert (Hnever : forall (c : ascii) (s : string) (d' : dict),
            is_upper c = true ->
            (forall k, In k (map fst d') -> In k (map fst d)) ->
            dpop d' (VStr (node_name ++ "-" ++ String c s)) VNone = (VNone, d')).
  { intros c s d' Hc Hsub. unfold dpop.
    rewrite lookup_other_keys; [reflexivity | ].
    intros k0 Hin Heq. destruct (Hnames k0 (Hsub k0 Hin)) as (t & ->).
    injection Heq as Heq.
    exact (default_service_name_is_lower node_name t s c Hc Heq). }
  cbn [rename_primary].
  destruct (dpop d (VStr (node_name ++ "-" ++ "clusterip")) VNone)
    as [entry1 d1] eqn:H1.
  destruct (truthy entry1); [reflexivity | ].
  destruct (dpop d1 (VStr (node_name ++ "-" ++ "nodeport")) VNone)
    as [entry2 d2] eqn:H2.
  destruct (truthy entry2); [reflexivity | ].
  assert (Hsub : forall k, In k (map fst d2) -> In k (map fst d)).
  { intros k Hin.
    apply (In_dpop k (VStr (node_name ++ "-" ++ "clusterip")) VNone).
    rewrite H1. cbn [snd].
    apply (In_dpop k (VStr (node_name ++ "-" ++ "nodeport")) VNone).
    rewrite H2. exact Hin. }
  rewrite (Hnever "L"%char "oadBalancer" d2 eq_refl Hsub). cbn [truthy].
  rewrite (Hnever "E"%char "xternalIP" d2 eq_refl Hsub). reflexivity.
Qed.

Lemma capitalised_service_types_never_match_witness :
  let services_to_build :=
    [ (VStr (default_service_name "web" "LoadBalancer"),
       VDict ["type" =: VStr "LoadBalancer"]) ] in
  rename_primary "web" ["clusterip"; "nodeport"; "LoadBalancer"; "ExternalIP"]
    services_to_build
  = rename_primary "web" ["clusterip"; "nodeport"] services_to_build /\
  lookup "web" (rename_primary "web" ["clusterip"; "nodeport"] services_to_build)
  = None.
Proof.
  intro services_to_build. split; [ | reflexivity].
  apply (capitalised_service_types_never_match "web" services_to_build).
  intros k [<- | []]. exists "LoadBalancer". reflexivity.
Defined.
